(** * HVAC ensemble fault diagnosis: a shallow embedding of
      [portal/hailo_inference.py]

    The development follows the Python module function by function.

    - Python dictionaries keep insertion order and are iterated in that
      order ([results.values()], [results.items()], [MODEL_PATHS.keys()]),
      and [max] breaks ties by iteration order, so a dictionary is an
      association list with the update-in-place semantics of [d[k] = v].
    - The per-model result dictionaries are records whose fields are
      optional: a field is [Some] exactly when the key is present.
    - Floating point numbers are exact rationals ([Q]).  The thresholds
      0.5, 0.3 and 0.7 are compared against values [k/n] with [n] at most
      the number of models, where the rounded quotient and the exact one
      compare alike; NaN is not represented.
    - The device, the file system, the clock and the thread scheduler are
      collaborators of the module; they are explicit arguments.
    - The module is described twice.  The first description takes the
      collaborators at their contract: a backend call returns a vector of
      numbers or fails, [Path.exists()] and [path.stat()] answer, the
      payload is a mapping of numbers ([Runtime], [Platform], [diagnose],
      [initialize], [main]).  The second one, with the suffix [_exn],
      follows the same lines with the exceptions that the collaborators
      can raise where the module has no handler, or a handler further out:
      the conversion [float(output[0]) if len(output) > 0 else 0.0], the
      test [path.exists()], the call [path.stat()], a payload that is not
      a mapping or whose readings do not convert ([Backend], [Host],
      [diagnose_exn], [initialize_exn], [main_exn]).  There the readings
      of a payload are of any kind and the feature array holds their
      [float32] conversions ([Numeric], [prepare_sensor_data_f32]).  On
      collaborators that honour the contract, and exact numbers, the two
      descriptions coincide ([diagnose_exn_backend_of],
      [initialize_exn_host_of], [main_exn_agree]). *)

From Stdlib Require Import String List Bool Arith ZArith QArith Lia Permutation.
Import ListNotations.

Open Scope string_scope.

(** ** Rational comparisons *)

Definition Qltb (a b : Q) : bool := negb (Qle_bool b a).
Definition Qgtb (a b : Q) : bool := Qltb b a.

(** ** Insertion-ordered dictionaries *)

Module Dict.
Section WithValue.
Context {V : Type}.

Definition t := list (string * V).

Definition empty : t := [].

(** [d.get(k)] *)
Fixpoint get (d : t) (k : string) : option V :=
  match d with
  | [] => None
  | (k', v) :: d' => if String.eqb k' k then Some v else get d' k
  end.

(** [k in d] *)
Definition mem (d : t) (k : string) : bool :=
  match get d k with Some _ => true | None => false end.

(** [d[k] = v]: an existing key keeps its position, a new key goes last *)
Fixpoint set (d : t) (k : string) (v : V) : t :=
  match d with
  | [] => [(k, v)]
  | (k', v') :: d' =>
      if String.eqb k' k then (k, v) :: d' else (k', v') :: set d' k v
  end.

Definition keys (d : t) : list string := map fst d.
Definition values (d : t) : list V := map snd d.
Definition items (d : t) : list (string * V) := d.
End WithValue.
Arguments t : clear implicits.
End Dict.

(** ** The model registry constant *)

Definition MODEL_PATHS : Dict.t string :=
  [ ("apollo",   "/home/Automata/mydata/apollo-nexus/models/apollo_simple.hef");
    ("aquilo",   "/home/Automata/mydata/apollo-nexus/models/aquilo_simple.hef");
    ("boreas",   "/home/Automata/mydata/apollo-nexus/models/boreas_simple.hef");
    ("naiad",    "/home/Automata/mydata/apollo-nexus/models/naiad_simple.hef");
    ("vulcan",   "/home/Automata/mydata/apollo-nexus/models/vulcan_simple.hef");
    ("zephyrus", "/home/Automata/mydata/apollo-nexus/models/zephyrus_simple.hef");
    ("colossus", "/home/Automata/mydata/apollo-nexus/models/colossus_simple.hef");
    ("gaia",     "/home/Automata/mydata/apollo-nexus/models/gaia_simple.hef") ].

(** ** Per-model result dictionaries *)

Record ModelResult := mkResult {
  fault_detected : option bool;
  confidence : option Q;
  diagnosis : option string;
  inference_time_ms : option Q;
  total_ensemble_time_ms : option Q;
  error : option string
}.

(** [{'error': msg}] *)
Definition error_result (msg : string) : ModelResult :=
  mkResult None None None None None (Some msg).

(** The final verdict [{'diagnosis': ..., 'consensus': ...}] *)
Record ConsensusResult := mkConsensus {
  final_diagnosis : string;
  consensus : Q
}.

(** The report [{'models': ..., 'final': ..., 'mode': ...}] *)
Record Report := mkReport {
  models_of : Dict.t ModelResult;
  final : ConsensusResult;
  mode_of : string
}.

(** ** [interpret_diagnosis] *)

Definition interpret_diagnosis (model_name : string) (fault_prob : Q) : string :=
  let diagnoses : Dict.t string :=
    [ ("apollo",   if Qltb fault_prob (1#2) then "System coordination normal"
                   else "System coordination issue detected");
      ("aquilo",   if Qltb fault_prob (1#2) then "Electrical systems normal"
                   else "Electrical fault detected");
      ("boreas",   if Qltb fault_prob (1#2) then "Refrigeration normal"
                   else "Refrigeration issue detected");
      ("naiad",    if Qltb fault_prob (1#2) then "Flow systems normal"
                   else "Flow restriction detected");
      ("vulcan",   if Qltb fault_prob (1#2) then "Mechanical systems normal"
                   else "Mechanical fault detected");
      ("zephyrus", if Qltb fault_prob (1#2) then "Airflow normal"
                   else "Airflow issue detected");
      ("colossus", if Qltb fault_prob (1#2) then "No pattern anomalies"
                   else "Pattern anomaly detected");
      ("gaia",     if Qltb fault_prob (1#2) then "Safety parameters normal"
                   else "Safety concern detected") ] in
  match Dict.get diagnoses model_name with
  | Some s => s
  | None => "Unknown"
  end.

(** ** [aggregate_diagnoses] *)

(** ['confidence' in r] *)
Definition has_confidence (r : ModelResult) : bool :=
  match confidence r with Some _ => true | None => false end.

(** [r.get('fault_detected', False)] *)
Definition get_fault_detected (r : ModelResult) : bool :=
  match fault_detected r with Some b => b | None => false end.

(** [r.get('confidence', 0)] *)
Definition get_confidence (r : ModelResult) : Q :=
  match confidence r with Some c => c | None => 0 end.

(** [max(best :: l, key=key)]: the first element whose key is maximal; the
    running best is replaced only by a strictly larger key. *)
Fixpoint max_by {A : Type} (key : A -> Q) (best : A) (l : list A) : A :=
  match l with
  | [] => best
  | x :: l' => if Qltb (key best) (key x) then max_by key x l'
               else max_by key best l'
  end.

(** The result is [None] when [primary_fault[1]['diagnosis']] raises
    [KeyError]. *)
Definition aggregate_diagnoses (results : Dict.t ModelResult)
  : option ConsensusResult :=
  let valid_results := filter has_confidence (Dict.values results) in
  match valid_results with
  | [] => Some (mkConsensus "Unable to complete diagnosis" 0)
  | _ :: _ =>
      let fault_votes := length (filter get_fault_detected valid_results) in
      let consensus :=
        (inject_Z (Z.of_nat fault_votes)
         / inject_Z (Z.of_nat (length valid_results)))%Q in
      if Qgtb consensus (7#10) then
        let faults :=
          filter (fun kv => get_fault_detected (snd kv)) (Dict.items results) in
        match faults with
        | f :: fs =>
            let primary_fault :=
              max_by (fun x => get_confidence (snd x)) f fs in
            match diagnosis (snd primary_fault) with
            | Some d => Some (mkConsensus ("FAULT DETECTED: " ++ d) consensus)
            | None => None
            end
        | [] => Some (mkConsensus "Multiple system issues detected" consensus)
        end
      else if Qgtb consensus (3#10) then
        Some (mkConsensus "Potential issue detected - monitoring recommended"
                          consensus)
      else
        Some (mkConsensus "System operating normally" consensus)
  end.

(** ** The diagnostics object *)

(** An entry of [self.models]: [{'loaded': ..., 'path': ..., 'size': ...}]
    or [{'loaded': False, 'error': ..., 'path': ...}] *)
Record ModelInfo := mkInfo {
  loaded : bool;
  load_error : option string;
  path : string;
  size : option Q
}.

(** [self.network_groups] maps a model name to its configured network
    group; the handle is identified by the HEF file it was built from. *)
Record HailoHVACDiagnostics := mkDiag {
  target : bool;
  models : Dict.t ModelInfo;
  network_groups : Dict.t string
}.

(** [__init__] *)
Definition new_diagnostics : HailoHVACDiagnostics :=
  mkDiag false Dict.empty Dict.empty.

(** [round(x, 2)], half to even *)
Definition round_half_even (q : Q) : Z :=
  let n := Qnum q in
  let d := Zpos (Qden q) in
  let f := (n / d)%Z in
  let r2 := (2 * (n mod d))%Z in
  if (r2 <? d)%Z then f
  else if (d <? r2)%Z then (f + 1)%Z
  else if Z.even f then f else (f + 1)%Z.

Definition round2 (q : Q) : Q := round_half_even (q * 100) # 100.

(** The device and the file system as [initialize] sees them, on a file
    system whose [exists()] and [stat()] answer; [Host] below is the file
    system on which they can raise. *)
Record Platform := mkPlatform {
  (** [VDevice(params)] returns a device instead of raising *)
  vdevice_available : bool;
  (** [Path(model_path).exists()] *)
  path_exists : string -> bool;
  (** creating and configuring the HEF: [None] on success, [Some e] with
      [e = str(exception)] when one of the three calls raises *)
  configure_hef : string -> option string;
  (** [path.stat().st_size / (1024 * 1024)] *)
  size_mb : string -> Q
}.

(** The body of the loading loop of [initialize] *)
Definition load_model (pf : Platform) (self : HailoHVACDiagnostics)
  (item : string * string) : HailoHVACDiagnostics :=
  let '(model_name, model_path) := item in
  if path_exists pf model_path then
    match configure_hef pf model_path with
    | None =>
        mkDiag (target self)
          (Dict.set (models self) model_name
             (mkInfo true None model_path (Some (round2 (size_mb pf model_path)))))
          (Dict.set (network_groups self) model_name model_path)
    | Some e =>
        mkDiag (target self)
          (Dict.set (models self) model_name (mkInfo false (Some e) model_path None))
          (network_groups self)
    end
  else
    mkDiag (target self)
      (Dict.set (models self) model_name
         (mkInfo false (Some "File not found") model_path None))
      (network_groups self).

(** [initialize]: the returned boolean and the object after the call *)
Definition initialize (pf : Platform) (self : HailoHVACDiagnostics)
  : bool * HailoHVACDiagnostics :=
  if vdevice_available pf then
    (true,
     fold_left (load_model pf) (Dict.items MODEL_PATHS)
       (mkDiag true (models self) (network_groups self)))
  else (false, self).

(** ** [prepare_sensor_data] *)

Definition sensor_get (sensor_data : Dict.t Q) (k : string) (default : Q) : Q :=
  match Dict.get sensor_data k with Some v => v | None => default end.

Definition prepare_sensor_data (sensor_data : Dict.t Q) : list Q :=
  let features :=
    [ sensor_get sensor_data "supply_air_temp" 20;
      sensor_get sensor_data "return_air_temp" 22;
      sensor_get sensor_data "outside_air_temp" 25;
      sensor_get sensor_data "mixed_air_temp" 21;
      sensor_get sensor_data "supply_air_pressure" (3#2);
      sensor_get sensor_data "return_air_pressure" (6#5);
      sensor_get sensor_data "filter_pressure_drop" (3#10);
      sensor_get sensor_data "supply_air_flow" 1000;
      sensor_get sensor_data "return_air_flow" 950;
      sensor_get sensor_data "compressor_current" 15;
      sensor_get sensor_data "fan_motor_current" 5;
      sensor_get sensor_data "power_consumption" 3500;
      sensor_get sensor_data "supply_air_humidity" 45;
      sensor_get sensor_data "return_air_humidity" 50;
      sensor_get sensor_data "setpoint_temp" 22;
      sensor_get sensor_data "damper_position" 50;
      sensor_get sensor_data "valve_position" 30;
      sensor_get sensor_data "compressor_status" 0;
      sensor_get sensor_data "fan_status" 1 ]%Q in
  features ++ repeat 0%Q (32 - length features).

(** ** Inference *)

(** What a diagnosis request depends on outside the object, for a
    backend whose output is a vector of numbers; [Backend] below is the
    backend whose output can be any array. *)
Record Runtime := mkRuntime {
  (** the vstream pipeline of one network group on one input: [Some]
      output vector, or [None] when anything in the [try] block raises *)
  infer : string -> list Q -> option (list Q);
  (** [(time.time() - start_time) * 1000] as measured by the thread of a
      model in [run_model] *)
  thread_elapsed_ms : string -> Q;
  (** [(time.time() - start_time) * 1000] as measured around the whole
      fan-out in [run_simultaneous_inference] *)
  total_elapsed_ms : Q;
  (** the scheduler: with [n] threads still to write their result, the
      thread at position [next_writer n mod n] among them takes the lock *)
  next_writer : nat -> nat
}.

(** [self.models.get(model_name, {}).get('loaded')] *)
Definition is_loaded (self : HailoHVACDiagnostics) (model_name : string) : bool :=
  match Dict.get (models self) model_name with
  | Some info => loaded info
  | None => false
  end.

Definition run_inference (rt : Runtime) (self : HailoHVACDiagnostics)
  (model_name : string) (input_data : list Q) : option (list Q) :=
  if negb (Dict.mem (network_groups self) model_name) then None
  else infer rt model_name input_data.

(** [float(output[0]) if len(output) > 0 else 0.0] *)
Definition fault_prob_of (output : list Q) : Q :=
  match output with
  | x :: _ => x
  | [] => 0
  end.

(** The thread function [run_model] of [run_simultaneous_inference]; its
    only effect on shared state is the single write under the lock. *)
Definition run_model (rt : Runtime) (self : HailoHVACDiagnostics)
  (input_data : list Q) (results : Dict.t ModelResult) (model_name : string)
  : Dict.t ModelResult :=
  if is_loaded self model_name then
    let output := run_inference rt self model_name input_data in
    let inference_time := thread_elapsed_ms rt model_name in
    match output with
    | Some output =>
        let fault_prob := fault_prob_of output in
        Dict.set results model_name
          (mkResult (Some (Qgtb fault_prob (1#2)))
                    (Some fault_prob)
                    (Some (interpret_diagnosis model_name fault_prob))
                    (Some (round2 inference_time))
                    None None)
    | None => Dict.set results model_name (error_result "Inference failed")
    end
  else Dict.set results model_name (error_result "Model not loaded").

Fixpoint remove_at {A : Type} (i : nat) (l : list A) : list A :=
  match l, i with
  | [], _ => []
  | _ :: l', O => l'
  | x :: l', S i' => x :: remove_at i' l'
  end.

(** The threads started for [pending] run until all are joined.  Each
    thread writes once; the scheduler decides who writes next.  [fuel]
    bounds the number of writes and is the number of threads. *)
Fixpoint join_all (write : Dict.t ModelResult -> string -> Dict.t ModelResult)
  (next : nat -> nat) (fuel : nat) (pending : list string)
  (results : Dict.t ModelResult) : Dict.t ModelResult :=
  match fuel with
  | O => results
  | S fuel' =>
      match pending with
      | [] => results
      | t0 :: _ =>
          let i := (next (length pending) mod length pending)%nat in
          join_all write next fuel' (remove_at i pending)
                   (write results (nth i pending t0))
      end
  end.

(** The loop that adds the timing information after the join *)
Definition add_total_time (total_time : Q) (results : Dict.t ModelResult)
  : Dict.t ModelResult :=
  map (fun kv : string * ModelResult =>
         let '(model_name, r) := kv in
         match error r with
         | None =>
             (model_name,
              mkResult (fault_detected r) (confidence r) (diagnosis r)
                       (inference_time_ms r) (Some (round2 total_time)) (error r))
         | Some _ => (model_name, r)
         end) results.

Definition run_simultaneous_inference (rt : Runtime)
  (self : HailoHVACDiagnostics) (input_data : list Q) : Dict.t ModelResult :=
  let threads := Dict.keys MODEL_PATHS in
  let results :=
    join_all (run_model rt self input_data) (next_writer rt)
             (length threads) threads Dict.empty in
  add_total_time (total_elapsed_ms rt) results.

(** The body of the sequential loop of [diagnose] *)
Definition run_sequential_step (rt : Runtime) (self : HailoHVACDiagnostics)
  (input_data : list Q) (results : Dict.t ModelResult) (model_name : string)
  : Dict.t ModelResult :=
  if is_loaded self model_name then
    match run_inference rt self model_name input_data with
    | Some output =>
        let fault_prob := fault_prob_of output in
        Dict.set results model_name
          (mkResult (Some (Qgtb fault_prob (1#2)))
                    (Some fault_prob)
                    (Some (interpret_diagnosis model_name fault_prob))
                    None None None)
    | None => Dict.set results model_name (error_result "Inference failed")
    end
  else Dict.set results model_name (error_result "Model not loaded").

Definition run_sequential_inference (rt : Runtime)
  (self : HailoHVACDiagnostics) (input_data : list Q) : Dict.t ModelResult :=
  fold_left (run_sequential_step rt self input_data)
            (Dict.keys MODEL_PATHS) Dict.empty.

(** [diagnose(sensor_data, mode='sequential')]: [mode] is [None] when the
    caller omits the argument.  The result is [None] when
    [aggregate_diagnoses] raises. *)
Definition diagnose (rt : Runtime) (self : HailoHVACDiagnostics)
  (sensor_data : Dict.t Q) (mode : option string) : option Report :=
  let mode := match mode with Some m => m | None => "sequential" end in
  let input_data := prepare_sensor_data sensor_data in
  let results :=
    if String.eqb mode "simultaneous"
    then run_simultaneous_inference rt self input_data
    else run_sequential_inference rt self input_data in
  match aggregate_diagnoses results with
  | Some final_diagnosis => Some (mkReport results final_diagnosis mode)
  | None => None
  end.

(** ** [main] *)

(** What [main] prints.  The [status] and [models] commands only talk to
    the vendor tools and the file system; their payload is not modelled. *)
Inductive Output :=
| PrintError (msg : string)
| PrintReport (result : Report)
| PrintStatus
| PrintModels.

(** [json_loads] is [json.loads] restricted to sensor payloads: [None]
    stands for [JSONDecodeError].  [main_exn] below has the payloads that
    parse to something else and the [models] command with its listing. *)
Definition main (pf : Platform) (rt : Runtime)
  (json_loads : string -> option (Dict.t Q)) (argv : list string) : Output :=
  match argv with
  | [] | [_] => PrintError "No command specified"
  | _ :: command :: args =>
      if String.eqb command "status" then PrintStatus
      else if String.eqb command "models" then PrintModels
      else if String.eqb command "diagnose" then
        match args with
        | [] => PrintError "No sensor data provided"
        | payload :: rest =>
            match json_loads payload with
            | None => PrintError "Invalid JSON sensor data"
            | Some sensor_data =>
                let mode :=
                  match rest with
                  | [] => "simultaneous"
                  | m :: _ => m
                  end in
                let '(ok, diag) := initialize pf new_diagnostics in
                if ok then
                  match diagnose rt diag sensor_data (Some mode) with
                  | Some result => PrintReport result
                  | None => PrintError "'diagnosis'"
                  end
                else PrintError "Failed to initialize Hailo device"
            end
        end
      else PrintError ("Unknown command: " ++ command)
  end.

(** * Vocabulary of the statements *)

(** [best] is the first element of [l] whose key is maximal. *)
Definition first_max {A : Type} (key : A -> Q) (l : list A) (best : A) : Prop :=
  exists l1 l2,
    (l = l1 ++ best :: l2)%list
    /\ Forall (fun x => (key x < key best)%Q) l1
    /\ Forall (fun x => (key x <= key best)%Q) l2.

(** The two shapes of result dictionary that the executor builds: a
    success record has a verdict, a confidence and a diagnosis and no
    error; an error record has an error and none of the three. *)
Definition is_success (r : ModelResult) : bool :=
  match fault_detected r, confidence r, diagnosis r, error r with
  | Some _, Some _, Some _, None => true
  | _, _, _, _ => false
  end.

Definition is_error (r : ModelResult) : bool :=
  match fault_detected r, confidence r, diagnosis r, error r with
  | None, None, None, Some _ => true
  | _, _, _, _ => false
  end.

Definition is_model_result (r : ModelResult) : bool :=
  is_success r || is_error r.

(** The success results of a mapping, those among them that flag a fault,
    and the fault-flagged entries in iteration order. *)
Definition success_count (results : Dict.t ModelResult) : nat :=
  length (filter has_confidence (Dict.values results)).

Definition fault_count (results : Dict.t ModelResult) : nat :=
  length (filter get_fault_detected
            (filter has_confidence (Dict.values results))).

Definition fault_flagged (results : Dict.t ModelResult)
  : list (string * ModelResult) :=
  filter (fun kv => get_fault_detected (snd kv)) results.

Definition entry_confidence (kv : string * ModelResult) : Q :=
  get_confidence (snd kv).

(** The entry that the sequential loop writes for a model, and the entry
    that the thread of a model writes in [run_simultaneous_inference]. *)
Definition sequential_entry (rt : Runtime) (self : HailoHVACDiagnostics)
  (input_data : list Q) (model_name : string) : ModelResult :=
  if is_loaded self model_name then
    match run_inference rt self model_name input_data with
    | Some output =>
        mkResult (Some (Qgtb (fault_prob_of output) (1#2)))
                 (Some (fault_prob_of output))
                 (Some (interpret_diagnosis model_name (fault_prob_of output)))
                 None None None
    | None => error_result "Inference failed"
    end
  else error_result "Model not loaded".

Definition thread_entry (rt : Runtime) (self : HailoHVACDiagnostics)
  (input_data : list Q) (model_name : string) : ModelResult :=
  if is_loaded self model_name then
    match run_inference rt self model_name input_data with
    | Some output =>
        mkResult (Some (Qgtb (fault_prob_of output) (1#2)))
                 (Some (fault_prob_of output))
                 (Some (interpret_diagnosis model_name (fault_prob_of output)))
                 (Some (round2 (thread_elapsed_ms rt model_name)))
                 None None
    | None => error_result "Inference failed"
    end
  else error_result "Model not loaded".

(** The effect of the timing loop on one entry *)
Definition with_total_time (total_time : Q) (r : ModelResult) : ModelResult :=
  match error r with
  | None =>
      mkResult (fault_detected r) (confidence r) (diagnosis r)
               (inference_time_ms r) (Some (round2 total_time)) (error r)
  | Some _ => r
  end.

(** The order in which the threads of [pending] write under a scheduler *)
Fixpoint write_order (next : nat -> nat) (fuel : nat) (pending : list string)
  : list string :=
  match fuel with
  | O => []
  | S fuel' =>
      match pending with
      | [] => []
      | t0 :: _ =>
          let i := (next (length pending) mod length pending)%nat in
          nth i pending t0 :: write_order next fuel' (remove_at i pending)
      end
  end.

(** The models entry of a report for one model *)
Definition report_entry (report : Report) (model_name : string)
  : option ModelResult :=
  Dict.get (models_of report) model_name.

(** The mode that [diagnose] runs with, and the result mapping it builds
    before aggregating *)
Definition effective_mode (mode : option string) : string :=
  match mode with Some m => m | None => "sequential" end.

Definition ensemble_results (rt : Runtime) (self : HailoHVACDiagnostics)
  (sensor_data : Dict.t Q) (mode : option string) : Dict.t ModelResult :=
  if String.eqb (effective_mode mode) "simultaneous"
  then run_simultaneous_inference rt self (prepare_sensor_data sensor_data)
  else run_sequential_inference rt self (prepare_sensor_data sensor_data).

(** The dictionary with the entries [f name], in the order of [names] *)
Definition tabulate {V : Type} (f : string -> V) (names : list string)
  : Dict.t V :=
  map (fun name => (name, f name)) names.

(** The entry of a model in the mapping that [diagnose] builds *)
Definition ensemble_entry (rt : Runtime) (self : HailoHVACDiagnostics)
  (sensor_data : Dict.t Q) (mode : option string) (model_name : string)
  : ModelResult :=
  if String.eqb (effective_mode mode) "simultaneous"
  then with_total_time (total_elapsed_ms rt)
         (thread_entry rt self (prepare_sensor_data sensor_data) model_name)
  else sequential_entry rt self (prepare_sensor_data sensor_data) model_name.

(** ** Sample runs *)

(** A device on which every model file is present and loads *)
Definition sample_platform : Platform :=
  mkPlatform true (fun _ => true) (fun _ => None) (fun _ => 1%Q).

(** A device that comes up while no model file is present *)
Definition empty_platform : Platform :=
  mkPlatform true (fun _ => false) (fun _ => None) (fun _ => 1%Q).


Definition sample_diagnostics : HailoHVACDiagnostics :=
  snd (initialize sample_platform new_diagnostics).

(** [apollo] returns an empty output, [gaia] fails, the other models
    return 0.9 *)
Definition sample_runtime : Runtime :=
  mkRuntime
    (fun model_name _ =>
       if String.eqb model_name "apollo" then Some []
       else if String.eqb model_name "gaia" then None
       else Some [9#10; 1#10])
    (fun _ => 12345#1000) (100#3) (fun _ => 3%nat).


Definition sample_json_loads (payload : string) : option (Dict.t Q) :=
  if String.eqb payload "{}" then Some [] else None.

Definition sample_results : Dict.t ModelResult :=
  [ ("apollo", error_result "Model not loaded");
    ("aquilo", mkResult (Some true) (Some (8#10))
                 (Some "Electrical fault detected") None None None);
    ("boreas", mkResult (Some true) (Some (9#10))
                 (Some "Refrigeration issue detected") None None None);
    ("naiad",  mkResult (Some true) (Some (9#10))
                 (Some "Flow restriction detected") None None None);
    ("vulcan", mkResult (Some false) (Some (1#10))
                 (Some "Mechanical systems normal") None None None) ].

(** Every model returns exactly 0.5 *)
Definition half_runtime : Runtime :=
  mkRuntime (fun _ _ => Some [1#2]) (fun _ => 1%Q) 1%Q (fun _ => 0%nat).

(** The two strings of each model in [interpret_diagnosis]: the one
    chosen when [fault_prob < 0.5] and the other one *)
Definition DIAGNOSIS_STRINGS : Dict.t (string * string) :=
  [ ("apollo",   ("System coordination normal", "System coordination issue detected"));
    ("aquilo",   ("Electrical systems normal", "Electrical fault detected"));
    ("boreas",   ("Refrigeration normal", "Refrigeration issue detected"));
    ("naiad",    ("Flow systems normal", "Flow restriction detected"));
    ("vulcan",   ("Mechanical systems normal", "Mechanical fault detected"));
    ("zephyrus", ("Airflow normal", "Airflow issue detected"));
    ("colossus", ("No pattern anomalies", "Pattern anomaly detected"));
    ("gaia",     ("Safety parameters normal", "Safety concern detected")) ].

(** The write [d[k] = value k] *)
Definition write_with {V : Type} (value : string -> V) (d : Dict.t V)
  (k : string) : Dict.t V :=
  Dict.set d k (value k).

(** The scenarios of the specification: six models at 0.9 and two at 0.1;
    every model at 0.2; one model raising and seven at 0.6 *)
Definition scenario_a_runtime : Runtime :=
  mkRuntime
    (fun model_name _ =>
       if String.eqb model_name "apollo" || String.eqb model_name "gaia"
       then Some [1#10] else Some [9#10])
    (fun _ => 1%Q) 1%Q (fun _ => 0%nat).

Definition scenario_c_runtime : Runtime :=
  mkRuntime (fun _ _ => Some [2#10]) (fun _ => 1%Q) 1%Q (fun _ => 0%nat).

Definition scenario_d_runtime : Runtime :=
  mkRuntime
    (fun model_name _ =>
       if String.eqb model_name "naiad" then None else Some [6#10])
    (fun _ => 1%Q) 1%Q (fun n => (n + 5)%nat).

(** A model file is present and its HEF configures without raising *)
Definition hef_loads (pf : Platform) (model_path : string) : bool :=
  path_exists pf model_path
  && match configure_hef pf model_path with None => true | Some _ => false end.

(** * Further functions of the module *)

(** ** [get_device_status] *)

(** [{'online': True, 'device': ..., 'temperature': ..., 'power': None,
    'utilization': None}] or [{'online': False}] *)
Inductive DeviceStatus :=
| StatusOnline (device_name : string) (temperature : option Q)
| StatusOffline.

(** What [self.target] offers for the chip temperature: no such attribute,
    a call that raises, or a reading *)
Inductive ChipProbe :=
| NoProbe
| ProbeRaises
| ProbeReturns (reading : Q).

(** An exception while the dictionary is built is swallowed by the bare
    [except] and the function falls through to [{'online': False}]. *)
Definition get_device_status (self : HailoHVACDiagnostics) (probe : ChipProbe)
  : DeviceStatus :=
  if target self then
    match probe with
    | NoProbe => StatusOnline "Hailo-8" None
    | ProbeReturns reading => StatusOnline "Hailo-8" (Some reading)
    | ProbeRaises => StatusOffline
    end
  else StatusOffline.

(** ** The entries listed by the [models] command of [main] *)

(** [{'loaded': False, 'path': ..., 'size': ...}]; the size is [None] for
    a missing file *)
Record ModelListing := mkListing {
  listing_loaded : bool;
  listing_path : string;
  listing_size : option Q
}.

(** ** The utilisation estimate of the [status] command *)

(** The floating point operations of the estimate.  Their results are
    rounded, so they are arguments of the model rather than the exact
    operations on rationals. *)
Record FloatOps := mkFloatOps {
  (** [x / y] *)
  fdiv : Q -> Q -> Q;
  (** [x * y] *)
  fmul : Q -> Q -> Q;
  (** [round(x, 1)] *)
  fround1 : Q -> Q
}.

(** [int(x)]: truncation towards zero *)
Definition int_of (x : Q) : Z := Z.quot (Qnum x) (Zpos (Qden x)).

(** [if power:] holds for a reading other than [None] and [0.0] *)
Definition power_truthy (power : option Q) : bool :=
  match power with
  | Some p => negb (Qeq_bool p 0)
  | None => false
  end.

(** [max(a, b)] on floats *)
Definition fmax (a b : Q) : Q := if Qltb a b then b else a.

(** The block that computes [utilization] and [tops_used].  [pgrep] is the
    outcome of the process check: [None] when [subprocess.run] raises,
    which the bare [except] swallows, otherwise whether the output is
    non-empty. *)
Definition estimate_utilization (fl : FloatOps) (power : option Q)
  (pgrep : option bool) : Z * Q :=
  let '(utilization, tops_used) :=
    match power with
    | Some p =>
        if power_truthy power then
          let max_power := 5#2 in
          let utilization := Z.min 100 (int_of (fmul fl (fdiv fl p max_power) 100)) in
          let max_tops := 26 in
          let tops_used :=
            fround1 fl (fmul fl (fdiv fl (inject_Z utilization) 100) max_tops) in
          (utilization, tops_used)
        else (0%Z, 0%Q)
    | None => (0%Z, 0%Q)
    end in
  match pgrep with
  | Some true => (Z.max utilization 15, fmax tops_used (39#10))
  | Some false => (utilization, tops_used)
  | None => (utilization, tops_used)
  end.

(** * Further vocabulary *)

(** The keys read by [prepare_sensor_data] with their defaults, in the
    order of the features *)
Definition SENSOR_DEFAULTS : list (string * Q) :=
  [ ("supply_air_temp", 20); ("return_air_temp", 22);
    ("outside_air_temp", 25); ("mixed_air_temp", 21);
    ("supply_air_pressure", 3#2); ("return_air_pressure", 6#5);
    ("filter_pressure_drop", 3#10);
    ("supply_air_flow", 1000); ("return_air_flow", 950);
    ("compressor_current", 15); ("fan_motor_current", 5);
    ("power_consumption", 3500);
    ("supply_air_humidity", 45); ("return_air_humidity", 50);
    ("setpoint_temp", 22); ("damper_position", 50); ("valve_position", 30);
    ("compressor_status", 0); ("fan_status", 1) ]%Q.

(** The entry of [self.models] that the loading loop writes for a file *)
Definition load_info (pf : Platform) (model_path : string) : ModelInfo :=
  if path_exists pf model_path then
    match configure_hef pf model_path with
    | None => mkInfo true None model_path (Some (round2 (size_mb pf model_path)))
    | Some e => mkInfo false (Some e) model_path None
    end
  else mkInfo false (Some "File not found") model_path None.

(** A result without its timing fields *)
Definition strip_timing (r : ModelResult) : ModelResult :=
  mkResult (fault_detected r) (confidence r) (diagnosis r) None None (error r).

(** The ratio of fault votes among the results that carry a confidence *)
Definition consensus_of (results : Dict.t ModelResult) : Q :=
  (inject_Z (Z.of_nat (fault_count results))
   / inject_Z (Z.of_nat (success_count results)))%Q.

(** A runtime with another backend and the same clock and scheduler *)
Definition with_infer (rt : Runtime)
  (infer' : string -> list Q -> option (list Q)) : Runtime :=
  mkRuntime infer' (thread_elapsed_ms rt) (total_elapsed_ms rt) (next_writer rt).

(** The mode that [main] passes on: the fourth argument when there is one *)
Definition requested_mode (rest : list string) : string :=
  match rest with
  | [] => "simultaneous"
  | m :: _ => m
  end.

(** The three verdicts below the highest tier *)
Definition plain_verdicts : list string :=
  [ "Unable to complete diagnosis";
    "Potential issue detected - monitoring recommended";
    "System operating normally" ].

(** A platform on which two model files are missing and one fails to
    configure *)
Definition partial_platform : Platform :=
  mkPlatform true
    (fun model_path =>
       negb (String.eqb model_path
               "/home/Automata/mydata/apollo-nexus/models/naiad_simple.hef"
             || String.eqb model_path
                  "/home/Automata/mydata/apollo-nexus/models/gaia_simple.hef"))
    (fun model_path =>
       if String.eqb model_path
            "/home/Automata/mydata/apollo-nexus/models/vulcan_simple.hef"
       then Some "HEF configure failed" else None)
    (fun _ => 7#2).

(** Exact arithmetic as an instance of the floating point operations *)
Definition exact_ops : FloatOps := mkFloatOps Qdiv Qmult (fun x => x).

(** Two payloads that differ in a key the builder does not read *)
Definition sample_sensor_data : Dict.t Q :=
  [ ("supply_air_temp", 18%Q); ("fan_status", 0%Q) ].

Definition sample_sensor_data_tagged : Dict.t Q :=
  [ ("vendor_tag", 7%Q); ("supply_air_temp", 18%Q); ("fan_status", 0%Q);
    ("firmware", 3%Q) ].

(** What the estimate needs from the floating point operations: rounding
    keeps the sign of a quotient and of a product, does not push a
    quotient of [a <= b] above 1 nor a product with a factor up to 1 above
    the other factor, and [round(x, 1)] stays between 0 and 26 on that
    range. *)
Definition sound_rounding (fl : FloatOps) : Prop :=
  (forall a b, (0 <= a)%Q -> (0 < b)%Q -> (0 <= fdiv fl a b)%Q)
  /\ (forall a b, (a <= b)%Q -> (0 < b)%Q -> (fdiv fl a b <= 1)%Q)
  /\ (forall a c, (0 <= a)%Q -> (0 <= c)%Q -> (0 <= fmul fl a c)%Q)
  /\ (forall a c, (a <= 1)%Q -> (0 <= c)%Q -> (fmul fl a c <= c)%Q)
  /\ (forall x, (0 <= x)%Q -> (0 <= fround1 fl x)%Q)
  /\ (forall x, (x <= 26)%Q -> (fround1 fl x <= 26)%Q).

(** The registry of the partial platform, and a backend that differs from
    the sample one on a model that is not loaded there *)
Definition partial_diagnostics : HailoHVACDiagnostics :=
  snd (initialize partial_platform new_diagnostics).

Definition sample_infer_other (model_name : string) (input_data : list Q)
  : option (list Q) :=
  if String.eqb model_name "vulcan" then Some [1%Q]
  else infer sample_runtime model_name input_data.

(** A mapping that is not made of model results: the only entry flags a
    fault and has no diagnosis *)
Definition malformed_results : Dict.t ModelResult :=
  [ ("apollo", mkResult (Some true) (Some (9#10)) None None None None) ].

(** * The words of the consensus contract *)

(** The definitions of this section follow the specification of the
    Consensus Aggregator, not the code: they read the fields of the result
    records directly. *)

(** A result that carries a confidence value *)
Definition spec_is_valid (kv : string * ModelResult) : bool :=
  match confidence (snd kv) with Some _ => true | None => false end.

(** A result whose [fault_detected] field is true *)
Definition spec_is_fault (kv : string * ModelResult) : bool :=
  match fault_detected (snd kv) with Some true => true | _ => false end.

Definition spec_valid_count (results : Dict.t ModelResult) : nat :=
  length (filter spec_is_valid results).

Definition spec_fault_votes (results : Dict.t ModelResult) : nat :=
  length (filter (fun kv => spec_is_valid kv && spec_is_fault kv) results).

(** (count of valid results with [fault_detected = true]) / (count of
    valid results) *)
Definition spec_consensus (results : Dict.t ModelResult) : Q :=
  (inject_Z (Z.of_nat (spec_fault_votes results))
   / inject_Z (Z.of_nat (spec_valid_count results)))%Q.

(** [best], of confidence [c], is the fault-flagged result with the maximum
    confidence, the first encountered among equals: every fault-flagged
    result before it has a smaller confidence and none after it a larger
    one. *)
Definition spec_primary_fault (results : Dict.t ModelResult)
  (best : string * ModelResult) (c : Q) : Prop :=
  exists l1 l2,
    (results = l1 ++ best :: l2)%list
    /\ fault_detected (snd best) = Some true
    /\ confidence (snd best) = Some c
    /\ (forall kv c', In kv l1 -> fault_detected (snd kv) = Some true ->
                      confidence (snd kv) = Some c' -> (c' < c)%Q)
    /\ (forall kv c', In kv l2 -> fault_detected (snd kv) = Some true ->
                      confidence (snd kv) = Some c' -> (c' <= c)%Q).

(** * The program with the exceptions of its collaborators *)

(** The definitions above take the collaborators at their contract: the
    backend returns a vector of scalars or fails, the file system answers,
    the payload is a mapping of numbers.  The definitions below follow the
    same source lines for collaborators that do not: an array on which
    [len(output)] or [float(output[0])] raises, [Path.exists()] and
    [path.stat()] that raise, a payload that is not a mapping or whose
    readings [prepare_sensor_data] cannot convert.  On collaborators that
    honour the contract the two coincide. *)

(** The result of a call: a value, or an exception with its text
    [str(e)] *)
Inductive Outcome (A : Type) : Type :=
| Returned (value : A)
| Raised (message : string).
Arguments Returned {A} value.
Arguments Raised {A} message.

(** ** The feature vector as an array of [float32] *)

(** The numbers of a payload and of the array, with the conversions that
    [prepare_sensor_data] applies: a literal of the source, [float(x)],
    and the conversion of one element by [np.array(..., dtype=np.float32)].
    The two conversions raise on a reading that is not a number. *)
Record Numeric (R F : Type) := mkNumeric {
  literal : Q -> R;
  to_float : R -> Outcome R;
  as_float32 : R -> Outcome F
}.
Arguments mkNumeric {R F} _ _ _.
Arguments literal {R F} _ _.
Arguments to_float {R F} _ _.
Arguments as_float32 {R F} _ _.

(** [sensor_data.get(k, default)] *)
Definition reading {R : Type} (sensor_data : Dict.t R) (k : string)
  (default : R) : R :=
  match Dict.get sensor_data k with Some v => v | None => default end.

(** The conversion of the elements, in order *)
Fixpoint cast_all {R F : Type} (cast : R -> Outcome F) (l : list R)
  : Outcome (list F) :=
  match l with
  | [] => Returned []
  | x :: l' =>
      match cast x with
      | Raised message => Raised message
      | Returned y =>
          match cast_all cast l' with
          | Returned ys => Returned (y :: ys)
          | Raised message => Raised message
          end
      end
  end.

Definition prepare_sensor_data_f32 {R F : Type} (num : Numeric R F)
  (sensor_data : Dict.t R) : Outcome (list F) :=
  let get k (default : Q) := reading sensor_data k (literal num default) in
  match to_float num (get "compressor_status" 0%Q) with
  | Raised message => Raised message
  | Returned compressor_status =>
      match to_float num (get "fan_status" 1%Q) with
      | Raised message => Raised message
      | Returned fan_status =>
          let features :=
            [ get "supply_air_temp" 20;
              get "return_air_temp" 22;
              get "outside_air_temp" 25;
              get "mixed_air_temp" 21;
              get "supply_air_pressure" (3#2);
              get "return_air_pressure" (6#5);
              get "filter_pressure_drop" (3#10);
              get "supply_air_flow" 1000;
              get "return_air_flow" 950;
              get "compressor_current" 15;
              get "fan_motor_current" 5;
              get "power_consumption" 3500;
              get "supply_air_humidity" 45;
              get "return_air_humidity" 50;
              get "setpoint_temp" 22;
              get "damper_position" 50;
              get "valve_position" 30;
              compressor_status;
              fan_status ]%Q in
          cast_all (as_float32 num)
            (features ++ repeat (literal num 0%Q) (32 - length features))
      end
  end.

(** Exact numbers, on which no conversion changes a value, and numbers
    kept to two decimals by the conversion to the array *)
Definition exact_numeric : Numeric Q Q :=
  mkNumeric (fun q => q) Returned Returned.

Definition coarse_numeric : Numeric Q Q :=
  mkNumeric (fun q => q) Returned (fun q => Returned (round2 q)).

(** ** Inference *)

(** What the executor evaluates on the array returned by [run_inference]:
    [len(output)], which raises on an array without dimensions, and
    [float(output[0])], which raises when the first element is not a
    single number. *)
Inductive BackendArray :=
| Unsized (message : string)
| Sized (len : nat) (first : Outcome Q).

(** [F] is the type of the elements of the input array. *)
Record Backend (F : Type) := mkBackend {
  (** the vstream pipeline of one network group on one input: [None] when
      anything in the [try] block of [run_inference] raises *)
  call : string -> list F -> option BackendArray;
  (** the clock readings and the scheduler, as in [Runtime] *)
  thread_ms : string -> Q;
  total_ms : Q;
  schedule : nat -> nat
}.
Arguments mkBackend {F} _ _ _ _.
Arguments call {F} _ _ _.
Arguments thread_ms {F} _ _.
Arguments total_ms {F} _.
Arguments schedule {F} _ _.

Definition run_inference_exn {F : Type} (bk : Backend F)
  (self : HailoHVACDiagnostics)
  (model_name : string) (input_data : list F) : option BackendArray :=
  if negb (Dict.mem (network_groups self) model_name) then None
  else call bk model_name input_data.

(** [float(output[0]) if len(output) > 0 else 0.0] *)
Definition fault_prob_exn (output : BackendArray) : Outcome Q :=
  match output with
  | Unsized message => Raised message
  | Sized O _ => Returned 0%Q
  | Sized (S _) first => first
  end.

(** The thread function [run_model].  An exception under the lock ends
    the thread: the [with] statement releases the lock and nothing is
    written for the model. *)
Definition run_model_exn {F : Type} (bk : Backend F)
  (self : HailoHVACDiagnostics)
  (input_data : list F) (results : Dict.t ModelResult) (model_name : string)
  : Dict.t ModelResult :=
  if is_loaded self model_name then
    let output := run_inference_exn bk self model_name input_data in
    let inference_time := thread_ms bk model_name in
    match output with
    | Some output =>
        match fault_prob_exn output with
        | Returned fault_prob =>
            Dict.set results model_name
              (mkResult (Some (Qgtb fault_prob (1#2)))
                        (Some fault_prob)
                        (Some (interpret_diagnosis model_name fault_prob))
                        (Some (round2 inference_time))
                        None None)
        | Raised _ => results
        end
    | None => Dict.set results model_name (error_result "Inference failed")
    end
  else Dict.set results model_name (error_result "Model not loaded").

Definition run_simultaneous_inference_exn {F : Type} (bk : Backend F)
  (self : HailoHVACDiagnostics) (input_data : list F) : Dict.t ModelResult :=
  let threads := Dict.keys MODEL_PATHS in
  let results :=
    join_all (run_model_exn bk self input_data) (schedule bk)
             (length threads) threads Dict.empty in
  add_total_time (total_ms bk) results.

(** The body of the sequential loop of [diagnose]; an exception leaves
    the loop and the function. *)
Definition run_sequential_step_exn {F : Type} (bk : Backend F)
  (self : HailoHVACDiagnostics)
  (input_data : list F) (results : Dict.t ModelResult) (model_name : string)
  : Outcome (Dict.t ModelResult) :=
  if is_loaded self model_name then
    match run_inference_exn bk self model_name input_data with
    | Some output =>
        match fault_prob_exn output with
        | Returned fault_prob =>
            Returned
              (Dict.set results model_name
                 (mkResult (Some (Qgtb fault_prob (1#2)))
                           (Some fault_prob)
                           (Some (interpret_diagnosis model_name fault_prob))
                           None None None))
        | Raised message => Raised message
        end
    | None =>
        Returned (Dict.set results model_name (error_result "Inference failed"))
    end
  else Returned (Dict.set results model_name (error_result "Model not loaded")).

Fixpoint run_sequential_loop_exn {F : Type} (bk : Backend F)
  (self : HailoHVACDiagnostics)
  (input_data : list F) (model_names : list string)
  (results : Dict.t ModelResult) : Outcome (Dict.t ModelResult) :=
  match model_names with
  | [] => Returned results
  | model_name :: rest =>
      match run_sequential_step_exn bk self input_data results model_name with
      | Returned results' =>
          run_sequential_loop_exn bk self input_data rest results'
      | Raised message => Raised message
      end
  end.

(** What [json.loads] hands to [diagnose]: a mapping from keys to
    readings of some kind [R], or a value that is no mapping (a list, a
    number, a string), on which [sensor_data.get] raises. *)
Inductive Payload (R : Type) :=
| Mapping (sensor_data : Dict.t R)
| NotMapping (message : string).
Arguments Mapping {R} sensor_data.
Arguments NotMapping {R} message.

Definition prepare_sensor_data_exn {R F : Type} (num : Numeric R F)
  (payload : Payload R) : Outcome (list F) :=
  match payload with
  | Mapping sensor_data => prepare_sensor_data_f32 num sensor_data
  | NotMapping message => Raised message
  end.

Definition diagnose_exn {R F : Type} (num : Numeric R F) (bk : Backend F)
  (self : HailoHVACDiagnostics) (payload : Payload R) (mode : option string)
  : Outcome Report :=
  let mode := match mode with Some m => m | None => "sequential" end in
  match prepare_sensor_data_exn num payload with
  | Raised message => Raised message
  | Returned input_data =>
      let results :=
        if String.eqb mode "simultaneous"
        then Returned (run_simultaneous_inference_exn bk self input_data)
        else run_sequential_loop_exn bk self input_data
               (Dict.keys MODEL_PATHS) Dict.empty in
      match results with
      | Raised message => Raised message
      | Returned results =>
          match aggregate_diagnoses results with
          | Some final_diagnosis =>
              Returned (mkReport results final_diagnosis mode)
          | None => Raised "'diagnosis'"
          end
      end
  end.

(** ** Initialisation *)

Record Host := mkHost {
  (** [VDevice(params)] returns a device *)
  host_device : bool;
  (** [Path(model_path).exists()], which re-raises an [OSError] such as
      [PermissionError] *)
  host_exists : string -> Outcome bool;
  (** creating and configuring the HEF, as [configure_hef] *)
  host_configure : string -> option string;
  (** [path.stat().st_size / (1024 * 1024)] *)
  host_size_mb : string -> Outcome Q
}.

(** The loading loop of [initialize].  [exists()] is outside the inner
    [try]: when it raises, the outer handler returns [False] and the rest
    of the loop is skipped.  [stat()] is inside it, after the network
    group has been stored. *)
Fixpoint load_models_exn (host : Host) (items : list (string * string))
  (self : HailoHVACDiagnostics) : bool * HailoHVACDiagnostics :=
  match items with
  | [] => (true, self)
  | (model_name, model_path) :: rest =>
      match host_exists host model_path with
      | Raised _ => (false, self)
      | Returned false =>
          load_models_exn host rest
            (mkDiag (target self)
               (Dict.set (models self) model_name
                  (mkInfo false (Some "File not found") model_path None))
               (network_groups self))
      | Returned true =>
          match host_configure host model_path with
          | Some e =>
              load_models_exn host rest
                (mkDiag (target self)
                   (Dict.set (models self) model_name
                      (mkInfo false (Some e) model_path None))
                   (network_groups self))
          | None =>
              match host_size_mb host model_path with
              | Returned size_mb =>
                  load_models_exn host rest
                    (mkDiag (target self)
                       (Dict.set (models self) model_name
                          (mkInfo true None model_path (Some (round2 size_mb))))
                       (Dict.set (network_groups self) model_name model_path))
              | Raised e =>
                  load_models_exn host rest
                    (mkDiag (target self)
                       (Dict.set (models self) model_name
                          (mkInfo false (Some e) model_path None))
                       (Dict.set (network_groups self) model_name model_path))
              end
          end
      end
  end.

Definition initialize_exn (host : Host) (self : HailoHVACDiagnostics)
  : bool * HailoHVACDiagnostics :=
  if host_device host then
    load_models_exn host (Dict.items MODEL_PATHS)
      (mkDiag true (models self) (network_groups self))
  else (false, self).

(** ** The [models] command *)

(** The loop of the [models] command; it has no handler, an exception of
    [exists()] or [stat()] ends the program. *)
Fixpoint list_models_exn (host : Host) (items : list (string * string))
  (listing : Dict.t ModelListing) : Outcome (Dict.t ModelListing) :=
  match items with
  | [] => Returned listing
  | (name, model_path) :: rest =>
      match host_exists host model_path with
      | Raised message => Raised message
      | Returned true =>
          match host_size_mb host model_path with
          | Raised message => Raised message
          | Returned size_mb =>
              list_models_exn host rest
                (Dict.set listing name
                   (mkListing false model_path (Some (round2 size_mb))))
          end
      | Returned false =>
          list_models_exn host rest
            (Dict.set listing name (mkListing false model_path None))
      end
  end.

Definition models_command_exn (host : Host) : Outcome (Dict.t ModelListing) :=
  list_models_exn host (Dict.items MODEL_PATHS) Dict.empty.

(** ** [main] *)

(** [json.loads(sys.argv[2])]: a [JSONDecodeError], another exception, or
    a value *)
Inductive JsonLoads (R : Type) :=
| DecodeError
| LoadsRaises (message : string)
| Loaded (payload : Payload R).
Arguments DecodeError {R}.
Arguments LoadsRaises {R} message.
Arguments Loaded {R} payload.

(** How the program ends: with something printed on standard output (for
    the [models] command, the listing), or with the traceback of an
    exception that nothing handles. *)
Inductive Termination :=
| Prints (output : Output)
| PrintsListing (listing : Dict.t ModelListing)
| Traceback (message : string).

Definition main_exn {R F : Type} (num : Numeric R F) (host : Host)
  (bk : Backend F) (json_loads : string -> JsonLoads R) (argv : list string)
  : Termination :=
  match argv with
  | [] | [_] => Prints (PrintError "No command specified")
  | _ :: command :: args =>
      if String.eqb command "status" then Prints PrintStatus
      else if String.eqb command "models" then
        match models_command_exn host with
        | Returned listing => PrintsListing listing
        | Raised message => Traceback message
        end
      else if String.eqb command "diagnose" then
        match args with
        | [] => Prints (PrintError "No sensor data provided")
        | payload :: rest =>
            match json_loads payload with
            | DecodeError => Prints (PrintError "Invalid JSON sensor data")
            | LoadsRaises message => Prints (PrintError message)
            | Loaded sensor_data =>
                let mode :=
                  match rest with
                  | [] => "simultaneous"
                  | m :: _ => m
                  end in
                let '(ok, diag) := initialize_exn host new_diagnostics in
                if ok then
                  match diagnose_exn num bk diag sensor_data (Some mode) with
                  | Returned result => Prints (PrintReport result)
                  | Raised message => Prints (PrintError message)
                  end
                else Prints (PrintError "Failed to initialize Hailo device")
            end
        end
      else Prints (PrintError ("Unknown command: " ++ command))
  end.

(** ** Vocabulary *)

(** The entry that the loop body or the thread computes for a model, or
    the exception raised on the way; [timed] selects the thread. *)
Definition entry_exn {F : Type} (bk : Backend F) (self : HailoHVACDiagnostics)
  (input_data : list F) (timed : bool) (model_name : string)
  : Outcome ModelResult :=
  if is_loaded self model_name then
    match run_inference_exn bk self model_name input_data with
    | Some output =>
        match fault_prob_exn output with
        | Returned fault_prob =>
            Returned
              (mkResult (Some (Qgtb fault_prob (1#2)))
                        (Some fault_prob)
                        (Some (interpret_diagnosis model_name fault_prob))
                        (if timed then Some (round2 (thread_ms bk model_name))
                         else None)
                        None None)
        | Raised message => Raised message
        end
    | None => Returned (error_result "Inference failed")
    end
  else Returned (error_result "Model not loaded").

(** The entries of the names on which [f] returns, in the order of
    [names]; the write of one thread; the text of the first exception *)
Fixpoint tabulate_returned {V : Type} (f : string -> Outcome V)
  (names : list string) : Dict.t V :=
  match names with
  | [] => []
  | name :: rest =>
      match f name with
      | Returned v => (name, v) :: tabulate_returned f rest
      | Raised _ => tabulate_returned f rest
      end
  end.

Definition write_returned {V : Type} (f : string -> Outcome V)
  (d : Dict.t V) (k : string) : Dict.t V :=
  match f k with
  | Returned v => Dict.set d k v
  | Raised _ => d
  end.

Fixpoint first_raised {V : Type} (f : string -> Outcome V)
  (names : list string) : option string :=
  match names with
  | [] => None
  | name :: rest =>
      match f name with
      | Returned _ => first_raised f rest
      | Raised message => Some message
      end
  end.

Definition outcome_map {A B : Type} (f : A -> B) (o : Outcome A) : Outcome B :=
  match o with
  | Returned a => Returned (f a)
  | Raised message => Raised message
  end.

(** An array on which [len(output)] answers and, when it is positive,
    [float(output[0])] does *)
Definition convertible (output : BackendArray) : bool :=
  match output with
  | Sized O _ => true
  | Sized (S _) (Returned _) => true
  | _ => false
  end.

(** The backend call of a loaded model with a network group returns
    nothing else than a convertible array. *)
Definition converts {F : Type} (bk : Backend F) (self : HailoHVACDiagnostics)
  (input_data : list F) (model_name : string) : Prop :=
  forall info output,
    Dict.get (models self) model_name = Some info ->
    loaded info = true ->
    Dict.mem (network_groups self) model_name = true ->
    call bk model_name input_data = Some output ->
    convertible output = true.

(** The success record of a model for a fault probability, with or
    without timing fields *)
Definition success_record (model_name : string) (fault_prob : Q)
  (r : ModelResult) : Prop :=
  fault_detected r = Some (Qgtb fault_prob (1#2))
  /\ confidence r = Some fault_prob
  /\ diagnosis r = Some (interpret_diagnosis model_name fault_prob)
  /\ error r = None.

(** A vector as the array the executor sees, and a contract-honouring
    backend, platform and parser as collaborators of the definitions of
    this part *)
Definition array_of (output : list Q) : BackendArray :=
  Sized (length output)
        (match output with x :: _ => Returned x | [] => Returned 0%Q end).

Definition backend_of (rt : Runtime) : Backend Q :=
  mkBackend (fun model_name input_data =>
               option_map array_of (infer rt model_name input_data))
            (thread_elapsed_ms rt) (total_elapsed_ms rt) (next_writer rt).

Definition host_of (pf : Platform) : Host :=
  mkHost (vdevice_available pf)
         (fun model_path => Returned (path_exists pf model_path))
         (configure_hef pf)
         (fun model_path => Returned (size_mb pf model_path)).

Definition loads_of (json_loads : string -> option (Dict.t Q))
  (payload : string) : JsonLoads Q :=
  match json_loads payload with
  | Some sensor_data => Loaded (Mapping sensor_data)
  | None => DecodeError
  end.



Definition outcome_of_option {A : Type} (message : string) (o : option A)
  : Outcome A :=
  match o with
  | Some a => Returned a
  | None => Raised message
  end.

(** The entry of [self.models] written for a file, whether the file gets
    a network group, and whether [exists()] answers for it *)
Definition load_info_exn (host : Host) (model_path : string) : ModelInfo :=
  match host_exists host model_path with
  | Returned true =>
      match host_configure host model_path with
      | Some e => mkInfo false (Some e) model_path None
      | None =>
          match host_size_mb host model_path with
          | Returned size_mb =>
              mkInfo true None model_path (Some (round2 size_mb))
          | Raised e => mkInfo false (Some e) model_path None
          end
      end
  | _ => mkInfo false (Some "File not found") model_path None
  end.

Definition configured_exn (host : Host) (model_path : string) : bool :=
  match host_exists host model_path with
  | Returned true =>
      match host_configure host model_path with
      | None => true
      | Some _ => false
      end
  | _ => false
  end.

Definition exists_answers (host : Host) (model_path : string) : bool :=
  match host_exists host model_path with
  | Returned _ => true
  | Raised _ => false
  end.

(** The models that the loading loop reaches: those before the first one
    for which [exists()] raises *)
Fixpoint visited (host : Host) (items : list (string * string))
  : list (string * string) :=
  match items with
  | [] => []
  | np :: rest =>
      if exists_answers host (snd np) then np :: visited host rest else []
  end.

(** The entry that the [models] command lists for a file, when neither
    [exists()] nor [stat()] raises for it *)
Definition listing_exn (host : Host) (model_path : string)
  : option ModelListing :=
  match host_exists host model_path with
  | Returned true =>
      match host_size_mb host model_path with
      | Returned size_mb =>
          Some (mkListing false model_path (Some (round2 size_mb)))
      | Raised _ => None
      end
  | Returned false => Some (mkListing false model_path None)
  | Raised _ => None
  end.

(** ** Sample collaborators *)

(** [apollo] returns an array without dimensions, [aquilo] an array whose
    first row holds two numbers, [gaia] fails, the others return 0.9 *)
Definition malformed_backend : Backend Q :=
  mkBackend
    (fun model_name _ =>
       if String.eqb model_name "apollo"
       then Some (Unsized "object of type 'numpy.float32' has no len()")
       else if String.eqb model_name "aquilo"
       then Some (Sized 1 (Raised "only length-1 arrays can be converted"))
       else if String.eqb model_name "gaia" then None
       else Some (Sized 1 (Returned (9#10))))
    (fun _ => 12345#1000) (100#3) (fun _ => 3%nat).

(** A backend whose arrays all convert: [apollo] returns an empty array,
    [gaia] fails, [vulcan] returns one number, 0.2, and the others a row
    of two whose first is 0.9 *)
Definition sized_backend : Backend Q :=
  mkBackend
    (fun model_name _ =>
       if String.eqb model_name "apollo"
       then Some (Sized 0 (Raised "index 0 is out of bounds"))
       else if String.eqb model_name "gaia" then None
       else if String.eqb model_name "vulcan"
       then Some (Sized 1 (Returned (2#10)))
       else Some (Sized 2 (Returned (9#10))))
    (fun _ => 12345#1000) (100#3) (fun _ => 3%nat).

(** A host on which [exists()] raises for the file of [naiad], the file of
    [aquilo] is missing and [stat()] raises for the file of [boreas] *)
Definition guarded_host : Host :=
  mkHost true
    (fun model_path =>
       if String.eqb model_path
            "/home/Automata/mydata/apollo-nexus/models/naiad_simple.hef"
       then Raised "[Errno 13] Permission denied"
       else if String.eqb model_path
                 "/home/Automata/mydata/apollo-nexus/models/aquilo_simple.hef"
       then Returned false
       else Returned true)
    (fun _ => None)
    (fun model_path =>
       if String.eqb model_path
            "/home/Automata/mydata/apollo-nexus/models/boreas_simple.hef"
       then Raised "[Errno 5] Input/output error"
       else Returned (7#2)).

(** A host on which every file is present and only [stat()] raises, for
    the file of [boreas] *)
Definition stat_host : Host :=
  mkHost true (fun _ => Returned true) (fun _ => None)
    (fun model_path =>
       if String.eqb model_path
            "/home/Automata/mydata/apollo-nexus/models/boreas_simple.hef"
       then Raised "[Errno 5] Input/output error"
       else Returned (7#2)).

(** A parser that reads ["{}"] as the empty mapping and ["[1, 2]"] as a
    list *)
Definition sample_loads (payload : string) : JsonLoads Q :=
  if String.eqb payload "{}" then Loaded (Mapping [])
  else if String.eqb payload "[1, 2]"
  then Loaded (NotMapping "'list' object has no attribute 'get'")
  else DecodeError.

(** Readings that are numbers or not ([None]), with conversions that
    raise on the latter, and a parser that reads a payload whose fan
    status is a text *)
Definition text_numeric : Numeric (option Q) Q :=
  mkNumeric Some
    (fun x => match x with
              | Some _ => Returned x
              | None => Raised "could not convert string to float: 'on'"
              end)
    (fun x => match x with
              | Some q => Returned q
              | None => Raised "could not convert string to float: 'on'"
              end).

Definition text_loads (payload : string) : JsonLoads (option Q) :=
  if String.eqb payload "{}" then Loaded (Mapping [])
  else if String.eqb payload "{fan_status: on}"
  then Loaded (Mapping [("fan_status", None)])
  else DecodeError.

(** * Properties *)

Open Scope list_scope.

(** ** Comparisons *)

Lemma Qltb_lt (a b : Q) : Qltb a b = true <-> (a < b)%Q.
Proof.
  unfold Qltb. rewrite negb_true_iff. split.
  - intros H. apply Qnot_le_lt. intros Hle.
    apply Qle_bool_iff in Hle. congruence.
  - intros H. destruct (Qle_bool b a) eqn:E; [|reflexivity].
    apply Qle_bool_iff in E. exfalso. exact (Qlt_not_le _ _ H E).
Qed.

Lemma Qltb_ge (a b : Q) : Qltb a b = false <-> (b <= a)%Q.
Proof.
  unfold Qltb. rewrite negb_false_iff. apply Qle_bool_iff.
Qed.

(** ** Dictionaries *)

Lemma get_set_same {V} (d : Dict.t V) k v : Dict.get (Dict.set d k v) k = Some v.
Proof.
  induction d as [|[k' v'] d IH]; simpl.
  - now rewrite String.eqb_refl.
  - destruct (String.eqb k' k) eqn:E; simpl.
    + now rewrite String.eqb_refl.
    + now rewrite E.
Qed.

Lemma get_set_other {V} (d : Dict.t V) k k' v :
  k <> k' -> Dict.get (Dict.set d k v) k' = Dict.get d k'.
Proof.
  intros Hne. induction d as [|[k0 v0] d IH]; simpl.
  - destruct (String.eqb_spec k k'); [contradiction|reflexivity].
  - destruct (String.eqb_spec k0 k) as [->|Hk]; simpl.
    + destruct (String.eqb_spec k k'); [contradiction|reflexivity].
    + now rewrite IH.
Qed.

Lemma keys_set_new {V} (d : Dict.t V) k v :
  ~ In k (Dict.keys d) -> Dict.set d k v = d ++ [(k, v)].
Proof.
  induction d as [|[k' v'] d IH]; simpl; intros Hn; [reflexivity|].
  destruct (String.eqb_spec k' k) as [->|Hk].
  - exfalso. apply Hn. now left.
  - f_equal. apply IH. intros Hin. apply Hn. now right.
Qed.

Lemma get_In {V} (d : Dict.t V) k v : Dict.get d k = Some v -> In (k, v) d.
Proof.
  induction d as [|[k' v'] d IH]; simpl; [discriminate|].
  destruct (String.eqb_spec k' k) as [->|Hk]; intros H.
  - injection H as ->. now left.
  - right. now apply IH.
Qed.

(** ** [max] with a key *)

Section MaxBy.
Context {A : Type} (key : A -> Q).

Lemma max_by_split (l pre mid : list A) (best : A) :
  Forall (fun x => (key x < key best)%Q) pre ->
  Forall (fun x => (key x <= key best)%Q) mid ->
  exists l1 l2,
    pre ++ best :: mid ++ l = l1 ++ max_by key best l :: l2
    /\ Forall (fun x => (key x < key (max_by key best l))%Q) l1
    /\ Forall (fun x => (key x <= key (max_by key best l))%Q) l2.
Proof.
  revert pre mid best.
  induction l as [|x l IH]; intros pre mid best Hpre Hmid; simpl.
  - exists pre, mid. rewrite app_nil_r. auto.
  - destruct (Qltb (key best) (key x)) eqn:E.
    + apply Qltb_lt in E.
      destruct (IH (pre ++ best :: mid) [] x) as (l1 & l2 & Heq & H1 & H2).
      * apply Forall_app. split.
        -- eapply Forall_impl; [|exact Hpre].
           intros a Ha. simpl in Ha. exact (Qlt_trans _ _ _ Ha E).
        -- constructor; [exact E|].
           eapply Forall_impl; [|exact Hmid].
           intros a Ha. simpl in Ha. exact (Qle_lt_trans _ _ _ Ha E).
      * constructor.
      * exists l1, l2. split; [|auto].
        rewrite <- Heq. simpl. now rewrite <- app_assoc.
    + apply Qltb_ge in E.
      destruct (IH pre (mid ++ [x]) best) as (l1 & l2 & Heq & H1 & H2).
      * exact Hpre.
      * apply Forall_app. split; [exact Hmid|]. constructor; [exact E|constructor].
      * exists l1, l2. split; [|auto].
        rewrite <- Heq. now rewrite <- app_assoc.
Qed.

Lemma max_by_first_max (best : A) (l : list A) :
  first_max key (best :: l) (max_by key best l).
Proof.
  destruct (max_by_split l [] [] best) as (l1 & l2 & Heq & H1 & H2);
    [constructor|constructor|].
  exists l1, l2. auto.
Qed.

Lemma first_max_In (l : list A) (best : A) : first_max key l best -> In best l.
Proof.
  intros (l1 & l2 & -> & _). apply in_or_app. right. now left.
Qed.
End MaxBy.

(** ** The consensus aggregator *)

Lemma consensus_bounds (k n : nat) :
  (k <= n)%nat -> (0 < n)%nat ->
  (0 <= inject_Z (Z.of_nat k) / inject_Z (Z.of_nat n)
   /\ inject_Z (Z.of_nat k) / inject_Z (Z.of_nat n) <= 1)%Q.
Proof.
  intros Hk Hn.
  assert (Hpos : (0 < inject_Z (Z.of_nat n))%Q).
  { change 0%Q with (inject_Z 0). rewrite <- Zlt_Qlt. lia. }
  split.
  - apply Qle_shift_div_l; [exact Hpos|].
    rewrite Qmult_0_l. change 0%Q with (inject_Z 0). rewrite <- Zle_Qle. lia.
  - apply Qle_shift_div_r; [exact Hpos|].
    rewrite Qmult_1_l. rewrite <- Zle_Qle. lia.
Qed.

Lemma filter_length_le {A} (f : A -> bool) (l : list A) :
  (length (filter f l) <= length l)%nat.
Proof.
  induction l as [|x l IH]; simpl; [lia|].
  destruct (f x); simpl; lia.
Qed.

Lemma fault_flagged_success (results : Dict.t ModelResult) kv :
  Forall (fun kv => is_model_result (snd kv) = true) results ->
  In kv (fault_flagged results) ->
  exists d, diagnosis (snd kv) = Some d.
Proof.
  intros Hwf Hin. unfold fault_flagged in Hin.
  apply filter_In in Hin. destruct Hin as [Hin Hf].
  rewrite Forall_forall in Hwf. specialize (Hwf kv Hin).
  unfold is_model_result, is_success, is_error in Hwf.
  unfold get_fault_detected in Hf.
  destruct (fault_detected (snd kv)); [|discriminate].
  destruct (confidence (snd kv)), (diagnosis (snd kv)) as [d|], (error (snd kv));
    simpl in Hwf; try discriminate.
  now exists d.
Qed.

(** The fallback of the highest tier is dead code: a consensus above 0.7
    needs a fault vote, and every vote is a fault-flagged entry. *)
Lemma fault_votes_flagged (results : Dict.t ModelResult) :
  fault_count results <> 0%nat -> fault_flagged results <> [].
Proof.
  unfold fault_count, fault_flagged, Dict.values.
  induction results as [|[k r] results IH]; simpl; [congruence|].
  destruct (get_fault_detected r) eqn:Ef; [discriminate|].
  destruct (has_confidence r); simpl; [rewrite Ef|]; exact IH.
Qed.

Lemma tier_gap (c : Q) : (7#10 < c)%Q -> (c <= 3#10)%Q -> False.
Proof.
  intros H1 H2. pose proof (Qlt_le_trans _ _ _ H1 H2) as H.
  unfold Qlt in H. simpl in H. lia.
Qed.

(** The aggregator never raises on model results. *)
Lemma aggregate_diagnoses_total (results : Dict.t ModelResult) :
  Forall (fun kv => is_model_result (snd kv) = true) results ->
  exists out, aggregate_diagnoses results = Some out.
Proof.
  intros Hwf. unfold aggregate_diagnoses.
  destruct (filter has_confidence (Dict.values results)); [eauto|].
  destruct (Qgtb _ (7#10)).
  - change (filter (fun kv => get_fault_detected (snd kv)) (Dict.items results))
      with (fault_flagged results).
    destruct (fault_flagged results) as [|f fs] eqn:Ef; [eauto|].
    destruct (fault_flagged_success results
                (max_by (fun x => get_confidence (snd x)) f fs) Hwf) as [d Hd].
    { rewrite Ef.
      exact (first_max_In _ _ _ (max_by_first_max entry_confidence f fs)). }
    rewrite Hd. eauto.
  - destruct (Qgtb _ (3#10)); eauto.
Qed.

(** ** The executor: which entries are written *)

Lemma fold_left_ext {A B} (f g : A -> B -> A) (l : list B) (a : A) :
  (forall x y, f x y = g x y) -> fold_left f l a = fold_left g l a.
Proof.
  intros H. revert a. induction l as [|y l IH]; intros a; simpl; [reflexivity|].
  rewrite H. apply IH.
Qed.

Section Writes.
Context {V : Type} (value : string -> V).

Lemma fold_write_fresh (names : list string) (init : Dict.t V) :
  NoDup names ->
  (forall k, In k names -> ~ In k (Dict.keys init)) ->
  fold_left (write_with value) names init = init ++ tabulate value names.
Proof.
  revert init. induction names as [|n names IH]; intros init Hnd Hfresh; simpl.
  - now rewrite app_nil_r.
  - inversion Hnd as [|? ? Hn Hnd']; subst.
    assert (Hset : write_with value init n = init ++ [(n, value n)]).
    { apply keys_set_new. apply Hfresh. now left. }
    rewrite IH; [|exact Hnd'|].
    + rewrite Hset. now rewrite <- app_assoc.
    + intros k Hk. rewrite Hset. unfold Dict.keys. rewrite map_app. simpl.
      intros Hin. apply in_app_or in Hin. destruct Hin as [Hin|[->|[]]].
      * apply (Hfresh k); [now right|exact Hin].
      * contradiction.
Qed.

End Writes.

Lemma run_sequential_step_set rt self input_data results model_name :
  run_sequential_step rt self input_data results model_name
  = Dict.set results model_name (sequential_entry rt self input_data model_name).
Proof.
  unfold run_sequential_step, sequential_entry.
  destruct (is_loaded self model_name); [|reflexivity].
  destruct (run_inference rt self model_name input_data); reflexivity.
Qed.

Lemma run_model_set rt self input_data results model_name :
  run_model rt self input_data results model_name
  = Dict.set results model_name (thread_entry rt self input_data model_name).
Proof.
  unfold run_model, thread_entry.
  destruct (is_loaded self model_name); [|reflexivity].
  destruct (run_inference rt self model_name input_data); reflexivity.
Qed.

Lemma sequential_entry_shape rt self input_data model_name :
  is_model_result (sequential_entry rt self input_data model_name) = true.
Proof.
  unfold sequential_entry.
  destruct (is_loaded self model_name); [|reflexivity].
  destruct (run_inference rt self model_name input_data); reflexivity.
Qed.

Lemma thread_entry_shape rt self input_data model_name :
  is_model_result (thread_entry rt self input_data model_name) = true.
Proof.
  unfold thread_entry.
  destruct (is_loaded self model_name); [|reflexivity].
  destruct (run_inference rt self model_name input_data); reflexivity.
Qed.

Lemma with_total_time_shape t r :
  is_model_result r = true -> is_model_result (with_total_time t r) = true.
Proof.
  unfold with_total_time. destruct r as [f c d i tt e]; simpl.
  destruct e; auto.
Qed.

Lemma model_names_NoDup : NoDup (Dict.keys MODEL_PATHS).
Proof.
  simpl.
  repeat (constructor;
          [intros H; simpl in H;
           repeat (destruct H as [H|H]; [discriminate|]); exact H|]).
  constructor.
Qed.

(** ** The scheduler *)

Lemma remove_at_perm {A} (l : list A) (i : nat) (d : A) :
  (i < length l)%nat -> Permutation (nth i l d :: remove_at i l) l.
Proof.
  revert i. induction l as [|x l IH]; intros i Hi; simpl in Hi; [lia|].
  destruct i as [|i]; simpl.
  - reflexivity.
  - rewrite perm_swap. apply perm_skip. apply IH. lia.
Qed.

Lemma remove_at_length {A} (l : list A) (i : nat) :
  (i < length l)%nat -> S (length (remove_at i l)) = length l.
Proof.
  revert i. induction l as [|x l IH]; intros i Hi; simpl in Hi; [lia|].
  destruct i as [|i]; simpl; [reflexivity|].
  rewrite IH; [reflexivity|lia].
Qed.

(** Whatever the scheduler does, every started thread writes once. *)
Lemma write_order_perm (next : nat -> nat) (fuel : nat) (pending : list string) :
  (length pending <= fuel)%nat ->
  Permutation (write_order next fuel pending) pending.
Proof.
  revert pending. induction fuel as [|fuel IH]; intros pending Hlen.
  - destruct pending; [constructor|simpl in Hlen; lia].
  - destruct pending as [|t0 pending']; [constructor|].
    cbn [write_order].
    set (p := t0 :: pending') in *.
    assert (Hi : (next (length p) mod length p < length p)%nat).
    { apply Nat.mod_upper_bound. subst p. simpl. lia. }
    apply perm_trans with (2 := remove_at_perm p _ t0 Hi).
    apply perm_skip. apply IH.
    pose proof (remove_at_length p _ Hi). lia.
Qed.

Lemma join_all_fold write next fuel pending results :
  join_all write next fuel pending results
  = fold_left write (write_order next fuel pending) results.
Proof.
  revert pending results.
  induction fuel as [|fuel IH]; intros pending results; [reflexivity|].
  destruct pending as [|t0 pending']; [reflexivity|].
  cbn [join_all write_order fold_left]. apply IH.
Qed.

(** ** Tabulated dictionaries *)


Lemma get_tabulate {V} (f : string -> V) names k :
  Dict.get (tabulate f names) k
  = if in_dec string_dec k names then Some (f k) else None.
Proof.
  induction names as [|n names IH]; simpl; [reflexivity|].
  destruct (String.eqb_spec n k) as [->|Hne].
  - destruct (string_dec k k); [reflexivity|contradiction].
  - rewrite IH. destruct (string_dec n k); [contradiction|].
    destruct (in_dec string_dec k names); reflexivity.
Qed.

Lemma Forall_tabulate {V} (f : string -> V) names (P : V -> Prop) :
  (forall k, P (f k)) -> Forall (fun kv => P (snd kv)) (tabulate f names).
Proof.
  intros H. unfold tabulate. apply Forall_forall. intros kv Hin.
  apply in_map_iff in Hin. destruct Hin as (n & <- & _). apply H.
Qed.

Lemma add_total_time_tabulate t (f : string -> ModelResult) names :
  add_total_time t (tabulate f names)
  = tabulate (fun k => with_total_time t (f k)) names.
Proof.
  unfold add_total_time, tabulate, with_total_time. rewrite map_map.
  apply map_ext. intros k. simpl. destruct (error (f k)); reflexivity.
Qed.

(** ** The result mapping of each mode *)

(** Sequential mode writes the entries in registry order. *)
Lemma run_sequential_inference_tabulate rt self input_data :
  run_sequential_inference rt self input_data
  = tabulate (sequential_entry rt self input_data) (Dict.keys MODEL_PATHS).
Proof.
  unfold run_sequential_inference.
  rewrite (fold_left_ext _ (write_with (sequential_entry rt self input_data)))
    by apply run_sequential_step_set.
  rewrite fold_write_fresh; [reflexivity|apply model_names_NoDup|].
  intros k _ [].
Qed.

(** Simultaneous mode writes the entries in the order of the scheduler,
    and the timing loop then visits each of them. *)
Lemma run_simultaneous_inference_tabulate rt self input_data :
  run_simultaneous_inference rt self input_data
  = tabulate (fun k => with_total_time (total_elapsed_ms rt)
                         (thread_entry rt self input_data k))
      (write_order (next_writer rt) (length (Dict.keys MODEL_PATHS))
                   (Dict.keys MODEL_PATHS)).
Proof.
  unfold run_simultaneous_inference.
  rewrite join_all_fold.
  rewrite (fold_left_ext _ (write_with (thread_entry rt self input_data)))
    by apply run_model_set.
  rewrite fold_write_fresh.
  - apply add_total_time_tabulate.
  - eapply Permutation_NoDup; [|apply model_names_NoDup].
    symmetry. apply write_order_perm. lia.
  - intros k _ [].
Qed.

Lemma write_order_models_perm rt :
  Permutation
    (write_order (next_writer rt) (length (Dict.keys MODEL_PATHS))
                 (Dict.keys MODEL_PATHS))
    (Dict.keys MODEL_PATHS).
Proof. apply write_order_perm. lia. Qed.

Lemma ensemble_results_shape rt self sensor_data mode :
  Forall (fun kv => is_model_result (snd kv) = true)
         (ensemble_results rt self sensor_data mode).
Proof.
  unfold ensemble_results.
  destruct (String.eqb (effective_mode mode) "simultaneous").
  - rewrite run_simultaneous_inference_tabulate.
    apply (Forall_tabulate _ _ (fun r => is_model_result r = true)).
    intros k. apply with_total_time_shape, thread_entry_shape.
  - rewrite run_sequential_inference_tabulate.
    apply (Forall_tabulate _ _ (fun r => is_model_result r = true)).
    apply sequential_entry_shape.
Qed.

(** [diagnose] always returns a report: the mapping it aggregates holds
    model results only. *)
Lemma diagnose_report rt self sensor_data mode :
  exists final_diagnosis,
    aggregate_diagnoses (ensemble_results rt self sensor_data mode)
    = Some final_diagnosis
    /\ diagnose rt self sensor_data mode
       = Some (mkReport (ensemble_results rt self sensor_data mode)
                        final_diagnosis (effective_mode mode)).
Proof.
  destruct (aggregate_diagnoses_total _
              (ensemble_results_shape rt self sensor_data mode)) as [fin Hfin].
  exists fin. split; [exact Hfin|].
  unfold diagnose. fold (effective_mode mode).
  fold (ensemble_results rt self sensor_data mode).
  now rewrite Hfin.
Qed.

Lemma ensemble_results_tabulate rt self sensor_data mode :
  exists (f : string -> ModelResult) (order : list string),
    Permutation order (Dict.keys MODEL_PATHS)
    /\ ensemble_results rt self sensor_data mode = tabulate f order
    /\ (forall k, is_model_result (f k) = true).
Proof.
  unfold ensemble_results.
  destruct (String.eqb (effective_mode mode) "simultaneous").
  - eexists _, _. split; [apply (write_order_models_perm rt)|].
    split; [apply run_simultaneous_inference_tabulate|].
    intros k. apply with_total_time_shape, thread_entry_shape.
  - eexists _, _. split; [reflexivity|].
    split; [apply run_sequential_inference_tabulate|].
    apply sequential_entry_shape.
Qed.

(** ** The entries of a report *)

Lemma ensemble_results_get rt self sensor_data mode name :
  Dict.get (ensemble_results rt self sensor_data mode) name
  = if in_dec string_dec name (Dict.keys MODEL_PATHS)
    then Some (ensemble_entry rt self sensor_data mode name)
    else None.
Proof.
  unfold ensemble_results, ensemble_entry.
  destruct (String.eqb (effective_mode mode) "simultaneous").
  - rewrite run_simultaneous_inference_tabulate, get_tabulate.
    pose proof (write_order_models_perm rt) as Hperm.
    destruct (in_dec string_dec name (write_order _ _ _)) as [Hin|Hn];
      destruct (in_dec string_dec name (Dict.keys MODEL_PATHS)) as [Hin'|Hn'];
      try reflexivity; exfalso.
    + apply Hn'. eapply Permutation_in; [exact Hperm|exact Hin].
    + apply Hn. eapply Permutation_in; [symmetry; exact Hperm|exact Hin'].
  - now rewrite run_sequential_inference_tabulate, get_tabulate.
Qed.

Lemma diagnose_entry rt self sensor_data mode report name r :
  diagnose rt self sensor_data mode = Some report ->
  report_entry report name = Some r ->
  In name (Dict.keys MODEL_PATHS)
  /\ r = ensemble_entry rt self sensor_data mode name.
Proof.
  intros Hd Hr.
  destruct (diagnose_report rt self sensor_data mode) as (fin & _ & Hd').
  rewrite Hd' in Hd. injection Hd as <-.
  unfold report_entry in Hr. cbn [models_of] in Hr.
  rewrite ensemble_results_get in Hr.
  destruct (in_dec string_dec name (Dict.keys MODEL_PATHS)); [|discriminate].
  injection Hr as <-. auto.
Qed.


(** A success entry comes from a loaded model whose backend call returned
    an output, empty or not. *)
Lemma ensemble_entry_success rt self sensor_data mode name :
  is_success (ensemble_entry rt self sensor_data mode name) = true ->
  exists output,
    is_loaded self name = true
    /\ run_inference rt self name (prepare_sensor_data sensor_data) = Some output
    /\ confidence (ensemble_entry rt self sensor_data mode name)
       = Some (fault_prob_of output)
    /\ fault_detected (ensemble_entry rt self sensor_data mode name)
       = Some (Qgtb (fault_prob_of output) (1#2))
    /\ diagnosis (ensemble_entry rt self sensor_data mode name)
       = Some (interpret_diagnosis name (fault_prob_of output)).
Proof.
  unfold ensemble_entry, thread_entry, sequential_entry.
  destruct (String.eqb (effective_mode mode) "simultaneous");
    destruct (is_loaded self name); try discriminate;
    destruct (run_inference rt self name (prepare_sensor_data sensor_data))
      as [output|]; try discriminate;
    intros _; exists output; repeat split.
Qed.

Lemma ensemble_entry_output rt self sensor_data mode name output :
  is_loaded self name = true ->
  run_inference rt self name (prepare_sensor_data sensor_data) = Some output ->
  ensemble_entry rt self sensor_data mode name
  = mkResult (Some (Qgtb (fault_prob_of output) (1#2)))
             (Some (fault_prob_of output))
             (Some (interpret_diagnosis name (fault_prob_of output)))
             (if String.eqb (effective_mode mode) "simultaneous"
              then Some (round2 (thread_elapsed_ms rt name)) else None)
             (if String.eqb (effective_mode mode) "simultaneous"
              then Some (round2 (total_elapsed_ms rt)) else None)
             None.
Proof.
  intros Hl Ho. unfold ensemble_entry, thread_entry, sequential_entry.
  rewrite Hl, Ho.
  destruct (String.eqb (effective_mode mode) "simultaneous"); reflexivity.
Qed.



(** ** Threshold consistency *)

(** C3, as the code has it.  For every success entry of a report, the
    model is loaded and its backend call returned an output; the
    confidence is the first scalar of that output when there is one and 0
    when the output is empty; and [fault_detected] holds exactly when the
    confidence is above 0.5. *)
Theorem success_threshold rt self sensor_data mode report name r :
  diagnose rt self sensor_data mode = Some report ->
  report_entry report name = Some r ->
  is_success r = true ->
  exists output c,
    run_inference rt self name (prepare_sensor_data sensor_data) = Some output
    /\ c = match output with x :: _ => x | [] => 0%Q end
    /\ confidence r = Some c
    /\ fault_detected r = Some (Qgtb c (1#2))
    /\ (fault_detected r = Some true <-> (1#2 < c)%Q).
Proof.
  intros Hd Hr Hs.
  destruct (diagnose_entry _ _ _ _ _ _ _ Hd Hr) as [_ ->].
  destruct (ensemble_entry_success _ _ _ _ _ Hs)
    as (output & _ & Ho & Hc & Hf & _).
  exists output, (fault_prob_of output).
  split; [exact Ho|]. split; [reflexivity|]. split; [exact Hc|].
  split; [exact Hf|]. rewrite Hf. unfold Qgtb. split.
  - intros H. injection H as H. now apply Qltb_lt.
  - intros H. f_equal. now apply Qltb_lt.
Qed.

Lemma success_threshold_witness :
  exists output c,
    run_inference sample_runtime sample_diagnostics "aquilo"
                  (prepare_sensor_data []) = Some output
    /\ c = match output with x :: _ => x | [] => 0%Q end
    /\ (1#2 < c)%Q.
Proof.
  assert (H : exists report r,
             diagnose sample_runtime sample_diagnostics [] None = Some report
             /\ report_entry report "aquilo" = Some r
             /\ is_success r = true).
  { eexists _, _. repeat split; vm_compute; reflexivity. }
  destruct H as (report & r & H1 & H2 & H3).
  destruct (success_threshold _ _ _ _ _ _ _ H1 H2 H3)
    as (output & c & Ho & Hc & _ & _ & _).
  exists output, c. split; [exact Ho|]. split; [exact Hc|].
  vm_compute in Ho. injection Ho as <-. subst c. reflexivity.
Defined.

(** The statement of the specification fails on an empty output: [apollo] gets a
    success record although its backend output has no first scalar. *)
Lemma confidence_first_scalar_counterexample :
  exists report r,
    diagnose sample_runtime sample_diagnostics [] None = Some report
    /\ report_entry report "apollo" = Some r
    /\ is_success r = true
    /\ confidence r = Some 0%Q
    /\ ~ (exists output c,
             run_inference sample_runtime sample_diagnostics "apollo"
                           (prepare_sensor_data []) = Some output
             /\ hd_error output = Some c
             /\ confidence r = Some c).
Proof.
  eexists _, _.
  split; [vm_compute; reflexivity|].
  split; [vm_compute; reflexivity|].
  split; [reflexivity|]. split; [reflexivity|].
  intros (output & c & Ho & Hh & _).
  vm_compute in Ho. injection Ho as <-. discriminate.
Qed.

(** ** Empty outputs and failed calls *)




(** ** Timing fields *)

(** C7, as the code has it.  In simultaneous mode every success entry
    carries [inference_time_ms], the duration measured by the thread of
    its model rounded to two decimals, and [total_ensemble_time_ms]; in
    every other mode a success entry carries neither. *)
Theorem success_timing rt self sensor_data mode report name r :
  diagnose rt self sensor_data mode = Some report ->
  report_entry report name = Some r ->
  is_success r = true ->
  (effective_mode mode = "simultaneous" ->
   inference_time_ms r = Some (round2 (thread_elapsed_ms rt name))
   /\ total_ensemble_time_ms r = Some (round2 (total_elapsed_ms rt)))
  /\ (effective_mode mode <> "simultaneous" ->
      inference_time_ms r = None /\ total_ensemble_time_ms r = None).
Proof.
  intros Hd Hr Hs.
  destruct (diagnose_entry _ _ _ _ _ _ _ Hd Hr) as [_ ->].
  destruct (ensemble_entry_success _ _ _ _ _ Hs)
    as (output & Hl & Ho & _).
  rewrite (ensemble_entry_output _ _ _ _ _ _ Hl Ho). simpl.
  split; intros Hm.
  - rewrite Hm. simpl. auto.
  - apply String.eqb_neq in Hm. rewrite Hm. auto.
Qed.

Lemma success_timing_witness :
  exists report r,
    diagnose sample_runtime sample_diagnostics [] (Some "simultaneous")
    = Some report
    /\ report_entry report "aquilo" = Some r
    /\ inference_time_ms r = Some (round2 (12345#1000))
    /\ total_ensemble_time_ms r = Some (round2 (100#3)).
Proof.
  assert (H : exists report r,
             diagnose sample_runtime sample_diagnostics []
                      (Some "simultaneous") = Some report
             /\ report_entry report "aquilo" = Some r
             /\ is_success r = true).
  { eexists _, _. repeat split; vm_compute; reflexivity. }
  destruct H as (report & r & H1 & H2 & H3).
  destruct (success_timing _ _ _ _ _ _ _ H1 H2 H3) as [Hsim _].
  destruct (Hsim eq_refl) as [Ha Hb].
  exists report, r. auto.
Defined.

(** The statement of the specification fails in sequential mode: the success record of
    [aquilo] has no [inference_time_ms]. *)
Lemma sequential_timing_counterexample :
  exists report r,
    diagnose sample_runtime sample_diagnostics [] (Some "sequential")
    = Some report
    /\ report_entry report "aquilo" = Some r
    /\ is_success r = true
    /\ inference_time_ms r = None.
Proof.
  eexists _, _. repeat split; vm_compute; reflexivity.
Qed.

(** ** The diagnosis interpreter *)

(** [interpret_diagnosis] is a lookup in a table of two strings per model:
    the first below 0.5, the second from 0.5 on; any other identifier maps
    to "Unknown". *)
Lemma interpret_diagnosis_table (model_name : string) (fault_prob : Q) :
  interpret_diagnosis model_name fault_prob
  = match Dict.get DIAGNOSIS_STRINGS model_name with
    | Some (normal, fault) => if Qltb fault_prob (1#2) then normal else fault
    | None => "Unknown"
    end.
Proof.
  unfold interpret_diagnosis, DIAGNOSIS_STRINGS.
  cbn [Dict.get].
  repeat match goal with
         | |- context [String.eqb ?a model_name] =>
             destruct (String.eqb a model_name); [reflexivity|]
         end.
  reflexivity.
Qed.

(** Away from 0.5 the string follows the test [> 0.5] of the fault flag. *)
Lemma interpret_diagnosis_off_threshold (model_name : string) (fault_prob : Q) :
  ~ (fault_prob == 1#2)%Q ->
  interpret_diagnosis model_name fault_prob
  = match Dict.get DIAGNOSIS_STRINGS model_name with
    | Some (normal, fault) => if Qgtb fault_prob (1#2) then fault else normal
    | None => "Unknown"
    end.
Proof.
  intros Hne. rewrite interpret_diagnosis_table.
  destruct (Dict.get DIAGNOSIS_STRINGS model_name) as [[normal fault]|];
    [|reflexivity].
  unfold Qgtb.
  destruct (Qltb fault_prob (1#2)) eqn:E1, (Qltb (1#2) fault_prob) eqn:E2;
    try reflexivity; exfalso.
  - apply Qltb_lt in E1, E2. exact (Qlt_irrefl _ (Qlt_trans _ _ _ E1 E2)).
  - apply Qltb_ge in E1, E2. apply Hne. now apply Qle_antisym.
Qed.

(** C8, at the threshold.  For a fault probability of exactly 0.5
    [interpret_diagnosis] returns the fault string of the model, while the
    record built around it has [fault_detected] false, because the flag
    tests [> 0.5] and the interpreter tests [< 0.5]. *)
Theorem interpret_diagnosis_at_half :
  interpret_diagnosis "apollo" (1#2) = "System coordination issue detected"
  /\ Qgtb (1#2) (1#2) = false
  /\ sequential_entry half_runtime sample_diagnostics (prepare_sensor_data [])
                      "apollo"
     = mkResult (Some false) (Some (1#2))
                (Some "System coordination issue detected") None None None.
Proof.
  repeat split.
Qed.

(** ** Modes *)

Lemma initialize_ok pf self :
  fst (initialize pf self) = vdevice_available pf.
Proof.
  unfold initialize. destruct (vdevice_available pf); reflexivity.
Qed.

Lemma main_diagnose pf rt json_loads prog payload rest :
  main pf rt json_loads (prog :: "diagnose" :: payload :: rest)
  = match json_loads payload with
    | None => PrintError "Invalid JSON sensor data"
    | Some sensor_data =>
        if vdevice_available pf then
          match diagnose rt (snd (initialize pf new_diagnostics)) sensor_data
                  (Some (match rest with [] => "simultaneous" | m :: _ => m end))
          with
          | Some result => PrintReport result
          | None => PrintError "'diagnosis'"
          end
        else PrintError "Failed to initialize Hailo device"
    end.
Proof.
  rewrite <- (initialize_ok pf new_diagnostics).
  unfold main.
  change (String.eqb "diagnose" "status") with false.
  change (String.eqb "diagnose" "models") with false.
  change (String.eqb "diagnose" "diagnose") with true.
  cbv iota.
  destruct (json_loads payload); [|reflexivity].
  destruct (initialize pf new_diagnostics) as [ok diag].
  reflexivity.
Qed.

Lemma diagnose_sequential rt self sensor_data mode :
  effective_mode mode <> "simultaneous" ->
  exists final_diagnosis,
    diagnose rt self sensor_data mode
    = Some (mkReport
              (run_sequential_inference rt self (prepare_sensor_data sensor_data))
              final_diagnosis (effective_mode mode)).
Proof.
  intros Hm.
  destruct (diagnose_report rt self sensor_data mode) as (fin & _ & Hd).
  exists fin. rewrite Hd. unfold ensemble_results.
  apply String.eqb_neq in Hm. now rewrite Hm.
Qed.

Lemma diagnose_simultaneous rt self sensor_data mode :
  effective_mode mode = "simultaneous" ->
  exists final_diagnosis,
    diagnose rt self sensor_data mode
    = Some (mkReport
              (run_simultaneous_inference rt self (prepare_sensor_data sensor_data))
              final_diagnosis "simultaneous").
Proof.
  intros Hm.
  destruct (diagnose_report rt self sensor_data mode) as (fin & _ & Hd).
  exists fin. rewrite Hd. unfold ensemble_results. now rewrite Hm.
Qed.

(** C4, as the code has it.  The command line defaults to simultaneous:
    [main] called with a payload and no mode argument, on a device that
    initialises, prints a report of mode "simultaneous" built by the
    simultaneous path.  The method itself defaults to sequential:
    [diagnose] called without a mode returns a report of mode "sequential"
    built by the sequential loop. *)
Theorem default_mode pf rt json_loads prog payload sensor_data :
  json_loads payload = Some sensor_data ->
  vdevice_available pf = true ->
  (exists report,
      main pf rt json_loads [prog; "diagnose"; payload] = PrintReport report
      /\ mode_of report = "simultaneous"
      /\ models_of report
         = run_simultaneous_inference rt (snd (initialize pf new_diagnostics))
             (prepare_sensor_data sensor_data))
  /\ (forall self,
      exists report,
        diagnose rt self sensor_data None = Some report
        /\ mode_of report = "sequential"
        /\ models_of report
           = run_sequential_inference rt self (prepare_sensor_data sensor_data)).
Proof.
  intros Hj Hv. split.
  - rewrite main_diagnose, Hj, Hv.
    destruct (diagnose_simultaneous rt (snd (initialize pf new_diagnostics))
                sensor_data (Some "simultaneous") eq_refl) as [fin Hd].
    rewrite Hd. eexists. repeat split.
  - intros self.
    destruct (diagnose_sequential rt self sensor_data None) as [fin Hd].
    { discriminate. }
    rewrite Hd. eexists. repeat split.
Qed.

Lemma default_mode_witness :
  exists report,
    main sample_platform sample_runtime sample_json_loads
         ["hailo_inference.py"; "diagnose"; "{}"] = PrintReport report
    /\ mode_of report = "simultaneous".
Proof.
  destruct (default_mode sample_platform sample_runtime sample_json_loads
              "hailo_inference.py" "{}" [] eq_refl eq_refl)
    as [(report & Hm & Hmode & _) _].
  exists report. auto.
Defined.

(** The statement of the specification fails for a caller of the method: without a mode
    argument the report says "sequential". *)
Lemma default_mode_counterexample :
  exists report,
    diagnose sample_runtime sample_diagnostics [] None = Some report
    /\ mode_of report = "sequential"
    /\ mode_of report <> "simultaneous".
Proof.
  eexists. split; [vm_compute; reflexivity|].
  split; [reflexivity|discriminate].
Qed.

(** C10.  [diagnose] echoes the mode string it was given, and for every
    mode string other than "simultaneous" the models mapping is the one
    built by the sequential loop. *)
Theorem diagnose_mode_dispatch rt self sensor_data (mode : string) :
  (exists report,
      diagnose rt self sensor_data (Some mode) = Some report
      /\ mode_of report = mode)
  /\ (mode <> "simultaneous" ->
      exists report,
        diagnose rt self sensor_data (Some mode) = Some report
        /\ mode_of report = mode
        /\ models_of report
           = run_sequential_inference rt self (prepare_sensor_data sensor_data)).
Proof.
  split.
  - destruct (diagnose_report rt self sensor_data (Some mode)) as (fin & _ & Hd).
    rewrite Hd. eexists. split; reflexivity.
  - intros Hm.
    destruct (diagnose_sequential rt self sensor_data (Some mode) Hm) as [fin Hd].
    rewrite Hd. eexists. repeat split.
Qed.

Lemma diagnose_mode_dispatch_witness :
  exists report,
    diagnose sample_runtime sample_diagnostics [] (Some "turbo") = Some report
    /\ mode_of report = "turbo"
    /\ models_of report
       = run_sequential_inference sample_runtime sample_diagnostics
           (prepare_sensor_data []).
Proof.
  destruct (diagnose_mode_dispatch sample_runtime sample_diagnostics [] "turbo")
    as [_ H].
  apply H. discriminate.
Defined.

(** ** Initialisation and the empty registry *)

Lemma ensemble_results_entries rt self sensor_data mode :
  exists order,
    Permutation order (Dict.keys MODEL_PATHS)
    /\ ensemble_results rt self sensor_data mode
       = tabulate (ensemble_entry rt self sensor_data mode) order.
Proof.
  unfold ensemble_results, ensemble_entry.
  destruct (String.eqb (effective_mode mode) "simultaneous").
  - eexists. split; [apply (write_order_models_perm rt)|].
    apply run_simultaneous_inference_tabulate.
  - eexists. split; [reflexivity|].
    apply run_sequential_inference_tabulate.
Qed.


(** The registry after [initialize]: a model is loaded exactly when the
    device came up, its file is present and its HEF configured. *)
Lemma load_model_is_loaded pf self model_name model_path k :
  is_loaded (load_model pf self (model_name, model_path)) k
  = if String.eqb model_name k then hef_loads pf model_path
    else is_loaded self k.
Proof.
  unfold load_model, is_loaded, hef_loads.
  destruct (String.eqb_spec model_name k) as [->|Hne];
    destruct (path_exists pf model_path);
    try destruct (configure_hef pf model_path);
    cbn [models andb];
    rewrite ?get_set_same, ?get_set_other by assumption; reflexivity.
Qed.

Lemma get_not_In {V} (d : Dict.t V) k : ~ In k (Dict.keys d) -> Dict.get d k = None.
Proof.
  induction d as [|[k' v'] d IH]; simpl; intros Hn; [reflexivity|].
  destruct (String.eqb_spec k' k) as [->|Hne].
  - exfalso. apply Hn. now left.
  - apply IH. intros Hin. apply Hn. now right.
Qed.

Lemma fold_load_model_is_loaded pf (items : Dict.t string) self k :
  NoDup (Dict.keys items) ->
  is_loaded (fold_left (load_model pf) items self) k
  = match Dict.get items k with
    | Some model_path => hef_loads pf model_path
    | None => is_loaded self k
    end.
Proof.
  revert self. induction items as [|[n p] items IH]; intros self Hnd.
  - reflexivity.
  - inversion Hnd as [|? ? Hn Hnd']; subst.
    cbn [fold_left Dict.get]. rewrite IH by exact Hnd'.
    rewrite load_model_is_loaded.
    destruct (String.eqb_spec n k) as [->|Hne].
    + now rewrite get_not_In.
    + destruct (Dict.get items k); reflexivity.
Qed.

Lemma initialize_is_loaded pf name :
  is_loaded (snd (initialize pf new_diagnostics)) name
  = vdevice_available pf
    && match Dict.get MODEL_PATHS name with
       | Some model_path => hef_loads pf model_path
       | None => false
       end.
Proof.
  unfold initialize. destruct (vdevice_available pf); cbn [snd andb].
  - unfold Dict.items.
    rewrite fold_load_model_is_loaded by apply model_names_NoDup.
    destruct (Dict.get MODEL_PATHS name); reflexivity.
  - reflexivity.
Qed.





(** ** Isolation *)





(** ** Sample evaluations of the aggregator *)

Example aggregate_sample_results :
  aggregate_diagnoses sample_results
  = Some (mkConsensus "FAULT DETECTED: Refrigeration issue detected" (3#4)).
Proof. vm_compute. reflexivity. Qed.

Example scenario_a :
  option_map final
    (diagnose scenario_a_runtime sample_diagnostics [] (Some "sequential"))
  = Some (mkConsensus "FAULT DETECTED: Electrical fault detected" (6#8)).
Proof. vm_compute. reflexivity. Qed.

Example scenario_c :
  option_map final
    (diagnose scenario_c_runtime sample_diagnostics [] (Some "simultaneous"))
  = Some (mkConsensus "System operating normally" (0#8)).
Proof. vm_compute. reflexivity. Qed.

(** In simultaneous mode the mapping is in the order of the writes, so a
    tie between equal confidences goes to the thread that wrote first. *)
Example scenario_d :
  option_map final
    (diagnose scenario_d_runtime sample_diagnostics [] (Some "simultaneous"))
  = Some (mkConsensus "FAULT DETECTED: Airflow issue detected" (7#7))
  /\ option_map final
       (diagnose scenario_d_runtime sample_diagnostics [] (Some "sequential"))
     = Some (mkConsensus "FAULT DETECTED: System coordination issue detected"
                         (7#7)).
Proof. split; vm_compute; reflexivity. Qed.

(** * Further properties *)

(** ** The feature vector *)

Lemma prepare_sensor_data_agree (sd1 sd2 : Dict.t Q) :
  (forall key, In key (map fst SENSOR_DEFAULTS) ->
               Dict.get sd1 key = Dict.get sd2 key) ->
  prepare_sensor_data sd1 = prepare_sensor_data sd2.
Proof.
  intros H. unfold prepare_sensor_data, sensor_get.
  repeat (rewrite (H _) by (cbn; auto 25)).
  reflexivity.
Qed.

(** X2.  Keys other than the 19 known ones are ignored: two payloads with
    the same readings for the known keys give the same feature vector and
    the same report. *)
Theorem unknown_sensor_keys_ignored rt self (sd1 sd2 : Dict.t Q) mode :
  (forall key, In key (map fst SENSOR_DEFAULTS) ->
               Dict.get sd1 key = Dict.get sd2 key) ->
  prepare_sensor_data sd1 = prepare_sensor_data sd2
  /\ diagnose rt self sd1 mode = diagnose rt self sd2 mode.
Proof.
  intros H. pose proof (prepare_sensor_data_agree sd1 sd2 H) as Hp.
  split; [exact Hp|]. unfold diagnose. now rewrite Hp.
Qed.

Lemma sample_sensor_data_agree (key : string) :
  In key (map fst SENSOR_DEFAULTS) ->
  Dict.get sample_sensor_data_tagged key = Dict.get sample_sensor_data key.
Proof.
  intros H. cbn in H.
  repeat (destruct H as [<-|H]; [reflexivity|]). contradiction.
Defined.

Lemma unknown_sensor_keys_ignored_witness :
  prepare_sensor_data sample_sensor_data_tagged
  = prepare_sensor_data sample_sensor_data
  /\ diagnose sample_runtime sample_diagnostics sample_sensor_data_tagged None
     = diagnose sample_runtime sample_diagnostics sample_sensor_data None.
Proof.
  exact (unknown_sensor_keys_ignored sample_runtime sample_diagnostics
           sample_sensor_data_tagged sample_sensor_data None
           sample_sensor_data_agree).
Defined.

(** ** The registry built by [initialize] *)

Lemma load_info_loaded pf model_path :
  loaded (load_info pf model_path) = hef_loads pf model_path.
Proof.
  unfold load_info, hef_loads.
  destruct (path_exists pf model_path); [|reflexivity].
  destruct (configure_hef pf model_path); reflexivity.
Qed.

Lemma load_model_eq pf self model_name model_path :
  load_model pf self (model_name, model_path)
  = mkDiag (target self)
      (Dict.set (models self) model_name (load_info pf model_path))
      (if hef_loads pf model_path
       then Dict.set (network_groups self) model_name model_path
       else network_groups self).
Proof.
  unfold load_model, load_info, hef_loads.
  destruct (path_exists pf model_path); [|reflexivity].
  destruct (configure_hef pf model_path); reflexivity.
Qed.

Lemma keys_app {V} (a b : Dict.t V) :
  Dict.keys (a ++ b) = Dict.keys a ++ Dict.keys b.
Proof. unfold Dict.keys. apply map_app. Qed.

(** Loading fresh, distinct models appends their entries in order. *)
Lemma fold_load_model_state pf (items : Dict.t string) self :
  NoDup (Dict.keys items) ->
  (forall k, In k (Dict.keys items) -> ~ In k (Dict.keys (models self))) ->
  (forall k, In k (Dict.keys items) -> ~ In k (Dict.keys (network_groups self))) ->
  fold_left (load_model pf) items self
  = mkDiag (target self)
      (models self ++ map (fun np => (fst np, load_info pf (snd np))) items)
      (network_groups self ++ filter (fun np => hef_loads pf (snd np)) items).
Proof.
  revert self. induction items as [|[n p] items IH]; intros self Hnd Hm Hg.
  - cbn [fold_left map filter]. rewrite !app_nil_r. now destruct self.
  - inversion Hnd as [|? ? Hn Hnd']; subst.
    cbn [fold_left]. rewrite load_model_eq.
    assert (Hsm : Dict.set (models self) n (load_info pf p)
                  = models self ++ [(n, load_info pf p)]).
    { apply keys_set_new. apply Hm. now left. }
    assert (Hsg : Dict.set (network_groups self) n p
                  = network_groups self ++ [(n, p)]).
    { apply keys_set_new. apply Hg. now left. }
    rewrite Hsm, Hsg.
    assert (Hfresh : forall (V : Type) (d : Dict.t V) (v : V) k,
               In k (Dict.keys items) ->
               ~ In k (Dict.keys d) -> ~ In k (Dict.keys (d ++ [(n, v)]))).
    { intros V d v k Hk Hd Hin. rewrite keys_app in Hin.
      apply in_app_or in Hin. destruct Hin as [Hin|[<-|[]]]; contradiction. }
    rewrite IH; cbn [target models network_groups]; [|exact Hnd'| |].
    + cbn [map filter fst snd].
      destruct (hef_loads pf p); rewrite <- ?app_assoc; reflexivity.
    + intros k Hk. apply Hfresh; [exact Hk|]. apply Hm. now right.
    + intros k Hk. destruct (hef_loads pf p).
      * apply Hfresh; [exact Hk|]. apply Hg. now right.
      * apply Hg. now right.
Qed.

Lemma initialize_state pf :
  vdevice_available pf = true ->
  snd (initialize pf new_diagnostics)
  = mkDiag true
      (map (fun np => (fst np, load_info pf (snd np))) MODEL_PATHS)
      (filter (fun np => hef_loads pf (snd np)) MODEL_PATHS).
Proof.
  intros Hv. unfold initialize. rewrite Hv. cbn [snd]. unfold Dict.items.
  rewrite fold_load_model_state.
  - reflexivity.
  - apply model_names_NoDup.
  - intros k _ [].
  - intros k _ [].
Qed.

Lemma get_map_values {V W} (g : V -> W) (items : Dict.t V) k :
  Dict.get (map (fun np => (fst np, g (snd np))) items) k
  = option_map g (Dict.get items k).
Proof.
  induction items as [|[n v] items IH]; cbn [map Dict.get fst snd];
    [reflexivity|].
  destruct (String.eqb n k); [reflexivity|exact IH].
Qed.

Lemma mem_filter_NoDup {V} (P : V -> bool) (items : Dict.t V) k :
  NoDup (Dict.keys items) ->
  Dict.mem (filter (fun np => P (snd np)) items) k
  = match Dict.get items k with
    | Some v => P v
    | None => false
    end.
Proof.
  unfold Dict.mem.
  induction items as [|[n v] items IH]; intros Hnd; [reflexivity|].
  inversion Hnd as [|? ? Hn Hnd']; subst.
  cbn [filter Dict.get snd].
  destruct (String.eqb_spec n k) as [->|Hne].
  - destruct (P v) eqn:EP.
    + cbn [Dict.get]. now rewrite String.eqb_refl.
    + rewrite IH by exact Hnd'. now rewrite get_not_In.
  - destruct (P v).
    + cbn [Dict.get]. destruct (String.eqb_spec n k); [contradiction|].
      now apply IH.
    + now apply IH.
Qed.

Lemma get_In_keys {V} (d : Dict.t V) k v :
  Dict.get d k = Some v -> In k (Dict.keys d).
Proof.
  intros H. apply get_In in H.
  change k with (fst (k, v)). unfold Dict.keys. now apply in_map.
Qed.

(** ** The aggregator as a function of counts *)

Lemma aggregate_diagnoses_cases (results : Dict.t ModelResult) :
  aggregate_diagnoses results
  = if (success_count results =? 0)%nat
    then Some (mkConsensus "Unable to complete diagnosis" 0)
    else if Qgtb (consensus_of results) (7#10) then
      match fault_flagged results with
      | f :: fs =>
          match diagnosis (snd (max_by entry_confidence f fs)) with
          | Some d =>
              Some (mkConsensus ("FAULT DETECTED: " ++ d)%string
                                (consensus_of results))
          | None => None
          end
      | [] => Some (mkConsensus "Multiple system issues detected"
                                (consensus_of results))
      end
    else if Qgtb (consensus_of results) (3#10) then
      Some (mkConsensus "Potential issue detected - monitoring recommended"
                        (consensus_of results))
    else Some (mkConsensus "System operating normally" (consensus_of results)).
Proof.
  unfold aggregate_diagnoses, consensus_of, fault_count, success_count,
    fault_flagged.
  destruct (filter has_confidence (Dict.values results)); reflexivity.
Qed.

Lemma consensus_top_has_votes (results : Dict.t ModelResult) :
  Qgtb (consensus_of results) (7#10) = true -> fault_count results <> 0%nat.
Proof.
  intros H H0. apply Qltb_lt in H. unfold consensus_of in H.
  rewrite H0 in H. cbn [Z.of_nat] in H. unfold Qdiv in H.
  rewrite Qmult_0_l in H. unfold Qlt in H. cbn in H. lia.
Qed.

Lemma top_tier_has_fault (results : Dict.t ModelResult) :
  Qgtb (consensus_of results) (7#10) = true -> fault_flagged results <> [].
Proof.
  intros H. apply fault_votes_flagged. now apply consensus_top_has_votes.
Qed.

(** X5.  The fallback verdict "Multiple system issues detected" is never
    returned, whatever the mapping: a consensus above 0.7 needs a fault
    vote, and a fault vote is a fault-flagged entry. *)
Theorem aggregate_never_multiple (results : Dict.t ModelResult) out :
  aggregate_diagnoses results = Some out ->
  final_diagnosis out <> "Multiple system issues detected".
Proof.
  rewrite aggregate_diagnoses_cases.
  destruct (success_count results =? 0)%nat.
  { intros H. injection H as <-. discriminate. }
  destruct (Qgtb (consensus_of results) (7#10)) eqn:E7.
  - pose proof (top_tier_has_fault results E7) as Hne.
    destruct (fault_flagged results) as [|f fs]; [congruence|].
    destruct (diagnosis (snd (max_by entry_confidence f fs))); [|discriminate].
    intros H. injection H as <-. discriminate.
  - destruct (Qgtb (consensus_of results) (3#10));
      intros H; injection H as <-; discriminate.
Qed.

Lemma aggregate_never_multiple_witness :
  exists out,
    aggregate_diagnoses sample_results = Some out
    /\ final_diagnosis out <> "Multiple system issues detected".
Proof.
  assert (H : exists out, aggregate_diagnoses sample_results = Some out).
  { eexists. vm_compute. reflexivity. }
  destruct H as [out H]. exists out. split; [exact H|].
  exact (aggregate_never_multiple sample_results out H).
Defined.

(** ** Order and error records *)

Lemma filter_perm {A} (f : A -> bool) (l l' : list A) :
  Permutation l l' -> Permutation (filter f l) (filter f l').
Proof.
  induction 1 as [|x l l' _ IH|x y l|l l' l'' _ IH1 _ IH2]; cbn [filter].
  - constructor.
  - destruct (f x); [now apply perm_skip|exact IH].
  - destruct (f x), (f y); try reflexivity. apply perm_swap.
  - now apply perm_trans with (filter f l').
Qed.

Lemma success_count_perm (r1 r2 : Dict.t ModelResult) :
  Permutation r1 r2 -> success_count r1 = success_count r2.
Proof.
  intros H. unfold success_count, Dict.values.
  apply Permutation_length, filter_perm, Permutation_map, H.
Qed.

Lemma fault_count_perm (r1 r2 : Dict.t ModelResult) :
  Permutation r1 r2 -> fault_count r1 = fault_count r2.
Proof.
  intros H. unfold fault_count, Dict.values.
  apply Permutation_length, filter_perm, filter_perm, Permutation_map, H.
Qed.

(** Below the highest tier the verdict depends on the two counts only. *)
Lemma aggregate_counts_agree (r1 r2 : Dict.t ModelResult) :
  success_count r1 = success_count r2 ->
  fault_count r1 = fault_count r2 ->
  (success_count r1 = 0%nat \/ Qgtb (consensus_of r1) (7#10) = false) ->
  aggregate_diagnoses r1 = aggregate_diagnoses r2.
Proof.
  intros Hs Hf Hlow. rewrite !aggregate_diagnoses_cases.
  assert (Hc : consensus_of r2 = consensus_of r1).
  { unfold consensus_of. now rewrite Hs, Hf. }
  rewrite Hc, <- Hs.
  destruct (success_count r1 =? 0)%nat eqn:E0; [reflexivity|].
  destruct Hlow as [H0|H7].
  - rewrite H0 in E0. discriminate.
  - now rewrite H7.
Qed.

Lemma aggregate_consensus (results : Dict.t ModelResult) out :
  aggregate_diagnoses results = Some out ->
  consensus out
  = if (success_count results =? 0)%nat then 0%Q else consensus_of results.
Proof.
  rewrite aggregate_diagnoses_cases.
  destruct (success_count results =? 0)%nat.
  { intros H. now injection H as <-. }
  destruct (Qgtb (consensus_of results) (7#10)).
  - destruct (fault_flagged results) as [|f fs].
    + intros H. now injection H as <-.
    + destruct (diagnosis (snd (max_by entry_confidence f fs)));
        [|discriminate].
      intros H. now injection H as <-.
  - destruct (Qgtb (consensus_of results) (3#10));
      intros H; now injection H as <-.
Qed.

Lemma first_max_le {A} (key : A -> Q) (l : list A) (best x : A) :
  first_max key l best -> In x l -> (key x <= key best)%Q.
Proof.
  intros (l1 & l2 & -> & H1 & H2) Hin.
  rewrite Forall_forall in H1, H2.
  apply in_app_or in Hin. destruct Hin as [Hin|[<-|Hin]].
  - apply Qlt_le_weak. now apply H1.
  - apply Qle_refl.
  - now apply H2.
Qed.

(** In the highest tier the verdict names a fault-flagged entry whose
    confidence no other fault-flagged entry exceeds. *)
Lemma aggregate_top_tier (results : Dict.t ModelResult) out :
  aggregate_diagnoses results = Some out ->
  (7#10 < consensus out)%Q ->
  exists kv d,
    In kv (fault_flagged results)
    /\ diagnosis (snd kv) = Some d
    /\ final_diagnosis out = ("FAULT DETECTED: " ++ d)%string
    /\ forall x, In x (fault_flagged results) ->
                 (entry_confidence x <= entry_confidence kv)%Q.
Proof.
  intros Hagg Htop.
  pose proof (aggregate_consensus results out Hagg) as Hc.
  rewrite aggregate_diagnoses_cases in Hagg.
  destruct (success_count results =? 0)%nat.
  { rewrite Hc in Htop. unfold Qlt in Htop. cbn in Htop. lia. }
  rewrite Hc in Htop. apply Qltb_lt in Htop.
  change (Qltb (7#10) (consensus_of results))
    with (Qgtb (consensus_of results) (7#10)) in Htop.
  rewrite Htop in Hagg.
  pose proof (top_tier_has_fault results Htop) as Hne.
  destruct (fault_flagged results) as [|f fs] eqn:Ef; [congruence|].
  pose proof (max_by_first_max entry_confidence f fs) as Hfm.
  destruct (diagnosis (snd (max_by entry_confidence f fs))) as [d|] eqn:Ed;
    [|discriminate].
  injection Hagg as <-.
  exists (max_by entry_confidence f fs), d.
  split; [exact (first_max_In _ _ _ Hfm)|].
  split; [exact Ed|]. split; [reflexivity|].
  intros x Hx. exact (first_max_le _ _ _ _ Hfm Hx).
Qed.

Lemma consensus_low_tier (results : Dict.t ModelResult) out :
  aggregate_diagnoses results = Some out ->
  (consensus out <= 7#10)%Q ->
  success_count results = 0%nat \/ Qgtb (consensus_of results) (7#10) = false.
Proof.
  intros Hagg Hle. rewrite (aggregate_consensus _ _ Hagg) in Hle.
  destruct (success_count results =? 0)%nat eqn:E0.
  - left. now apply Nat.eqb_eq.
  - right. now apply Qltb_ge.
Qed.

Lemma values_filter (P : ModelResult -> bool) (results : Dict.t ModelResult) :
  Dict.values (filter (fun kv => P (snd kv)) results)
  = filter P (Dict.values results).
Proof.
  unfold Dict.values.
  induction results as [|[k r] results IH]; cbn [filter map snd]; [reflexivity|].
  destruct (P r); cbn [map snd]; now rewrite IH.
Qed.

Lemma filter_idem {A} (f : A -> bool) (l : list A) :
  filter f (filter f l) = filter f l.
Proof.
  induction l as [|x l IH]; cbn [filter]; [reflexivity|].
  destruct (f x) eqn:E; cbn [filter]; [rewrite E|]; now rewrite ?IH.
Qed.

Lemma error_not_flagged (r : ModelResult) :
  is_model_result r = true -> has_confidence r = false ->
  get_fault_detected r = false.
Proof.
  unfold is_model_result, is_success, is_error, has_confidence,
    get_fault_detected.
  destruct (fault_detected r), (confidence r), (diagnosis r), (error r);
    cbn; congruence.
Qed.

Lemma fault_flagged_confident (results : Dict.t ModelResult) :
  Forall (fun kv => is_model_result (snd kv) = true) results ->
  fault_flagged (filter (fun kv => has_confidence (snd kv)) results)
  = fault_flagged results.
Proof.
  unfold fault_flagged.
  induction 1 as [|[k r] results Hr _ IH]; cbn [filter snd]; [reflexivity|].
  cbn [snd] in Hr.
  destruct (has_confidence r) eqn:Ec; cbn [filter snd].
  - now rewrite IH.
  - now rewrite (error_not_flagged r Hr Ec).
Qed.

(** X7.  Error records never dilute the verdict: on a mapping of model
    results the aggregator returns what it returns on the entries that
    carry a confidence alone. *)
Theorem aggregate_ignores_errors (results : Dict.t ModelResult) :
  Forall (fun kv => is_model_result (snd kv) = true) results ->
  aggregate_diagnoses (filter (fun kv => has_confidence (snd kv)) results)
  = aggregate_diagnoses results.
Proof.
  intros Hwf. rewrite !aggregate_diagnoses_cases.
  assert (Hs : success_count
                 (filter (fun kv => has_confidence (snd kv)) results)
               = success_count results).
  { unfold success_count. now rewrite values_filter, filter_idem. }
  assert (Hf : fault_count
                 (filter (fun kv => has_confidence (snd kv)) results)
               = fault_count results).
  { unfold fault_count. now rewrite values_filter, filter_idem. }
  assert (Hc : consensus_of
                 (filter (fun kv => has_confidence (snd kv)) results)
               = consensus_of results).
  { unfold consensus_of. now rewrite Hs, Hf. }
  now rewrite Hs, Hc, (fault_flagged_confident results Hwf).
Qed.

Lemma aggregate_ignores_errors_witness :
  aggregate_diagnoses (filter (fun kv => has_confidence (snd kv)) sample_results)
  = aggregate_diagnoses sample_results
  /\ length (filter (fun kv => has_confidence (snd kv)) sample_results) = 4%nat
  /\ length sample_results = 5%nat.
Proof.
  split; [|split; reflexivity].
  apply aggregate_ignores_errors. repeat constructor.
Defined.

(** ** The two modes side by side *)


Lemma strip_timing_fields (r : ModelResult) :
  has_confidence (strip_timing r) = has_confidence r
  /\ get_fault_detected (strip_timing r) = get_fault_detected r.
Proof. split; reflexivity. Qed.





(** ** Diagnosis strings *)

Lemma registered_strings (name : string) :
  In name (Dict.keys MODEL_PATHS) ->
  exists normal fault,
    Dict.get DIAGNOSIS_STRINGS name = Some (normal, fault) /\ normal <> fault.
Proof.
  intros H. cbn in H.
  repeat (destruct H as [<-|H];
          [eexists _, _; split; [reflexivity|discriminate]|]).
  contradiction.
Qed.

(** X9.  [interpret_diagnosis] answers "Unknown" exactly for the
    identifiers that are not registered in [MODEL_PATHS]: every registered
    model has its two strings, and none of them is "Unknown". *)
Theorem interpret_diagnosis_unknown (name : string) (fault_prob : Q) :
  interpret_diagnosis name fault_prob = "Unknown"
  <-> ~ In name (Dict.keys MODEL_PATHS).
Proof.
  rewrite interpret_diagnosis_table. split.
  - intros Hu Hin. cbn in Hin.
    repeat (destruct Hin as [<-|Hin];
            [cbn in Hu; destruct (Qltb fault_prob (1#2)); discriminate|]).
    contradiction.
  - intros Hn. rewrite get_not_In; [reflexivity|exact Hn].
Qed.

(** ** The verdicts a report can carry *)

Lemma aggregate_verdict (results : Dict.t ModelResult) out :
  aggregate_diagnoses results = Some out ->
  In (final_diagnosis out) plain_verdicts
  \/ exists kv d,
       In kv (fault_flagged results)
       /\ diagnosis (snd kv) = Some d
       /\ final_diagnosis out = ("FAULT DETECTED: " ++ d)%string.
Proof.
  rewrite aggregate_diagnoses_cases.
  destruct (success_count results =? 0)%nat.
  { intros H. injection H as <-. left. cbn. auto. }
  destruct (Qgtb (consensus_of results) (7#10)) eqn:E7.
  - pose proof (top_tier_has_fault results E7) as Hne.
    destruct (fault_flagged results) as [|f fs] eqn:Ef; [congruence|].
    destruct (diagnosis (snd (max_by entry_confidence f fs))) as [d|] eqn:Ed;
      [|discriminate].
    intros H. injection H as <-. right.
    exists (max_by entry_confidence f fs), d.
    split; [|split; [exact Ed|reflexivity]].
    exact (first_max_In _ _ _ (max_by_first_max entry_confidence f fs)).
  - destruct (Qgtb (consensus_of results) (3#10));
      intros H; injection H as <-; left; cbn; auto.
Qed.

(** X11.  The final diagnosis of a report is "Unable to complete
    diagnosis", "Potential issue detected - monitoring recommended",
    "System operating normally", or "FAULT DETECTED: " followed by the
    fault string of a registered model whose entry in the same report has
    [fault_detected] true. *)
Theorem diagnose_verdict_forms rt self sensor_data mode report :
  diagnose rt self sensor_data mode = Some report ->
  In (final_diagnosis (final report)) plain_verdicts
  \/ exists name normal fault r,
       Dict.get DIAGNOSIS_STRINGS name = Some (normal, fault)
       /\ report_entry report name = Some r
       /\ fault_detected r = Some true
       /\ final_diagnosis (final report) = ("FAULT DETECTED: " ++ fault)%string.
Proof.
  intros Hd.
  destruct (diagnose_report rt self sensor_data mode) as (fin & Hagg & Hd').
  rewrite Hd' in Hd. injection Hd as <-. cbn [final].
  destruct (aggregate_verdict _ _ Hagg) as [Hplain|(kv & d & Hin & Hdiag & Hf)];
    [now left|right].
  unfold fault_flagged in Hin. apply filter_In in Hin.
  destruct Hin as [Hin Hflag].
  destruct (ensemble_results_entries rt self sensor_data mode)
    as (order & Hperm & Hres).
  rewrite Hres in Hin. unfold tabulate in Hin. apply in_map_iff in Hin.
  destruct Hin as (name & <- & Hname). cbn [snd] in Hflag, Hdiag.
  assert (Hreg : In name (Dict.keys MODEL_PATHS)).
  { eapply Permutation_in; [exact Hperm|exact Hname]. }
  destruct (registered_strings name Hreg) as (normal & fault & Hget & _).
  assert (Hs : is_success (ensemble_entry rt self sensor_data mode name) = true).
  { revert Hflag. unfold ensemble_entry, thread_entry, sequential_entry.
    destruct (String.eqb (effective_mode mode) "simultaneous");
      destruct (is_loaded self name); try discriminate;
      destruct (run_inference rt self name (prepare_sensor_data sensor_data));
      try discriminate; reflexivity. }
  destruct (ensemble_entry_success _ _ _ _ _ Hs)
    as (output & _ & _ & _ & Hfd & Hdg).
  unfold get_fault_detected in Hflag. rewrite Hfd in Hflag.
  exists name, normal, fault, (ensemble_entry rt self sensor_data mode name).
  split; [exact Hget|]. split.
  { unfold report_entry. cbn [models_of]. rewrite ensemble_results_get.
    destruct (in_dec string_dec name (Dict.keys MODEL_PATHS));
      [reflexivity|contradiction]. }
  split; [now rewrite Hfd, Hflag|].
  rewrite Hf. f_equal. rewrite Hdg in Hdiag. injection Hdiag as <-.
  rewrite interpret_diagnosis_table, Hget.
  unfold Qgtb in Hflag. apply Qltb_lt in Hflag.
  destruct (Qltb (fault_prob_of output) (1#2)) eqn:E; [|reflexivity].
  apply Qltb_lt in E. exfalso.
  exact (Qlt_irrefl _ (Qlt_trans _ _ _ E Hflag)).
Qed.

Lemma diagnose_verdict_forms_witness :
  exists report name normal fault,
    diagnose sample_runtime sample_diagnostics [] None = Some report
    /\ Dict.get DIAGNOSIS_STRINGS name = Some (normal, fault)
    /\ final_diagnosis (final report) = ("FAULT DETECTED: " ++ fault)%string.
Proof.
  assert (H : exists report,
             diagnose sample_runtime sample_diagnostics [] None = Some report
             /\ ~ In (final_diagnosis (final report)) plain_verdicts).
  { eexists. split; [vm_compute; reflexivity|].
    cbn. intros [H|[H|[H|[]]]]; discriminate. }
  destruct H as (report & Hd & Hnot).
  destruct (diagnose_verdict_forms _ _ _ _ _ Hd)
    as [Hplain|(name & normal & fault & r & Hget & _ & _ & Hf)];
    [contradiction|].
  exists report, name, normal, fault. auto.
Defined.

(** ** What reaches the backend *)

Lemma thread_entry_with_infer rt infer' self input_data name :
  (is_loaded self name = true ->
   Dict.mem (network_groups self) name = true ->
   infer' name input_data = infer rt name input_data) ->
  thread_entry (with_infer rt infer') self input_data name
  = thread_entry rt self input_data name.
Proof.
  intros H. unfold thread_entry, run_inference, with_infer.
  cbn [infer thread_elapsed_ms].
  destruct (is_loaded self name); [|reflexivity].
  destruct (Dict.mem (network_groups self) name); [|reflexivity].
  cbn [negb]. now rewrite H.
Qed.

Lemma sequential_entry_with_infer rt infer' self input_data name :
  (is_loaded self name = true ->
   Dict.mem (network_groups self) name = true ->
   infer' name input_data = infer rt name input_data) ->
  sequential_entry (with_infer rt infer') self input_data name
  = sequential_entry rt self input_data name.
Proof.
  intros H. unfold sequential_entry, run_inference, with_infer.
  cbn [infer].
  destruct (is_loaded self name); [|reflexivity].
  destruct (Dict.mem (network_groups self) name); [|reflexivity].
  cbn [negb]. now rewrite H.
Qed.

(** X12.  The backend is consulted only for loaded models with a network
    group, and only on the feature vector of the payload: replacing the
    backend by one that agrees with it there leaves the whole report
    unchanged, in either mode. *)
Theorem backend_consulted_for_loaded_only rt self sensor_data mode infer' :
  (forall name,
      is_loaded self name = true ->
      Dict.mem (network_groups self) name = true ->
      infer' name (prepare_sensor_data sensor_data)
      = infer rt name (prepare_sensor_data sensor_data)) ->
  diagnose (with_infer rt infer') self sensor_data mode
  = diagnose rt self sensor_data mode.
Proof.
  intros H. unfold diagnose.
  assert (Hres :
    (if String.eqb (effective_mode mode) "simultaneous"
     then run_simultaneous_inference (with_infer rt infer') self
            (prepare_sensor_data sensor_data)
     else run_sequential_inference (with_infer rt infer') self
            (prepare_sensor_data sensor_data))
    = (if String.eqb (effective_mode mode) "simultaneous"
       then run_simultaneous_inference rt self (prepare_sensor_data sensor_data)
       else run_sequential_inference rt self (prepare_sensor_data sensor_data))).
  { destruct (String.eqb (effective_mode mode) "simultaneous").
    - rewrite !run_simultaneous_inference_tabulate.
      change (next_writer (with_infer rt infer')) with (next_writer rt).
      change (total_elapsed_ms (with_infer rt infer'))
        with (total_elapsed_ms rt).
      unfold tabulate. apply map_ext. intros name.
      now rewrite thread_entry_with_infer by auto.
    - rewrite !run_sequential_inference_tabulate.
      unfold tabulate. apply map_ext. intros name.
      now rewrite sequential_entry_with_infer by auto. }
  fold (effective_mode mode). now rewrite Hres.
Qed.

Lemma sample_infer_other_agrees (name : string) :
  is_loaded partial_diagnostics name = true ->
  Dict.mem (network_groups partial_diagnostics) name = true ->
  sample_infer_other name (prepare_sensor_data [])
  = infer sample_runtime name (prepare_sensor_data []).
Proof.
  intros Hl _. unfold sample_infer_other.
  destruct (String.eqb_spec name "vulcan") as [->|Hne]; [|reflexivity].
  vm_compute in Hl. discriminate.
Defined.

Lemma backend_consulted_for_loaded_only_witness :
  diagnose (with_infer sample_runtime sample_infer_other) partial_diagnostics
           [] (Some "simultaneous")
  = diagnose sample_runtime partial_diagnostics [] (Some "simultaneous").
Proof.
  exact (backend_consulted_for_loaded_only sample_runtime partial_diagnostics
           [] (Some "simultaneous") sample_infer_other
           sample_infer_other_agrees).
Defined.

(** ** The utilisation estimate *)

Lemma fmax_bounds (a b : Q) :
  (a <= fmax a b)%Q /\ (b <= fmax a b)%Q
  /\ forall c, (a <= c)%Q -> (b <= c)%Q -> (fmax a b <= c)%Q.
Proof.
  unfold fmax. destruct (Qltb a b) eqn:E.
  - apply Qltb_lt in E. split; [now apply Qlt_le_weak|].
    split; [apply Qle_refl|auto].
  - apply Qltb_ge in E. split; [apply Qle_refl|]. split; [exact E|auto].
Qed.

Lemma int_of_nonneg (x : Q) : (0 <= x)%Q -> (0 <= int_of x)%Z.
Proof.
  intros H. unfold int_of. apply Z.quot_pos; [|lia].
  unfold Qle in H. cbn in H. lia.
Qed.

(** X14.  For a power reading that is absent or not negative, the
    estimate of the [status] command stays in range: the utilisation is
    between 0 and 100 and the throughput between 0 and 26; when an
    inference process is running they are at least 15 and 3.9; and with no
    usable reading and no running process both are 0. *)
Theorem estimate_utilization_bounds (fl : FloatOps) (power : option Q)
  (pgrep : option bool) :
  sound_rounding fl ->
  (forall p, power = Some p -> (0 <= p)%Q) ->
  (0 <= fst (estimate_utilization fl power pgrep) <= 100)%Z
  /\ (0 <= snd (estimate_utilization fl power pgrep))%Q
  /\ (snd (estimate_utilization fl power pgrep) <= 26)%Q
  /\ (pgrep = Some true ->
      (15 <= fst (estimate_utilization fl power pgrep))%Z
      /\ (39#10 <= snd (estimate_utilization fl power pgrep))%Q)
  /\ (power_truthy power = false -> pgrep <> Some true ->
      estimate_utilization fl power pgrep = (0%Z, 0%Q)).
Proof.
  intros (Hdiv0 & Hdiv1 & Hmul0 & Hmul1 & Hr0 & Hr26) Hpow.
  assert (Hbase : exists u t,
             (match power with
              | Some p =>
                  if power_truthy power then
                    (Z.min 100 (int_of (fmul fl (fdiv fl p (5#2)) 100)),
                     fround1 fl
                       (fmul fl
                          (fdiv fl
                             (inject_Z
                                (Z.min 100
                                   (int_of (fmul fl (fdiv fl p (5#2)) 100))))
                             100) 26))
                  else (0%Z, 0%Q)
              | None => (0%Z, 0%Q)
              end) = (u, t)
             /\ (0 <= u <= 100)%Z /\ (0 <= t)%Q /\ (t <= 26)%Q
             /\ (power_truthy power = false -> u = 0%Z /\ t = 0%Q)).
  { destruct power as [p|]; [|exists 0%Z, 0%Q; repeat split; lia || easy].
    destruct (power_truthy (Some p));
      [|exists 0%Z, 0%Q; repeat split; lia || easy].
    set (u := Z.min 100 (int_of (fmul fl (fdiv fl p (5#2)) 100))).
    assert (Hu : (0 <= u <= 100)%Z).
    { subst u. split; [|apply Z.le_min_l].
      apply Z.min_glb; [lia|]. apply int_of_nonneg.
      apply Hmul0; [|easy]. apply Hdiv0; [|easy]. now apply Hpow. }
    assert (Hq0 : (0 <= inject_Z u)%Q).
    { change 0%Q with (inject_Z 0). rewrite <- Zle_Qle. lia. }
    assert (Hq1 : (inject_Z u <= 100)%Q).
    { change 100%Q with (inject_Z 100). rewrite <- Zle_Qle. lia. }
    eexists _, _. split; [reflexivity|]. split; [exact Hu|]. split; [|split].
    - apply Hr0. apply Hmul0; [|easy]. apply Hdiv0; [exact Hq0|easy].
    - apply Hr26. apply Hmul1; [|easy]. apply Hdiv1; [exact Hq1|easy].
    - discriminate. }
  destruct Hbase as (u & t & Hb & Hu & Ht0 & Ht26 & Hzero).
  unfold estimate_utilization. rewrite Hb. clear Hb.
  destruct (fmax_bounds t (39#10)) as (Hm1 & Hm2 & Hm3).
  destruct pgrep as [[|]|]; cbn [fst snd].
  - split; [lia|]. split; [eapply Qle_trans; [exact Ht0|exact Hm1]|].
    split; [apply Hm3; [exact Ht26|easy]|].
    split; [intros _; split; [lia|exact Hm2]|].
    intros _ Hne. congruence.
  - split; [lia|]. split; [exact Ht0|]. split; [exact Ht26|].
    split; [discriminate|].
    intros Hz _. destruct (Hzero Hz) as [-> ->]. reflexivity.
  - split; [lia|]. split; [exact Ht0|]. split; [exact Ht26|].
    split; [discriminate|].
    intros Hz _. destruct (Hzero Hz) as [-> ->]. reflexivity.
Qed.

Lemma exact_ops_sound : sound_rounding exact_ops.
Proof.
  unfold sound_rounding, exact_ops. cbn [fdiv fmul fround1].
  split; [|split; [|split; [|split; [|split]]]].
  - intros a b Ha Hb. apply Qle_shift_div_l; [exact Hb|].
    now rewrite Qmult_0_l.
  - intros a b Hab Hb. apply Qle_shift_div_r; [exact Hb|].
    now rewrite Qmult_1_l.
  - intros a c Ha Hc. now apply Qmult_le_0_compat.
  - intros a c Ha Hc. rewrite <- (Qmult_1_l c) at 2.
    now apply Qmult_le_compat_r.
  - intros x Hx. exact Hx.
  - intros x Hx. exact Hx.
Defined.

Lemma estimate_utilization_bounds_witness :
  (0 <= fst (estimate_utilization exact_ops (Some (7#10)) (Some false)) <= 100)%Z
  /\ (snd (estimate_utilization exact_ops (Some (7#10)) (Some false)) <= 26)%Q.
Proof.
  destruct (estimate_utilization_bounds exact_ops (Some (7#10)) (Some false)
              exact_ops_sound)
    as (Hu & _ & Ht & _).
  - intros p Hp. injection Hp as <-. unfold Qle. cbn. lia.
  - split; [exact Hu|exact Ht].
Defined.

(** Sample readings with exact arithmetic; a negative reading is not
    clamped from below. *)
Example estimate_utilization_sample :
  estimate_utilization exact_ops (Some (7#10)) (Some false) = (28%Z, 728#100)
  /\ estimate_utilization exact_ops (Some (1#10)) (Some true) = (15%Z, 39#10)
  /\ estimate_utilization exact_ops (Some 4) None = (100%Z, 2600#100)
  /\ estimate_utilization exact_ops (Some (-1)) (Some false)
     = ((-40)%Z, -1040#100)
  /\ estimate_utilization exact_ops None (Some false) = (0%Z, 0%Q).
Proof. repeat split; vm_compute; reflexivity. Qed.

(** ** Device status *)

Lemma initialize_target pf :
  target (snd (initialize pf new_diagnostics)) = vdevice_available pf.
Proof.
  destruct (vdevice_available pf) eqn:Hv.
  - now rewrite (initialize_state pf Hv).
  - unfold initialize. now rewrite Hv.
Qed.

(** X15.  After [initialize], [get_device_status] reports the device
    offline exactly when the device could not be created or the
    temperature probe raises; otherwise it reports "Hailo-8" online with
    the probe reading, or no temperature when there is no probe.  Before
    [initialize] it reports offline. *)
Theorem device_status_after_initialize pf probe :
  (get_device_status (snd (initialize pf new_diagnostics)) probe = StatusOffline
   <-> vdevice_available pf = false \/ probe = ProbeRaises)
  /\ (forall device_name temperature,
         get_device_status (snd (initialize pf new_diagnostics)) probe
         = StatusOnline device_name temperature ->
         device_name = "Hailo-8"
         /\ temperature = match probe with
                          | ProbeReturns reading => Some reading
                          | _ => None
                          end)
  /\ get_device_status new_diagnostics probe = StatusOffline.
Proof.
  unfold get_device_status. rewrite initialize_target.
  split; [|split; [|reflexivity]].
  - destruct (vdevice_available pf), probe; split; intros H;
      try reflexivity; try discriminate; auto;
      destruct H as [H|H]; discriminate.
  - intros device_name temperature.
    destruct (vdevice_available pf), probe; intros H; try discriminate;
      injection H as <- <-; auto.
Qed.

(** ** The tiers in terms of votes *)

Lemma consensus_of_compare (results : Dict.t ModelResult) (a b : positive) :
  success_count results <> 0%nat ->
  Qgtb (consensus_of results) (Zpos a # b)
  = (Zpos a * Z.of_nat (success_count results)
     <? Zpos b * Z.of_nat (fault_count results))%Z.
Proof.
  intros Hn. unfold consensus_of.
  destruct (success_count results) as [|n]; [congruence|].
  set (v := Z.of_nat (fault_count results)).
  destruct (Zpos a * Z.of_nat (S n) <? Zpos b * v)%Z eqn:E.
  - apply Z.ltb_lt in E. apply Qltb_lt.
    change (Z.of_nat (S n)) with (Zpos (Pos.of_succ_nat n)) in *.
    unfold Qlt, Qdiv, Qmult, Qinv, inject_Z. cbn -[Z.mul]. lia.
  - apply Z.ltb_ge in E. apply Qltb_ge.
    change (Z.of_nat (S n)) with (Zpos (Pos.of_succ_nat n)) in *.
    unfold Qle, Qdiv, Qmult, Qinv, inject_Z. cbn -[Z.mul]. lia.
Qed.

(** X18.  The tiers in whole numbers.  With [n] results that carry a
    confidence, [v] of them flagging a fault: no such result gives "Unable
    to complete diagnosis" with consensus 0; otherwise the verdict is a
    "FAULT DETECTED: ..." one when [10 v > 7 n], the monitoring one when
    [3 n < 10 v <= 7 n], and "System operating normally" when
    [10 v <= 3 n]. *)
Theorem verdict_by_votes (results : Dict.t ModelResult) out :
  aggregate_diagnoses results = Some out ->
  (success_count results = 0%nat ->
   out = mkConsensus "Unable to complete diagnosis" 0)
  /\ (success_count results <> 0%nat ->
      (7 * Z.of_nat (success_count results)
       < 10 * Z.of_nat (fault_count results))%Z ->
      exists d, final_diagnosis out = ("FAULT DETECTED: " ++ d)%string)
  /\ (success_count results <> 0%nat ->
      (3 * Z.of_nat (success_count results)
       < 10 * Z.of_nat (fault_count results)
       <= 7 * Z.of_nat (success_count results))%Z ->
      final_diagnosis out = "Potential issue detected - monitoring recommended")
  /\ (success_count results <> 0%nat ->
      (10 * Z.of_nat (fault_count results)
       <= 3 * Z.of_nat (success_count results))%Z ->
      final_diagnosis out = "System operating normally").
Proof.
  intros H. rewrite aggregate_diagnoses_cases in H.
  destruct (success_count results =? 0)%nat eqn:E0.
  { apply Nat.eqb_eq in E0. injection H as <-.
    repeat split; intros; congruence. }
  apply Nat.eqb_neq in E0.
  rewrite (consensus_of_compare results 7 10 E0) in H.
  rewrite (consensus_of_compare results 3 10 E0) in H.
  split; [congruence|].
  destruct (Z.ltb_spec (7 * Z.of_nat (success_count results))
                       (10 * Z.of_nat (fault_count results))) as [H7|H7].
  - destruct (fault_flagged results) as [|f fs] eqn:Ef.
    + exfalso.
      assert (Hv : fault_count results <> 0%nat) by lia.
      apply fault_votes_flagged in Hv. congruence.
    + destruct (diagnosis (snd (max_by entry_confidence f fs))) as [d|];
        [|discriminate].
      injection H as <-. cbn [final_diagnosis].
      split; [intros; now exists d|]. split; intros; lia.
  - destruct (Z.ltb_spec (3 * Z.of_nat (success_count results))
                         (10 * Z.of_nat (fault_count results))) as [H3|H3];
      injection H as <-; cbn [final_diagnosis];
      (split; [intros; lia|]); split; intros; try reflexivity; lia.
Qed.

Lemma verdict_by_votes_witness :
  exists out d,
    aggregate_diagnoses sample_results = Some out
    /\ final_diagnosis out = ("FAULT DETECTED: " ++ d)%string.
Proof.
  assert (H : exists out, aggregate_diagnoses sample_results = Some out).
  { eexists. vm_compute. reflexivity. }
  destruct H as [out H].
  destruct (verdict_by_votes sample_results out H) as (_ & Htop & _).
  destruct Htop as [d Hd].
  - vm_compute. discriminate.
  - vm_compute. reflexivity.
  - exists out, d. auto.
Defined.

(** ** When the aggregator raises *)

(** X19.  [aggregate_diagnoses] raises [KeyError] exactly when the
    consensus is above 0.7 and the fault-flagged entry of maximal
    confidence (the first one among equals, an absent confidence counting
    as 0) has no diagnosis. *)
Theorem aggregate_raises_iff (results : Dict.t ModelResult) :
  aggregate_diagnoses results = None
  <-> success_count results <> 0%nat
      /\ (7 * Z.of_nat (success_count results)
          < 10 * Z.of_nat (fault_count results))%Z
      /\ exists f fs,
           fault_flagged results = f :: fs
           /\ diagnosis (snd (max_by entry_confidence f fs)) = None.
Proof.
  rewrite aggregate_diagnoses_cases.
  destruct (success_count results =? 0)%nat eqn:E0.
  { apply Nat.eqb_eq in E0. split; [discriminate|]. intros [H _]. congruence. }
  apply Nat.eqb_neq in E0.
  rewrite (consensus_of_compare results 7 10 E0).
  rewrite (consensus_of_compare results 3 10 E0).
  destruct (Z.ltb_spec (7 * Z.of_nat (success_count results))
                       (10 * Z.of_nat (fault_count results))) as [H7|H7].
  - destruct (fault_flagged results) as [|f fs] eqn:Ef.
    + split; [discriminate|]. intros (_ & _ & f & fs & Hf & _). discriminate.
    + destruct (diagnosis (snd (max_by entry_confidence f fs))) as [d|] eqn:Ed.
      * split; [discriminate|].
        intros (_ & _ & f' & fs' & Hf & Hd). injection Hf as <- <-. congruence.
      * split; [|reflexivity]. intros _.
        split; [exact E0|]. split; [exact H7|]. now exists f, fs.
  - split.
    + destruct (_ <? _)%Z; discriminate.
    + intros (_ & Hlt & _). lia.
Qed.

Example aggregate_raises_on_malformed :
  aggregate_diagnoses malformed_results = None
  /\ Forall (fun kv => is_model_result (snd kv) = false) malformed_results.
Proof. split; [reflexivity|repeat constructor]. Qed.

(** * The consensus contract *)

(** ** Counting on the fields *)

Lemma spec_valid_count_eq (results : Dict.t ModelResult) :
  spec_valid_count results = success_count results.
Proof.
  unfold spec_valid_count, success_count, Dict.values.
  induction results as [|[k r] results IH]; simpl; [reflexivity|].
  unfold spec_is_valid at 1, has_confidence at 1. simpl.
  destruct (confidence r); simpl; now rewrite IH.
Qed.

Lemma spec_fault_votes_eq (results : Dict.t ModelResult) :
  spec_fault_votes results = fault_count results.
Proof.
  unfold spec_fault_votes, fault_count, Dict.values.
  induction results as [|[k r] results IH]; simpl; [reflexivity|].
  unfold spec_is_valid at 1, spec_is_fault at 1, has_confidence at 1. simpl.
  destruct (confidence r); simpl; [|exact IH].
  unfold get_fault_detected at 1.
  destruct (fault_detected r) as [[|]|]; simpl; now rewrite IH.
Qed.

Lemma spec_consensus_eq (results : Dict.t ModelResult) :
  spec_consensus results = consensus_of results.
Proof.
  unfold spec_consensus, consensus_of.
  now rewrite spec_valid_count_eq, spec_fault_votes_eq.
Qed.

Lemma success_count_zero (results : Dict.t ModelResult) :
  success_count results = 0%nat
  <-> forall kv, In kv results -> confidence (snd kv) = None.
Proof.
  unfold success_count, Dict.values.
  induction results as [|[k r] results IH]; simpl.
  - split; [intros _ kv []|reflexivity].
  - unfold has_confidence at 1.
    destruct (confidence r) as [c|] eqn:Ec; simpl.
    + split; [discriminate|]. intros H.
      specialize (H (k, r) (or_introl eq_refl)). simpl in H. congruence.
    + rewrite IH. split.
      * intros H kv [<-|Hin]; [exact Ec|now apply H].
      * intros H kv Hin. apply H. now right.
Qed.

(** ** The first maximum among the flagged entries *)

Lemma filter_split {A} (g : A -> bool) (l a b : list A) (x : A) :
  filter g l = a ++ x :: b ->
  exists l1 l2,
    l = l1 ++ x :: l2 /\ filter g l1 = a /\ filter g l2 = b /\ g x = true.
Proof.
  revert a. induction l as [|y l IH]; intros a H; simpl in H.
  - destruct a; discriminate.
  - destruct (g y) eqn:Ey.
    + destruct a as [|a0 a]; simpl in H.
      * injection H as -> Hb. exists [], l. auto.
      * injection H as -> Hr. destruct (IH a Hr) as (l1 & l2 & -> & H1 & H2 & Hx).
        exists (a0 :: l1), l2. simpl. rewrite Ey, H1. auto.
    + destruct (IH a H) as (l1 & l2 & -> & H1 & H2 & Hx).
      exists (y :: l1), l2. simpl. rewrite Ey. auto.
Qed.

Lemma get_fault_detected_field (r : ModelResult) :
  get_fault_detected r = true <-> fault_detected r = Some true.
Proof.
  unfold get_fault_detected.
  destruct (fault_detected r) as [[|]|]; split; congruence.
Qed.

Lemma first_max_primary_fault (results : Dict.t ModelResult) best :
  Forall (fun kv => is_model_result (snd kv) = true) results ->
  first_max entry_confidence (fault_flagged results) best ->
  exists c d,
    spec_primary_fault results best c /\ diagnosis (snd best) = Some d.
Proof.
  intros Hwf (a & b & Hsplit & Ha & Hb).
  destruct (filter_split _ _ _ _ _ Hsplit) as (l1 & l2 & -> & H1 & H2 & Hx).
  apply get_fault_detected_field in Hx.
  assert (Hbest : is_model_result (snd best) = true).
  { rewrite Forall_forall in Hwf. apply (Hwf best).
    apply in_or_app. right. now left. }
  unfold is_model_result, is_success, is_error in Hbest.
  rewrite Hx in Hbest.
  destruct (confidence (snd best)) as [c|] eqn:Ec; [|discriminate].
  destruct (diagnosis (snd best)) as [d|] eqn:Ed; [|discriminate].
  exists c, d. split; [|reflexivity].
  exists l1, l2. split; [reflexivity|]. split; [exact Hx|].
  split; [exact Ec|].
  assert (Hkey : entry_confidence best = c).
  { unfold entry_confidence, get_confidence. now rewrite Ec. }
  rewrite Hkey in Ha, Hb. rewrite Forall_forall in Ha, Hb.
  split; intros kv c' Hin Hf Hc.
  - assert (Hk : entry_confidence kv = c').
    { unfold entry_confidence, get_confidence. now rewrite Hc. }
    rewrite <- Hk. apply Ha. rewrite <- H1. apply filter_In.
    split; [exact Hin|]. now apply get_fault_detected_field.
  - assert (Hk : entry_confidence kv = c').
    { unfold entry_confidence, get_confidence. now rewrite Hc. }
    rewrite <- Hk. apply Hb. rewrite <- H2. apply filter_In.
    split; [exact Hin|]. now apply get_fault_detected_field.
Qed.

Lemma fault_flagged_nil (results : Dict.t ModelResult) :
  fault_flagged results = [] ->
  forall kv, In kv results -> fault_detected (snd kv) <> Some true.
Proof.
  intros He kv Hin Hf.
  assert (H : In kv (fault_flagged results)).
  { apply filter_In. split; [exact Hin|]. now apply get_fault_detected_field. }
  rewrite He in H. exact H.
Qed.

(** ** The policy *)

(** C1.  On a mapping of model results, read on the fields of the
    records: when no result carries a confidence, [aggregate_diagnoses]
    returns the diagnosis "Unable to complete diagnosis" with consensus 0;
    otherwise it returns a verdict whose consensus is the number of
    results with a confidence and [fault_detected] true over the number
    of results with a confidence, a value between 0 and 1, and whose
    diagnosis follows the three tiers: above 0.7, "FAULT DETECTED: " and
    the diagnosis of the result with [fault_detected] true of maximal
    confidence, the first in iteration order among equals (or "Multiple
    system issues detected" when no result has [fault_detected] true);
    above 0.3 and at most 0.7, "Potential issue detected - monitoring
    recommended"; at most 0.3, "System operating normally". *)
Theorem aggregate_diagnoses_policy (results : Dict.t ModelResult) :
  Forall (fun kv => is_model_result (snd kv) = true) results ->
  ((forall kv, In kv results -> confidence (snd kv) = None) ->
   aggregate_diagnoses results
   = Some (mkConsensus "Unable to complete diagnosis" 0))
  /\ ((exists kv, In kv results /\ confidence (snd kv) <> None) ->
      exists out,
        aggregate_diagnoses results = Some out
        /\ consensus out = spec_consensus results
        /\ (0 <= consensus out /\ consensus out <= 1)%Q
        /\ ((7#10 < consensus out)%Q ->
            (exists best c d,
               spec_primary_fault results best c
               /\ diagnosis (snd best) = Some d
               /\ final_diagnosis out = ("FAULT DETECTED: " ++ d)%string)
            \/ ((forall kv, In kv results ->
                            fault_detected (snd kv) <> Some true)
                /\ final_diagnosis out = "Multiple system issues detected"))
        /\ ((3#10 < consensus out)%Q /\ (consensus out <= 7#10)%Q ->
            final_diagnosis out
            = "Potential issue detected - monitoring recommended")
        /\ ((consensus out <= 3#10)%Q ->
            final_diagnosis out = "System operating normally")).
Proof.
  intros Hwf. rewrite aggregate_diagnoses_cases. split.
  { intros Hnone. apply success_count_zero in Hnone. now rewrite Hnone. }
  intros (kv0 & Hin0 & Hc0).
  assert (Hn : success_count results <> 0%nat).
  { intros H0. rewrite success_count_zero in H0. exact (Hc0 (H0 kv0 Hin0)). }
  destruct (success_count results =? 0)%nat eqn:E0;
    [apply Nat.eqb_eq in E0; contradiction|].
  rewrite spec_consensus_eq.
  set (c := consensus_of results).
  assert (Hb : (0 <= c /\ c <= 1)%Q).
  { apply consensus_bounds; [apply filter_length_le|].
    change (0 < success_count results)%nat. lia. }
  destruct (Qgtb c (7#10)) eqn:E7.
  - apply Qltb_lt in E7.
    destruct (fault_flagged results) as [|f fs] eqn:Ef.
    + exists (mkConsensus "Multiple system issues detected" c). simpl.
      repeat split; try apply Hb.
      * intros _. right. split; [|reflexivity]. now apply fault_flagged_nil.
      * intros [_ Hle]. exfalso. exact (Qlt_not_le _ _ E7 Hle).
      * intros Hle. exfalso. exact (tier_gap _ E7 Hle).
    + pose proof (max_by_first_max entry_confidence f fs) as Hfm.
      rewrite <- Ef in Hfm.
      set (best := max_by entry_confidence f fs) in *.
      destruct (first_max_primary_fault results best Hwf Hfm)
        as (cb & d & Hpf & Hd).
      rewrite Hd.
      exists (mkConsensus ("FAULT DETECTED: " ++ d)%string c). simpl.
      repeat split; try apply Hb.
      * intros _. left. exists best, cb, d. auto.
      * intros [_ Hle]. exfalso. exact (Qlt_not_le _ _ E7 Hle).
      * intros Hle. exfalso. exact (tier_gap _ E7 Hle).
  - apply Qltb_ge in E7.
    destruct (Qgtb c (3#10)) eqn:E3.
    + apply Qltb_lt in E3.
      exists (mkConsensus "Potential issue detected - monitoring recommended" c).
      simpl. repeat split; try apply Hb.
      * intros Hlt. exfalso. exact (Qlt_not_le _ _ Hlt E7).
      * intros Hle. exfalso. exact (Qlt_not_le _ _ E3 Hle).
    + apply Qltb_ge in E3.
      exists (mkConsensus "System operating normally" c).
      simpl. repeat split; try apply Hb.
      * intros Hlt. exfalso. exact (Qlt_not_le _ _ Hlt E7).
      * intros [Hlt _]. exfalso. exact (Qlt_not_le _ _ Hlt E3).
Qed.

Lemma aggregate_diagnoses_policy_witness :
  Forall (fun kv => is_model_result (snd kv) = true) sample_results
  /\ aggregate_diagnoses sample_results
     = Some (mkConsensus "FAULT DETECTED: Refrigeration issue detected" (3#4))
  /\ exists out,
       aggregate_diagnoses sample_results = Some out
       /\ (consensus out == 3#4)%Q
       /\ final_diagnosis out = "FAULT DETECTED: Refrigeration issue detected".
Proof.
  assert (Hwf : Forall (fun kv => is_model_result (snd kv) = true)
                       sample_results).
  { repeat constructor. }
  split; [exact Hwf|]. split; [vm_compute; reflexivity|].
  destruct (aggregate_diagnoses_policy sample_results Hwf) as [_ H].
  destruct H as (out & Hagg & Hc & _ & Htop & _ & _).
  { exists ("aquilo", mkResult (Some true) (Some (8#10))
                        (Some "Electrical fault detected") None None None).
    split; [simpl; auto|discriminate]. }
  exists out. split; [exact Hagg|].
  assert (Hv : (consensus out == 3#4)%Q).
  { rewrite Hc. vm_compute. reflexivity. }
  split; [exact Hv|].
  destruct Htop as [(best & c & d & Hpf & Hd & Hf)|[Hno _]].
  { rewrite Hv. reflexivity. }
  - destruct Hpf as (l1 & l2 & Hs & Hfd & Hcf & Hbefore & Hafter).
    unfold sample_results in Hs.
    destruct l1 as [|x1 [|x2 [|x3 [|x4 [|x5 l1]]]]]; simpl in Hs.
    + injection Hs as <- _. discriminate Hfd.
    + injection Hs as _ <- <-. simpl in Hcf. injection Hcf as <-.
      exfalso.
      assert (Hle : (9#10 <= 8#10)%Q).
      { apply (Hafter ("boreas", mkResult (Some true) (Some (9#10))
                         (Some "Refrigeration issue detected") None None None));
          simpl; auto. }
      exact (Hle eq_refl).
    + injection Hs as _ _ <- _. simpl in Hd. injection Hd as <-. exact Hf.
    + injection Hs as _ _ <- <- _. simpl in Hcf. injection Hcf as <-.
      exfalso.
      assert (Hlt : (9#10 < 9#10)%Q).
      { apply (Hbefore ("boreas", mkResult (Some true) (Some (9#10))
                          (Some "Refrigeration issue detected") None None None));
          simpl; auto. }
      discriminate Hlt.
    + injection Hs as _ _ _ _ <- _. discriminate Hfd.
    + injection Hs as _ _ _ _ _ Hs. destruct l1; discriminate Hs.
  - exfalso.
    apply (Hno ("aquilo", mkResult (Some true) (Some (8#10))
                  (Some "Electrical fault detected") None None None));
      simpl; auto.
Defined.

(** * The order of the entries *)

Lemma flagged_has_confidence (r : ModelResult) :
  is_model_result r = true -> fault_detected r = Some true ->
  exists c, confidence r = Some c /\ get_confidence r = c.
Proof.
  unfold is_model_result, is_success, is_error, get_confidence.
  intros Hwf Hf. rewrite Hf in Hwf.
  destruct (confidence r) as [c|]; [eauto|discriminate].
Qed.

Lemma fault_flagged_field (results : Dict.t ModelResult) kv :
  In kv (fault_flagged results)
  <-> In kv results /\ fault_detected (snd kv) = Some true.
Proof.
  unfold fault_flagged. rewrite filter_In.
  now rewrite get_fault_detected_field.
Qed.

(** X6.  The order of the entries matters only for ties.  On two
    mappings of model results with the same entries in different orders,
    the consensus is the same, the fault votes over the results carrying
    a confidence; up to a consensus of 0.7 the whole verdict is the same;
    above it each verdict names a result whose [fault_detected] field is
    true, and the two results named have the same confidence, the largest
    among the results whose [fault_detected] field is true. *)
Theorem aggregate_order_insensitive (r1 r2 : Dict.t ModelResult) :
  Forall (fun kv => is_model_result (snd kv) = true) r1 ->
  Permutation r1 r2 ->
  exists out1 out2,
    aggregate_diagnoses r1 = Some out1
    /\ aggregate_diagnoses r2 = Some out2
    /\ consensus out1 = consensus out2
    /\ ((consensus out1 <= 7#10)%Q -> out1 = out2)
    /\ ((7#10 < consensus out1)%Q ->
        consensus out1 = spec_consensus r1
        /\ exists kv1 kv2 d1 d2 c1 c2,
             In kv1 r1 /\ In kv2 r1
             /\ fault_detected (snd kv1) = Some true
             /\ fault_detected (snd kv2) = Some true
             /\ confidence (snd kv1) = Some c1
             /\ confidence (snd kv2) = Some c2
             /\ diagnosis (snd kv1) = Some d1
             /\ diagnosis (snd kv2) = Some d2
             /\ final_diagnosis out1 = ("FAULT DETECTED: " ++ d1)%string
             /\ final_diagnosis out2 = ("FAULT DETECTED: " ++ d2)%string
             /\ (c1 == c2)%Q
             /\ (forall kv c,
                    In kv r1 -> fault_detected (snd kv) = Some true ->
                    confidence (snd kv) = Some c -> (c <= c1)%Q)).
Proof.
  intros Hwf Hperm.
  assert (Hwf2 : Forall (fun kv => is_model_result (snd kv) = true) r2).
  { eapply Permutation_Forall; eauto. }
  destruct (aggregate_diagnoses_total r1 Hwf) as [out1 H1].
  destruct (aggregate_diagnoses_total r2 Hwf2) as [out2 H2].
  pose proof (success_count_perm _ _ Hperm) as Hs.
  pose proof (fault_count_perm _ _ Hperm) as Hf.
  assert (Hc : consensus out1 = consensus out2).
  { rewrite (aggregate_consensus _ _ H1), (aggregate_consensus _ _ H2).
    unfold consensus_of. now rewrite Hs, Hf. }
  exists out1, out2. split; [exact H1|]. split; [exact H2|].
  split; [exact Hc|]. split.
  - intros Hle.
    pose proof (aggregate_counts_agree r1 r2 Hs Hf
                  (consensus_low_tier _ _ H1 Hle)) as Heq.
    rewrite H1, H2 in Heq. now injection Heq.
  - intros Htop. split.
    { rewrite (aggregate_consensus _ _ H1), spec_consensus_eq.
      destruct (success_count r1 =? 0)%nat eqn:E0; [|reflexivity].
      exfalso. rewrite (aggregate_consensus _ _ H1), E0 in Htop.
      discriminate Htop. }
    destruct (aggregate_top_tier _ _ H1 Htop)
      as (kv1 & d1 & Hin1 & Hd1 & Hf1 & Hmax1).
    assert (Htop2 : (7#10 < consensus out2)%Q) by now rewrite <- Hc.
    destruct (aggregate_top_tier _ _ H2 Htop2)
      as (kv2 & d2 & Hin2 & Hd2 & Hf2 & Hmax2).
    assert (Hpf : Permutation (fault_flagged r1) (fault_flagged r2)).
    { unfold fault_flagged. now apply filter_perm. }
    assert (Hin2' : In kv2 (fault_flagged r1)).
    { eapply Permutation_in; [symmetry; exact Hpf|exact Hin2]. }
    assert (Hin1' : In kv1 (fault_flagged r2)).
    { eapply Permutation_in; [exact Hpf|exact Hin1]. }
    pose proof (Hmax1 kv2 Hin2') as Hle21.
    pose proof (Hmax2 kv1 Hin1') as Hle12.
    apply fault_flagged_field in Hin1. destruct Hin1 as [Hr1 Hfd1].
    apply fault_flagged_field in Hin2'. destruct Hin2' as [Hr2 Hfd2].
    rewrite Forall_forall in Hwf.
    destruct (flagged_has_confidence _ (Hwf kv1 Hr1) Hfd1) as (c1 & Hc1 & Hg1).
    destruct (flagged_has_confidence _ (Hwf kv2 Hr2) Hfd2) as (c2 & Hc2 & Hg2).
    unfold entry_confidence in Hle21, Hle12, Hmax1.
    rewrite Hg1, Hg2 in Hle21, Hle12.
    exists kv1, kv2, d1, d2, c1, c2.
    repeat (split; [assumption|]).
    split; [now apply Qle_antisym|].
    intros kv c Hin Hfd Hcf.
    assert (Hflag : In kv (fault_flagged r1)).
    { apply fault_flagged_field. now split. }
    specialize (Hmax1 kv Hflag). rewrite Hg1 in Hmax1.
    unfold get_confidence in Hmax1. now rewrite Hcf in Hmax1.
Qed.

Lemma aggregate_order_insensitive_witness :
  exists out1 out2,
    aggregate_diagnoses sample_results = Some out1
    /\ aggregate_diagnoses (rev sample_results) = Some out2
    /\ consensus out1 = consensus out2
    /\ final_diagnosis out1 = "FAULT DETECTED: Refrigeration issue detected"
    /\ final_diagnosis out2 = "FAULT DETECTED: Flow restriction detected".
Proof.
  destruct (aggregate_order_insensitive sample_results (rev sample_results))
    as (out1 & out2 & H1 & H2 & Hc & _).
  - repeat constructor.
  - apply Permutation_rev.
  - exists out1, out2.
    split; [exact H1|]. split; [exact H2|]. split; [exact Hc|].
    vm_compute in H1. vm_compute in H2.
    injection H1 as <-. injection H2 as <-. split; reflexivity.
Defined.

(** * The feature vector *)

Lemma cast_all_nth {R F} (cast : R -> Outcome F) (l : list R) (v : list F) :
  cast_all cast l = Returned v ->
  length v = length l
  /\ forall i x, nth_error l i = Some x ->
                 exists f, cast x = Returned f /\ nth_error v i = Some f.
Proof.
  revert v. induction l as [|y l IH]; intros v; simpl.
  - intros [= <-]. split; [reflexivity|]. intros [|i] x; discriminate.
  - destruct (cast y) as [f|m] eqn:Ey; [|discriminate].
    destruct (cast_all cast l) as [fs|m]; [|discriminate].
    intros [= <-]. destruct (IH fs eq_refl) as [Hlen Hnth].
    split; [simpl; now rewrite Hlen|].
    intros [|i] x; simpl.
    + intros [= <-]. eauto.
    + apply Hnth.
Qed.

(** On exact numbers the array is the vector of the first part. *)
Lemma cast_all_returned {R} (l : list R) : cast_all Returned l = Returned l.
Proof.
  induction l as [|x l IH]; simpl; [reflexivity|]. now rewrite IH.
Qed.

Lemma prepare_sensor_data_f32_exact (sensor_data : Dict.t Q) :
  prepare_sensor_data_f32 exact_numeric sensor_data
  = Returned (prepare_sensor_data sensor_data).
Proof.
  unfold prepare_sensor_data_f32. cbn [exact_numeric to_float as_float32].
  apply cast_all_returned.
Qed.

(** X1.  When [prepare_sensor_data] returns, the array has 32 entries.
    Entry [i] below 17 is the [float32] conversion of the reading of the
    [i]-th known key, or of the default of that key when the payload has
    no such key; entries 17 and 18 are the conversions of [float(x)] for
    the readings [x] of [compressor_status] and [fan_status] (by default 0
    and 1); every entry from 19 on is the conversion of 0.0.  This holds
    for any kind of readings and any conversions. *)
Theorem prepare_sensor_data_layout {R F} (num : Numeric R F)
  (sensor_data : Dict.t R) (v : list F) :
  prepare_sensor_data_f32 num sensor_data = Returned v ->
  length v = 32%nat
  /\ (forall i key default,
         (i < 17)%nat ->
         nth_error SENSOR_DEFAULTS i = Some (key, default) ->
         exists f,
           as_float32 num (reading sensor_data key (literal num default))
           = Returned f
           /\ nth_error v i = Some f)
  /\ (forall i key default,
         (17 <= i)%nat ->
         nth_error SENSOR_DEFAULTS i = Some (key, default) ->
         exists x f,
           to_float num (reading sensor_data key (literal num default))
           = Returned x
           /\ as_float32 num x = Returned f
           /\ nth_error v i = Some f)
  /\ (forall i,
         (19 <= i < 32)%nat ->
         exists f,
           as_float32 num (literal num 0%Q) = Returned f
           /\ nth_error v i = Some f).
Proof.
  unfold prepare_sensor_data_f32.
  destruct (to_float num (reading sensor_data "compressor_status"
                            (literal num 0%Q))) as [cs|m] eqn:Ecs;
    [|discriminate].
  destruct (to_float num (reading sensor_data "fan_status"
                            (literal num 1%Q))) as [fs|m] eqn:Efs;
    [|discriminate].
  intros Hv. apply cast_all_nth in Hv. destruct Hv as [Hlen Hnth].
  split; [exact Hlen|]. split; [|split].
  - intros i key default Hi H.
    do 17 (destruct i as [|i];
           [injection H as <- <-; eapply Hnth; reflexivity|]).
    lia.
  - intros i key default Hi H.
    do 17 (destruct i as [|i]; [lia|]).
    destruct i as [|i].
    { injection H as <- <-. rewrite Ecs.
      destruct (Hnth 17%nat cs eq_refl) as (f & Hf & Hn). eauto. }
    destruct i as [|i].
    { injection H as <- <-. rewrite Efs.
      destruct (Hnth 18%nat fs eq_refl) as (f & Hf & Hn). eauto. }
    destruct i; discriminate.
  - intros i [Hlo Hhi].
    do 19 (destruct i as [|i]; [lia|]).
    do 13 (destruct i as [|i]; [eapply Hnth; reflexivity|]).
    lia.
Qed.

Lemma prepare_sensor_data_layout_witness :
  outcome_map (firstn 3)
    (prepare_sensor_data_f32 coarse_numeric [("supply_air_temp", 12345#1000)])
  = Returned [1234#100; 2200#100; 2500#100]
  /\ exists v,
    prepare_sensor_data_f32 coarse_numeric [("supply_air_temp", 12345#1000)]
    = Returned v
    /\ length v = 32%nat
    /\ nth_error v 0 = Some (1234#100)
    /\ nth_error v 4 = Some (150#100)
    /\ nth_error v 18 = Some (100#100)
    /\ nth_error v 31 = Some (0#100).
Proof.
  split; [vm_compute; reflexivity|].
  assert (Hv : exists v,
             prepare_sensor_data_f32 coarse_numeric
               [("supply_air_temp", 12345#1000)] = Returned v).
  { vm_compute. eexists. reflexivity. }
  destruct Hv as [v Hv]. exists v. split; [exact Hv|].
  destruct (prepare_sensor_data_layout coarse_numeric _ v Hv)
    as (Hlen & Hlow & Hstatus & Hpad).
  split; [exact Hlen|]. split; [|split; [|split]].
  - destruct (Hlow 0%nat "supply_air_temp" 20%Q) as (f & Hf & Hn);
      [lia|reflexivity|].
    rewrite Hn. vm_compute in Hf. now injection Hf as <-.
  - destruct (Hlow 4%nat "supply_air_pressure" (3#2)%Q) as (f & Hf & Hn);
      [lia|reflexivity|].
    rewrite Hn. vm_compute in Hf. now injection Hf as <-.
  - destruct (Hstatus 18%nat "fan_status" 1%Q) as (x & f & Hx & Hf & Hn);
      [lia|reflexivity|].
    rewrite Hn. vm_compute in Hx. injection Hx as <-.
    vm_compute in Hf. now injection Hf as <-.
  - destruct (Hpad 31%nat) as (f & Hf & Hn); [lia|].
    rewrite Hn. vm_compute in Hf. now injection Hf as <-.
Defined.

(** * Backend outputs that cannot be converted *)

(** ** The entry of one model *)

Lemma run_model_exn_entry {F} (bk : Backend F) self input_data results model_name :
  run_model_exn bk self input_data results model_name
  = write_returned (entry_exn bk self input_data true) results model_name.
Proof.
  unfold run_model_exn, write_returned, entry_exn.
  destruct (is_loaded self model_name); [|reflexivity].
  destruct (run_inference_exn bk self model_name input_data) as [output|];
    [|reflexivity].
  destruct (fault_prob_exn output); reflexivity.
Qed.

Lemma run_sequential_step_exn_entry {F} (bk : Backend F) self input_data results model_name :
  run_sequential_step_exn bk self input_data results model_name
  = outcome_map (Dict.set results model_name)
      (entry_exn bk self input_data false model_name).
Proof.
  unfold run_sequential_step_exn, entry_exn.
  destruct (is_loaded self model_name); [|reflexivity].
  destruct (run_inference_exn bk self model_name input_data) as [output|];
    [|reflexivity].
  destruct (fault_prob_exn output); reflexivity.
Qed.

Lemma entry_exn_shape {F} (bk : Backend F) self input_data timed model_name r :
  entry_exn bk self input_data timed model_name = Returned r ->
  is_model_result r = true.
Proof.
  unfold entry_exn.
  destruct (is_loaded self model_name); [|now intros [= <-]].
  destruct (run_inference_exn bk self model_name input_data) as [output|];
    [|now intros [= <-]].
  destruct (fault_prob_exn output); [|discriminate].
  now intros [= <-].
Qed.

Lemma entry_exn_raised {F} (bk : Backend F) self input_data timed model_name output message :
  is_loaded self model_name = true ->
  run_inference_exn bk self model_name input_data = Some output ->
  fault_prob_exn output = Raised message ->
  entry_exn bk self input_data timed model_name = Raised message.
Proof.
  intros Hl Hr Hf. unfold entry_exn. now rewrite Hl, Hr, Hf.
Qed.

(** The two modes compute the same entry up to the thread timing, and
    raise together. *)
Lemma entry_exn_timed {F} (bk : Backend F) self input_data model_name :
  entry_exn bk self input_data false model_name
  = outcome_map strip_timing (entry_exn bk self input_data true model_name).
Proof.
  unfold entry_exn.
  destruct (is_loaded self model_name); [|reflexivity].
  destruct (run_inference_exn bk self model_name input_data) as [output|];
    [|reflexivity].
  destruct (fault_prob_exn output); reflexivity.
Qed.

Lemma convertible_iff (output : BackendArray) :
  convertible output = true
  <-> exists fault_prob, fault_prob_exn output = Returned fault_prob.
Proof.
  destruct output as [m|[|n] [x|m]]; simpl; split; intros H;
    try discriminate; eauto; destruct H as [p H]; discriminate.
Qed.

Lemma unconvertible_raises (output : BackendArray) :
  convertible output = false ->
  exists message, fault_prob_exn output = Raised message.
Proof.
  destruct output as [m|[|n] [x|m]]; simpl; eauto; discriminate.
Qed.

Lemma is_loaded_iff self model_name :
  is_loaded self model_name = true
  <-> exists info,
        Dict.get (models self) model_name = Some info /\ loaded info = true.
Proof.
  unfold is_loaded.
  destruct (Dict.get (models self) model_name) as [info|].
  - split; [eauto|]. now intros (info' & [= <-] & H).
  - split; [discriminate|]. intros (info' & H & _). discriminate.
Qed.

Lemma run_inference_exn_call {F} (bk : Backend F) self model_name input_data :
  Dict.mem (network_groups self) model_name = true ->
  run_inference_exn bk self model_name input_data
  = call bk model_name input_data.
Proof. intros H. unfold run_inference_exn. now rewrite H. Qed.

(** ** Partial tables *)

Lemma keys_tabulate_returned {V} (f : string -> Outcome V) names k :
  In k (Dict.keys (tabulate_returned f names)) ->
  In k names /\ exists v, f k = Returned v.
Proof.
  induction names as [|n names IH]; simpl; [intros []|].
  destruct (f n) as [v|m] eqn:En; simpl.
  - intros [<-|Hin]; [split; [now left|now exists v]|].
    destruct (IH Hin) as [H1 H2]. split; [now right|exact H2].
  - intros Hin. destruct (IH Hin) as [H1 H2]. split; [now right|exact H2].
Qed.

Lemma get_tabulate_returned {V} (f : string -> Outcome V) names k :
  Dict.get (tabulate_returned f names) k
  = if in_dec string_dec k names
    then match f k with Returned v => Some v | Raised _ => None end
    else None.
Proof.
  induction names as [|n names IH]; simpl; [reflexivity|].
  destruct (string_dec n k) as [->|Hne].
  - destruct (f k) as [v|m] eqn:Ek; simpl.
    + now rewrite String.eqb_refl.
    + rewrite IH. destruct (in_dec string_dec k names); [|reflexivity].
      now rewrite ?Ek.
  - destruct (f n) as [v|m]; simpl.
    + destruct (String.eqb_spec n k); [contradiction|].
      rewrite IH. now destruct (in_dec string_dec k names).
    + rewrite IH. now destruct (in_dec string_dec k names).
Qed.

Lemma fold_write_returned {V} (f : string -> Outcome V) names
  (init : Dict.t V) :
  NoDup names ->
  (forall k, In k names -> ~ In k (Dict.keys init)) ->
  fold_left (write_returned f) names init = init ++ tabulate_returned f names.
Proof.
  revert init. induction names as [|n names IH]; intros init Hnd Hfresh; simpl.
  - now rewrite app_nil_r.
  - inversion Hnd as [|? ? Hn Hnd']; subst.
    unfold write_returned at 2. destruct (f n) as [v|m].
    + rewrite (keys_set_new init n v) by (apply Hfresh; now left).
      rewrite IH; [now rewrite <- app_assoc|exact Hnd'|].
      intros k Hk. rewrite keys_app. simpl. intros Hin.
      apply in_app_or in Hin. destruct Hin as [Hin|[->|[]]].
      * apply (Hfresh k); [now right|exact Hin].
      * contradiction.
    + apply IH; [exact Hnd'|]. intros k Hk. apply Hfresh. now right.
Qed.

Lemma add_total_time_tabulate_returned t (f : string -> Outcome ModelResult)
  names :
  add_total_time t (tabulate_returned f names)
  = tabulate_returned (fun k => outcome_map (with_total_time t) (f k)) names.
Proof.
  induction names as [|n names IH]; simpl; [reflexivity|].
  destruct (f n) as [r|m]; simpl; [|exact IH].
  fold (add_total_time t (tabulate_returned f names)). rewrite IH.
  unfold with_total_time. now destruct (error r).
Qed.

Lemma tabulate_returned_all {V} (f : string -> Outcome V) (g : string -> V)
  names :
  (forall k, In k names -> f k = Returned (g k)) ->
  tabulate_returned f names = tabulate g names.
Proof.
  induction names as [|n names IH]; intros H; simpl; [reflexivity|].
  rewrite (H n) by now left.
  unfold tabulate in IH. rewrite IH; [reflexivity|].
  intros k Hk. apply H. now right.
Qed.

Lemma Forall_tabulate_returned {V} (f : string -> Outcome V) names
  (P : V -> Prop) :
  (forall k v, f k = Returned v -> P v) ->
  Forall (fun kv => P (snd kv)) (tabulate_returned f names).
Proof.
  intros H. induction names as [|n names IH]; simpl; [constructor|].
  destruct (f n) as [v|m] eqn:En; [|exact IH].
  constructor; [exact (H n v En)|exact IH].
Qed.

(** ** The result mapping of each mode *)

Lemma run_simultaneous_inference_exn_tabulate {F} (bk : Backend F) self input_data :
  run_simultaneous_inference_exn bk self input_data
  = tabulate_returned
      (fun k => outcome_map (with_total_time (total_ms bk))
                  (entry_exn bk self input_data true k))
      (write_order (schedule bk) (length (Dict.keys MODEL_PATHS))
                   (Dict.keys MODEL_PATHS)).
Proof.
  unfold run_simultaneous_inference_exn.
  rewrite join_all_fold.
  rewrite (fold_left_ext _ (write_returned (entry_exn bk self input_data true)))
    by apply run_model_exn_entry.
  rewrite fold_write_returned.
  - apply add_total_time_tabulate_returned.
  - eapply Permutation_NoDup; [|apply model_names_NoDup].
    symmetry. apply write_order_perm. lia.
  - intros k _ [].
Qed.

Lemma run_sequential_loop_exn_cases {F} (bk : Backend F) self input_data names results :
  run_sequential_loop_exn bk self input_data names results
  = match first_raised (entry_exn bk self input_data false) names with
    | Some message => Raised message
    | None =>
        Returned (fold_left (write_returned (entry_exn bk self input_data false))
                            names results)
    end.
Proof.
  revert results. induction names as [|n names IH]; intros results; simpl;
    [reflexivity|].
  rewrite run_sequential_step_exn_entry. unfold write_returned at 2.
  destruct (entry_exn bk self input_data false n) as [r|m]; simpl;
    [apply IH|reflexivity].
Qed.

Lemma first_raised_In {V} (f : string -> Outcome V) names k message :
  In k names -> f k = Raised message ->
  exists message', first_raised f names = Some message'.
Proof.
  induction names as [|n names IH]; simpl; [intros []|].
  intros [->|Hin] Hk.
  - rewrite Hk. eauto.
  - destruct (f n); [now apply IH|eauto].
Qed.

Lemma first_raised_none {V} (f : string -> Outcome V) names :
  (forall k, In k names -> exists v, f k = Returned v) ->
  first_raised f names = None.
Proof.
  induction names as [|n names IH]; intros H; simpl; [reflexivity|].
  destruct (H n (or_introl eq_refl)) as [v ->].
  apply IH. intros k Hk. apply H. now right.
Qed.

Lemma run_simultaneous_inference_exn_shape {F} (bk : Backend F) self input_data :
  Forall (fun kv => is_model_result (snd kv) = true)
         (run_simultaneous_inference_exn bk self input_data).
Proof.
  rewrite run_simultaneous_inference_exn_tabulate.
  apply (Forall_tabulate_returned _ _ (fun r => is_model_result r = true)).
  intros k v. destruct (entry_exn bk self input_data true k) as [r|m] eqn:E;
    simpl; [|discriminate].
  intros [= <-]. apply with_total_time_shape.
  exact (entry_exn_shape _ _ _ _ _ _ E).
Qed.

(** In simultaneous mode [diagnose] returns a report whatever the
    backend returns. *)
Lemma diagnose_exn_simultaneous {R F} (num : Numeric R F) (bk : Backend F)
  self sensor_data input_data :
  prepare_sensor_data_f32 num sensor_data = Returned input_data ->
  exists final_diagnosis,
    aggregate_diagnoses (run_simultaneous_inference_exn bk self input_data)
    = Some final_diagnosis
    /\ diagnose_exn num bk self (Mapping sensor_data) (Some "simultaneous")
       = Returned
           (mkReport (run_simultaneous_inference_exn bk self input_data)
                     final_diagnosis "simultaneous").
Proof.
  intros Hp.
  destruct (aggregate_diagnoses_total _
              (run_simultaneous_inference_exn_shape bk self input_data))
    as [fin Hfin].
  exists fin. split; [exact Hfin|].
  unfold diagnose_exn. cbn [prepare_sensor_data_exn]. rewrite Hp.
  change (String.eqb "simultaneous" "simultaneous") with true. cbv iota.
  now rewrite Hfin.
Qed.

(** In the other modes the first exception of the loop leaves
    [diagnose]. *)
Lemma diagnose_exn_sequential_raised {R F} (num : Numeric R F)
  (bk : Backend F) self sensor_data input_data mode message :
  prepare_sensor_data_f32 num sensor_data = Returned input_data ->
  effective_mode mode <> "simultaneous" ->
  first_raised (entry_exn bk self input_data false) (Dict.keys MODEL_PATHS)
  = Some message ->
  diagnose_exn num bk self (Mapping sensor_data) mode = Raised message.
Proof.
  intros Hp Hm Hr. unfold diagnose_exn. fold (effective_mode mode).
  cbn [prepare_sensor_data_exn]. rewrite Hp.
  destruct (String.eqb_spec (effective_mode mode) "simultaneous");
    [contradiction|].
  rewrite run_sequential_loop_exn_cases, Hr. reflexivity.
Qed.

(** C2.  A registered model that is loaded, has a network group and
    whose backend call returns an array on which [len(output)] or
    [float(output[0])] raises gets no entry: in simultaneous mode
    [diagnose] returns a report whose [models] mapping has no key for
    that model, and in every other mode [diagnose] raises and returns no
    report at all. *)
Theorem diagnose_incomplete_on_malformed_output {R F} (num : Numeric R F)
  (bk : Backend F) self sensor_data input_data model_name info output :
  prepare_sensor_data_f32 num sensor_data = Returned input_data ->
  In model_name (Dict.keys MODEL_PATHS) ->
  Dict.get (models self) model_name = Some info ->
  loaded info = true ->
  Dict.mem (network_groups self) model_name = true ->
  call bk model_name input_data = Some output ->
  convertible output = false ->
  (exists report,
      diagnose_exn num bk self (Mapping sensor_data) (Some "simultaneous")
      = Returned report
      /\ ~ In model_name (Dict.keys (models_of report))
      /\ report_entry report model_name = None)
  /\ (forall mode,
         effective_mode mode <> "simultaneous" ->
         exists message,
           diagnose_exn num bk self (Mapping sensor_data) mode
           = Raised message).
Proof.
  intros Hp Hin Hinfo Hloaded Hg Hcall Hconv.
  assert (Hl : is_loaded self model_name = true).
  { apply is_loaded_iff. eauto. }
  assert (Hr : run_inference_exn bk self model_name input_data = Some output).
  { now rewrite run_inference_exn_call. }
  destruct (unconvertible_raises output Hconv) as [message Hf].
  split.
  - destruct (diagnose_exn_simultaneous num bk self sensor_data input_data Hp)
      as (fin & _ & ->).
    eexists. split; [reflexivity|]. cbn [models_of report_entry].
    rewrite run_simultaneous_inference_exn_tabulate.
    assert (Hk : ~ In model_name
                   (Dict.keys
                      (tabulate_returned
                         (fun k => outcome_map (with_total_time (total_ms bk))
                             (entry_exn bk self input_data true k))
                         (write_order (schedule bk)
                            (length (Dict.keys MODEL_PATHS))
                            (Dict.keys MODEL_PATHS))))).
    { intros Hk. apply keys_tabulate_returned in Hk. destruct Hk as [_ [v Hv]].
      rewrite (entry_exn_raised _ _ _ _ _ _ _ Hl Hr Hf) in Hv. discriminate. }
    split; [exact Hk|]. now apply get_not_In.
  - intros mode Hm.
    destruct (first_raised_In (entry_exn bk self input_data false)
                (Dict.keys MODEL_PATHS) model_name message Hin
                (entry_exn_raised _ _ _ _ _ _ _ Hl Hr Hf)) as [m' Hm'].
    exists m'. now apply (diagnose_exn_sequential_raised num bk self
                            sensor_data input_data).
Qed.

Lemma diagnose_incomplete_on_malformed_output_witness :
  outcome_map (fun report => Dict.keys (models_of report))
    (diagnose_exn coarse_numeric malformed_backend sample_diagnostics
       (Mapping sample_sensor_data) (Some "simultaneous"))
  = Returned ["naiad"; "vulcan"; "zephyrus"; "colossus"; "gaia"; "boreas"]
  /\ diagnose_exn coarse_numeric malformed_backend sample_diagnostics
       (Mapping sample_sensor_data) (Some "sequential")
     = Raised "object of type 'numpy.float32' has no len()"
  /\ (exists report,
         diagnose_exn coarse_numeric malformed_backend sample_diagnostics
           (Mapping sample_sensor_data) (Some "simultaneous") = Returned report
         /\ ~ In "apollo" (Dict.keys (models_of report))
         /\ report_entry report "apollo" = None)
  /\ (forall mode,
         effective_mode mode <> "simultaneous" ->
         exists message,
           diagnose_exn coarse_numeric malformed_backend sample_diagnostics
             (Mapping sample_sensor_data) mode = Raised message).
Proof.
  split; [vm_compute; reflexivity|]. split; [vm_compute; reflexivity|].
  apply (diagnose_incomplete_on_malformed_output coarse_numeric
           malformed_backend sample_diagnostics sample_sensor_data
           (map round2 (prepare_sensor_data sample_sensor_data)) "apollo"
           (mkInfo true None
              "/home/Automata/mydata/apollo-nexus/models/apollo_simple.hef"
              (Some (round2 1)))
           (Unsized "object of type 'numpy.float32' has no len()")).
  - vm_compute. reflexivity.
  - simpl. auto.
  - vm_compute. reflexivity.
  - reflexivity.
  - vm_compute. reflexivity.
  - reflexivity.
  - reflexivity.
Defined.

(** On the sample backend the simultaneous report has six of the eight
    models, and the sequential call raises the [TypeError] of the first
    malformed output. *)
Example malformed_backend_simultaneous :
  outcome_map (fun report => Dict.keys (models_of report))
    (diagnose_exn exact_numeric malformed_backend sample_diagnostics
       (Mapping []) (Some "simultaneous"))
  = Returned ["naiad"; "vulcan"; "zephyrus"; "colossus"; "gaia"; "boreas"].
Proof. vm_compute. reflexivity. Qed.

Example malformed_backend_sequential :
  diagnose_exn exact_numeric malformed_backend sample_diagnostics (Mapping [])
    None
  = Raised "object of type 'numpy.float32' has no len()".
Proof. vm_compute. reflexivity. Qed.

(** * Backends that honour the contract *)

(** ** The executor on convertible outputs *)


Lemma backend_of_converts rt self input_data model_name :
  converts (backend_of rt) self input_data model_name.
Proof.
  intros info output _ _ _. unfold backend_of. cbn [call].
  destruct (infer rt model_name input_data) as [[|x l]|]; simpl;
    intros [= <-]; reflexivity.
Qed.

Lemma entry_exn_backend_of rt self input_data timed model_name :
  entry_exn (backend_of rt) self input_data timed model_name
  = Returned
      (if timed then thread_entry rt self input_data model_name
       else sequential_entry rt self input_data model_name).
Proof.
  unfold entry_exn, thread_entry, sequential_entry, run_inference,
    run_inference_exn, backend_of. cbn [call thread_ms].
  destruct (is_loaded self model_name); [|now destruct timed].
  destruct (negb (Dict.mem (network_groups self) model_name));
    [now destruct timed|].
  destruct (infer rt model_name input_data) as [[|x l]|]; simpl;
    now destruct timed.
Qed.

(** ** [diagnose] on convertible outputs *)

Section Convertible.
Context {F : Type}.
Variables (bk : Backend F) (rt : Runtime) (self : HailoHVACDiagnostics).
Variable input_exn : list F.
Variable input_data : list Q.
Hypothesis total : total_ms bk = total_elapsed_ms rt.
Hypothesis scheduler : schedule bk = next_writer rt.
Hypothesis entries :
  forall timed name,
    In name (Dict.keys MODEL_PATHS) ->
    entry_exn bk self input_exn timed name
    = Returned
        (if timed then thread_entry rt self input_data name
         else sequential_entry rt self input_data name).

Lemma run_simultaneous_inference_exn_agree :
  run_simultaneous_inference_exn bk self input_exn
  = run_simultaneous_inference rt self input_data.
Proof.
  rewrite run_simultaneous_inference_exn_tabulate,
    run_simultaneous_inference_tabulate.
  rewrite scheduler, total.
  apply tabulate_returned_all. intros k Hk.
  rewrite (entries true); [reflexivity|].
  exact (Permutation_in _ (write_order_models_perm rt) Hk).
Qed.

Lemma run_sequential_loop_exn_agree :
  run_sequential_loop_exn bk self input_exn (Dict.keys MODEL_PATHS) Dict.empty
  = Returned (run_sequential_inference rt self input_data).
Proof.
  rewrite run_sequential_loop_exn_cases.
  rewrite first_raised_none.
  - rewrite fold_write_returned;
      [|apply model_names_NoDup|intros k _ []].
    rewrite run_sequential_inference_tabulate.
    cbn [app Dict.empty]. f_equal.
    apply tabulate_returned_all. intros k Hk. now rewrite (entries false).
  - intros k Hk. rewrite (entries false) by exact Hk. eauto.
Qed.

End Convertible.

Lemma diagnose_exn_agree {R F} (num : Numeric R F) (bk : Backend F) rt self
  (sensor_exn : Dict.t R) (input_exn : list F) (sensor_data : Dict.t Q) mode :
  prepare_sensor_data_f32 num sensor_exn = Returned input_exn ->
  total_ms bk = total_elapsed_ms rt ->
  schedule bk = next_writer rt ->
  (forall timed name,
      In name (Dict.keys MODEL_PATHS) ->
      entry_exn bk self input_exn timed name
      = Returned
          (if timed
           then thread_entry rt self (prepare_sensor_data sensor_data) name
           else sequential_entry rt self (prepare_sensor_data sensor_data)
                  name)) ->
  diagnose_exn num bk self (Mapping sensor_exn) mode
  = outcome_of_option "'diagnosis'" (diagnose rt self sensor_data mode).
Proof.
  intros Hp Ht Hs He. unfold diagnose_exn, diagnose.
  cbn [prepare_sensor_data_exn]. rewrite Hp.
  destruct (String.eqb (match mode with Some m => m | None => "sequential" end)
                       "simultaneous").
  - rewrite (run_simultaneous_inference_exn_agree bk rt self _ _ Ht Hs He).
    now destruct (aggregate_diagnoses _).
  - rewrite (run_sequential_loop_exn_agree bk rt self _ _ He).
    now destruct (aggregate_diagnoses _).
Qed.

(** On exact numbers and a backend that returns vectors, [diagnose] with
    its exceptions is [diagnose]. *)
Lemma diagnose_exn_backend_of rt self sensor_data mode :
  diagnose_exn exact_numeric (backend_of rt) self (Mapping sensor_data) mode
  = outcome_of_option "'diagnosis'" (diagnose rt self sensor_data mode).
Proof.
  apply (diagnose_exn_agree exact_numeric (backend_of rt) rt self sensor_data
           (prepare_sensor_data sensor_data));
    [apply prepare_sensor_data_f32_exact|reflexivity|reflexivity|].
  intros timed name _. apply entry_exn_backend_of.
Qed.


(** ** The two modes on convertible outputs *)



(** * Initialisation on a host whose file system can raise *)

(** ** The models that the loop reaches *)

Lemma visited_prefix host (items : list (string * string)) :
  exists rest, items = visited host items ++ rest.
Proof.
  induction items as [|np items [rest IH]]; simpl; [now exists []|].
  destruct (exists_answers host (snd np)).
  - exists rest. simpl. now rewrite <- IH.
  - now exists (np :: items).
Qed.

Lemma visited_all host (items : list (string * string)) :
  forallb (fun np => exists_answers host (snd np)) items = true ->
  visited host items = items.
Proof.
  induction items as [|np items IH]; simpl; [reflexivity|].
  destruct (exists_answers host (snd np)); [|discriminate].
  simpl. intros H. now rewrite IH.
Qed.

Lemma visited_In host (items : list (string * string)) np :
  In np (visited host items)
  <-> exists before after,
        items = before ++ np :: after
        /\ (forall x, In x before -> exists_answers host (snd x) = true)
        /\ exists_answers host (snd np) = true.
Proof.
  induction items as [|x items IH]; simpl.
  - split; [intros []|]. intros (b & a & H & _). destruct b; discriminate.
  - destruct (exists_answers host (snd x)) eqn:Ex.
    + split.
      * intros [<-|Hin].
        -- exists [], items. split; [reflexivity|]. split; [intros ? []|exact Ex].
        -- apply IH in Hin. destruct Hin as (b & a & -> & Hb & Hnp).
           exists (x :: b), a. split; [reflexivity|].
           split; [|exact Hnp]. intros y [<-|Hy]; auto.
      * intros (b & a & H & Hb & Hnp). destruct b as [|y b]; simpl in H.
        -- injection H as -> _. now left.
        -- injection H as -> ->. right. apply IH. exists b, a.
           split; [reflexivity|]. split; [|exact Hnp].
           intros z Hz. apply Hb. now right.
    + split; [intros []|]. intros (b & a & H & Hb & Hnp).
      destruct b as [|y b]; simpl in H.
      * injection H as -> _. congruence.
      * injection H as <- _.
        specialize (Hb x (or_introl eq_refl)). congruence.
Qed.

Lemma visited_NoDup host (items : list (string * string)) :
  NoDup (Dict.keys items) -> NoDup (Dict.keys (visited host items)).
Proof.
  destruct (visited_prefix host items) as [rest H]. intros Hnd.
  rewrite H, keys_app in Hnd. exact (NoDup_app_remove_r _ _ Hnd).
Qed.

Lemma In_get_NoDup {V} (d : Dict.t V) k v :
  NoDup (Dict.keys d) -> In (k, v) d -> Dict.get d k = Some v.
Proof.
  induction d as [|[k' v'] d IH]; simpl; [intros _ []|].
  intros Hnd [H|Hin].
  - injection H as -> ->. now rewrite String.eqb_refl.
  - inversion Hnd as [|? ? Hn Hnd']; subst.
    destruct (String.eqb_spec k' k) as [->|Hne].
    + exfalso. apply Hn. change k with (fst (k, v)). now apply in_map.
    + now apply IH.
Qed.

(** ** The state after the loop *)

Lemma load_models_exn_state host (items : Dict.t string) self :
  NoDup (Dict.keys items) ->
  (forall k, In k (Dict.keys items) -> ~ In k (Dict.keys (models self))) ->
  (forall k, In k (Dict.keys items) -> ~ In k (Dict.keys (network_groups self))) ->
  load_models_exn host items self
  = (forallb (fun np => exists_answers host (snd np)) items,
     mkDiag (target self)
       (models self
        ++ map (fun np => (fst np, load_info_exn host (snd np)))
             (visited host items))
       (network_groups self
        ++ filter (fun np => configured_exn host (snd np))
             (visited host items))).
Proof.
  revert self. induction items as [|[n p] items IH]; intros self Hnd Hm Hg.
  - cbn. rewrite !app_nil_r. now destruct self.
  - inversion Hnd as [|? ? Hn Hnd']; subst.
    assert (Hsm : forall info, Dict.set (models self) n info
                               = models self ++ [(n, info)]).
    { intros info. apply keys_set_new. apply Hm. now left. }
    assert (Hsg : Dict.set (network_groups self) n p
                  = network_groups self ++ [(n, p)]).
    { apply keys_set_new. apply Hg. now left. }
    assert (Hfresh : forall (V : Type) (d : Dict.t V) (v : V) k,
               In k (Dict.keys items) ->
               ~ In k (Dict.keys d) -> ~ In k (Dict.keys (d ++ [(n, v)]))).
    { intros V d v k Hk Hd Hin. rewrite keys_app in Hin.
      apply in_app_or in Hin. destruct Hin as [Hin|[<-|[]]]; contradiction. }
    assert (Hm' : forall info k, In k (Dict.keys items) ->
                    ~ In k (Dict.keys (models self ++ [(n, info)]))).
    { intros info k Hk. apply Hfresh; [exact Hk|]. apply Hm. now right. }
    assert (Hg' : forall k, In k (Dict.keys items) ->
                    ~ In k (Dict.keys (network_groups self ++ [(n, p)]))).
    { intros k Hk. apply Hfresh; [exact Hk|]. apply Hg. now right. }
    assert (Hg0 : forall k, In k (Dict.keys items) ->
                    ~ In k (Dict.keys (network_groups self))).
    { intros k Hk. apply Hg. now right. }
    cbn [load_models_exn forallb visited snd fst].
    destruct (host_exists host p) as [[|]|m] eqn:Ee.
    + assert (Ha : exists_answers host p = true).
      { unfold exists_answers. now rewrite Ee. }
      rewrite Ha. cbn [andb map filter fst snd].
      destruct (host_configure host p) as [e|] eqn:Ec.
      * assert (Hi : load_info_exn host p = mkInfo false (Some e) p None).
        { unfold load_info_exn. now rewrite Ee, Ec. }
        assert (Hc : configured_exn host p = false).
        { unfold configured_exn. now rewrite Ee, Ec. }
        rewrite Hsm, IH, Hi, Hc; cbn [target models network_groups]; auto.
        rewrite <- !app_assoc. reflexivity.
      * assert (Hc : configured_exn host p = true).
        { unfold configured_exn. now rewrite Ee, Ec. }
        destruct (host_size_mb host p) as [s|e] eqn:Es.
        -- assert (Hi : load_info_exn host p
                        = mkInfo true None p (Some (round2 s))).
           { unfold load_info_exn. now rewrite Ee, Ec, Es. }
           rewrite Hsm, Hsg, IH, Hi, Hc; cbn [target models network_groups];
             auto.
           rewrite <- !app_assoc. reflexivity.
        -- assert (Hi : load_info_exn host p = mkInfo false (Some e) p None).
           { unfold load_info_exn. now rewrite Ee, Ec, Es. }
           rewrite Hsm, Hsg, IH, Hi, Hc; cbn [target models network_groups];
             auto.
           rewrite <- !app_assoc. reflexivity.
    + assert (Ha : exists_answers host p = true).
      { unfold exists_answers. now rewrite Ee. }
      rewrite Ha. cbn [andb map filter fst snd].
      assert (Hi : load_info_exn host p
                   = mkInfo false (Some "File not found") p None).
      { unfold load_info_exn. now rewrite Ee. }
      assert (Hc : configured_exn host p = false).
      { unfold configured_exn. now rewrite Ee. }
      rewrite Hsm, IH, Hi, Hc; cbn [target models network_groups]; auto.
      rewrite <- !app_assoc. reflexivity.
    + assert (Ha : exists_answers host p = false).
      { unfold exists_answers. now rewrite Ee. }
      rewrite Ha. cbn [andb map filter]. rewrite !app_nil_r. now destruct self.
Qed.

Lemma initialize_exn_state host :
  host_device host = true ->
  initialize_exn host new_diagnostics
  = (forallb (fun np => exists_answers host (snd np)) MODEL_PATHS,
     mkDiag true
       (map (fun np => (fst np, load_info_exn host (snd np)))
            (visited host MODEL_PATHS))
       (filter (fun np => configured_exn host (snd np))
               (visited host MODEL_PATHS))).
Proof.
  intros Hv. unfold initialize_exn. rewrite Hv. unfold Dict.items.
  rewrite load_models_exn_state.
  - reflexivity.
  - apply model_names_NoDup.
  - intros k _ [].
  - intros k _ [].
Qed.

Lemma initialize_exn_offline host :
  host_device host = false ->
  initialize_exn host new_diagnostics = (false, new_diagnostics).
Proof. intros Hv. unfold initialize_exn. now rewrite Hv. Qed.

Lemma load_info_exn_loaded host model_path :
  loaded (load_info_exn host model_path) = true
  <-> host_exists host model_path = Returned true
      /\ host_configure host model_path = None
      /\ exists s, host_size_mb host model_path = Returned s.
Proof.
  unfold load_info_exn.
  destruct (host_exists host model_path) as [[|]|m];
    try (simpl; split; [discriminate|intros [H _]; discriminate]).
  destruct (host_configure host model_path) as [e|];
    [simpl; split; [discriminate|intros (_ & H & _); discriminate]|].
  destruct (host_size_mb host model_path) as [s|e]; simpl.
  - split; [eauto|reflexivity].
  - split; [discriminate|]. intros (_ & _ & s & H). discriminate.
Qed.

Lemma load_info_exn_configured host model_path :
  loaded (load_info_exn host model_path) = true ->
  configured_exn host model_path = true.
Proof.
  intros H. apply load_info_exn_loaded in H. destruct H as (He & Hc & _).
  unfold configured_exn. now rewrite He, Hc.
Qed.

Lemma forallb_exists_answers host (items : Dict.t string) :
  NoDup (Dict.keys items) ->
  forallb (fun np => exists_answers host (snd np)) items = true
  <-> forall name model_path,
        Dict.get items name = Some model_path ->
        exists b, host_exists host model_path = Returned b.
Proof.
  intros Hnd. rewrite forallb_forall. split.
  - intros H name model_path Hget. apply get_In in Hget.
    specialize (H _ Hget). unfold exists_answers in H. simpl in H.
    destruct (host_exists host model_path) as [b|m]; [eauto|discriminate].
  - intros H [n p] Hin. simpl.
    destruct (H n p (In_get_NoDup _ _ _ Hnd Hin)) as [b Hb].
    unfold exists_answers. now rewrite Hb.
Qed.

Lemma exists_answers_iff host model_path :
  exists_answers host model_path = true
  <-> exists b, host_exists host model_path = Returned b.
Proof.
  unfold exists_answers.
  destruct (host_exists host model_path) as [b|m].
  - split; eauto.
  - split; [discriminate|]. intros [b H]. discriminate.
Qed.

Lemma initialize_exn_entry host name model_path :
  host_device host = true ->
  In (name, model_path) (visited host MODEL_PATHS) ->
  Dict.get (models (snd (initialize_exn host new_diagnostics))) name
  = Some (load_info_exn host model_path)
  /\ Dict.mem (network_groups (snd (initialize_exn host new_diagnostics))) name
     = configured_exn host model_path.
Proof.
  intros Hv Hin. rewrite (initialize_exn_state host Hv).
  cbn [snd models network_groups].
  pose proof (visited_NoDup host MODEL_PATHS model_names_NoDup) as Hnd.
  pose proof (In_get_NoDup _ _ _ Hnd Hin) as Hget.
  rewrite get_map_values, mem_filter_NoDup by exact Hnd.
  now rewrite Hget.
Qed.

Lemma initialize_exn_loaded_visited host name :
  host_device host = true ->
  is_loaded (snd (initialize_exn host new_diagnostics)) name = true ->
  exists model_path,
    In (name, model_path) (visited host MODEL_PATHS)
    /\ loaded (load_info_exn host model_path) = true.
Proof.
  intros Hv. rewrite (initialize_exn_state host Hv).
  unfold is_loaded. cbn [snd models]. rewrite get_map_values.
  destruct (Dict.get (visited host MODEL_PATHS) name) as [p|] eqn:Hget;
    [|discriminate].
  cbn [option_map]. intros Hl. exists p. split; [|exact Hl].
  now apply get_In.
Qed.

(** The platform of the first part as a host: on a file system that
    answers, the two descriptions of [initialize] coincide. *)
Lemma load_models_exn_host_of pf (items : Dict.t string) self :
  load_models_exn (host_of pf) items self
  = (true, fold_left (load_model pf) items self).
Proof.
  revert self. induction items as [|[n p] items IH]; intros self;
    [reflexivity|].
  cbn [load_models_exn fold_left host_of host_exists host_configure
       host_size_mb load_model].
  destruct (path_exists pf p); [|apply IH].
  destruct (configure_hef pf p); apply IH.
Qed.

Lemma initialize_exn_host_of pf self :
  initialize_exn (host_of pf) self = initialize pf self.
Proof.
  unfold initialize_exn, initialize. cbn [host_of host_device].
  destruct (vdevice_available pf); [|reflexivity].
  apply load_models_exn_host_of.
Qed.

(** ** The registry *)

(** X3.  When the device can be created, [initialize] returns [True]
    exactly when [exists()] answers for the file of every registered
    model.  The registry then lists the eight models; in general it lists,
    in registry order, the models before the first one whose [exists()]
    raises.  Each model listed carries the outcome of loading its own
    file, and has a network group exactly when its file exists and its
    HEF configures, which is the case for every model reported as
    loaded. *)
Theorem initialize_registry host :
  host_device host = true ->
  (fst (initialize_exn host new_diagnostics) = true
   <-> forall name model_path,
         Dict.get MODEL_PATHS name = Some model_path ->
         exists b, host_exists host model_path = Returned b)
  /\ target (snd (initialize_exn host new_diagnostics)) = true
  /\ Dict.keys (models (snd (initialize_exn host new_diagnostics)))
     = Dict.keys (visited host MODEL_PATHS)
  /\ (fst (initialize_exn host new_diagnostics) = true ->
      Dict.keys (models (snd (initialize_exn host new_diagnostics)))
      = Dict.keys MODEL_PATHS)
  /\ (forall name model_path,
         In (name, model_path) (visited host MODEL_PATHS) ->
         Dict.get (models (snd (initialize_exn host new_diagnostics))) name
         = Some (load_info_exn host model_path)
         /\ Dict.mem
              (network_groups (snd (initialize_exn host new_diagnostics))) name
            = configured_exn host model_path)
  /\ (forall name,
         is_loaded (snd (initialize_exn host new_diagnostics)) name = true ->
         Dict.mem (network_groups (snd (initialize_exn host new_diagnostics)))
                  name = true).
Proof.
  intros Hv.
  assert (Hkeys : Dict.keys (models (snd (initialize_exn host new_diagnostics)))
                  = Dict.keys (visited host MODEL_PATHS)).
  { rewrite (initialize_exn_state host Hv). cbn [snd models].
    unfold Dict.keys. rewrite map_map. reflexivity. }
  assert (Hfst : fst (initialize_exn host new_diagnostics)
                 = forallb (fun np => exists_answers host (snd np)) MODEL_PATHS).
  { now rewrite (initialize_exn_state host Hv). }
  split; [|split; [|split; [|split; [|split]]]].
  - rewrite Hfst. apply forallb_exists_answers, model_names_NoDup.
  - now rewrite (initialize_exn_state host Hv).
  - exact Hkeys.
  - intros Hok. rewrite Hkeys, visited_all; [reflexivity|].
    now rewrite <- Hfst.
  - intros name model_path. now apply initialize_exn_entry.
  - intros name Hl.
    destruct (initialize_exn_loaded_visited host name Hv Hl)
      as (p & Hin & Hp).
    destruct (initialize_exn_entry host name p Hv Hin) as [_ ->].
    now apply load_info_exn_configured.
Qed.

Lemma initialize_registry_witness :
  map (fun kv => (fst kv, loaded (snd kv)))
      (models (snd (initialize_exn guarded_host new_diagnostics)))
  = [("apollo", true); ("aquilo", false); ("boreas", false)]
  /\ fst (initialize_exn guarded_host new_diagnostics) = false
  /\ target (snd (initialize_exn guarded_host new_diagnostics)) = true
  /\ Dict.keys (models (snd (initialize_exn guarded_host new_diagnostics)))
     = ["apollo"; "aquilo"; "boreas"]
  /\ Dict.mem (network_groups (snd (initialize_exn guarded_host new_diagnostics)))
              "boreas" = true
  /\ is_loaded (snd (initialize_exn guarded_host new_diagnostics)) "boreas"
     = false.
Proof.
  destruct (initialize_registry guarded_host eq_refl)
    as (Hfst & Htarget & Hkeys & _ & Hentries & _).
  destruct (Hentries "boreas"
              "/home/Automata/mydata/apollo-nexus/models/boreas_simple.hef")
    as [Hget Hmem].
  { simpl. auto. }
  split; [vm_compute; reflexivity|].
  split; [|split; [exact Htarget|split; [|split]]].
  - destruct (fst (initialize_exn guarded_host new_diagnostics)) eqn:E;
      [|reflexivity].
    destruct Hfst as [Hfst _].
    destruct (Hfst eq_refl "naiad"
                "/home/Automata/mydata/apollo-nexus/models/naiad_simple.hef"
                eq_refl) as [b Hb].
    discriminate Hb.
  - rewrite Hkeys. reflexivity.
  - rewrite Hmem. reflexivity.
  - unfold is_loaded. rewrite Hget. reflexivity.
Defined.

(** X17.  After [initialize], a model is reported as loaded exactly when
    the device was created, the model is registered in [MODEL_PATHS],
    [exists()] answers for the file of every model registered before it,
    its own file exists, its HEF configures without raising and [stat()]
    returns its size. *)
Theorem initialize_loaded_iff host (name : string) :
  is_loaded (snd (initialize_exn host new_diagnostics)) name = true
  <-> host_device host = true
      /\ exists model_path before after,
           MODEL_PATHS = (before ++ (name, model_path) :: after)%list
           /\ (forall np, In np before ->
                          exists b, host_exists host (snd np) = Returned b)
           /\ host_exists host model_path = Returned true
           /\ host_configure host model_path = None
           /\ exists s, host_size_mb host model_path = Returned s.
Proof.
  destruct (host_device host) eqn:Hv.
  - split.
    + intros Hl. split; [reflexivity|].
      destruct (initialize_exn_loaded_visited host name Hv Hl)
        as (p & Hin & Hp).
      apply visited_In in Hin. destruct Hin as (b & a & Heq & Hb & _).
      apply load_info_exn_loaded in Hp.
      exists p, b, a. split; [exact Heq|]. split; [|exact Hp].
      intros np Hnp. apply exists_answers_iff. now apply Hb.
    + intros (_ & p & b & a & Heq & Hb & He & Hc & Hs).
      assert (Hin : In (name, p) (visited host MODEL_PATHS)).
      { apply visited_In. exists b, a. split; [exact Heq|]. split.
        - intros x Hx. apply exists_answers_iff. now apply Hb.
        - apply exists_answers_iff. simpl. eauto. }
      destruct (initialize_exn_entry host name p Hv Hin) as [Hget _].
      unfold is_loaded. rewrite Hget. now apply load_info_exn_loaded.
  - rewrite (initialize_exn_offline host Hv). split; [discriminate|].
    intros [H _]. discriminate.
Qed.

(** On the sample host [exists()] raises for the fourth model: the models
    after it are not loaded although their files are present. *)
Example guarded_host_loaded :
  map (is_loaded (snd (initialize_exn guarded_host new_diagnostics)))
      (Dict.keys MODEL_PATHS)
  = [true; false; false; false; false; false; false; false]
  /\ map (is_loaded (snd (initialize_exn stat_host new_diagnostics)))
         (Dict.keys MODEL_PATHS)
     = [true; true; false; true; true; true; true; true].
Proof. split; vm_compute; reflexivity. Qed.

(** * The command line on collaborators that can raise *)

(** ** The [models] command *)

Lemma listing_exn_some host model_path l :
  listing_exn host model_path = Some l
  <-> (host_exists host model_path = Returned false
       /\ l = mkListing false model_path None)
      \/ (exists s,
             host_exists host model_path = Returned true
             /\ host_size_mb host model_path = Returned s
             /\ l = mkListing false model_path (Some (round2 s))).
Proof.
  unfold listing_exn.
  destruct (host_exists host model_path) as [[|]|m].
  - destruct (host_size_mb host model_path) as [s|e].
    + split.
      * intros [= <-]. right. exists s. auto.
      * intros [[H _]|(s' & _ & [= <-] & ->)]; [discriminate|reflexivity].
    + split; [discriminate|].
      intros [[H _]|(s' & _ & H & _)]; discriminate.
  - split.
    + intros [= <-]. now left.
    + intros [[_ ->]|(s' & H & _)]; [reflexivity|discriminate].
  - split; [discriminate|].
    intros [[H _]|(s' & H & _)]; discriminate.
Qed.

Lemma list_models_exn_cases host (items : Dict.t string)
  (listing : Dict.t ModelListing) :
  NoDup (Dict.keys items) ->
  (forall k, In k (Dict.keys items) -> ~ In k (Dict.keys listing)) ->
  match list_models_exn host items listing with
  | Returned out =>
      exists listed,
        out = listing ++ listed
        /\ Forall2 (fun np kv => fst kv = fst np
                                 /\ listing_exn host (snd np) = Some (snd kv))
                   items listed
  | Raised message =>
      exists np,
        In np items
        /\ (host_exists host (snd np) = Raised message
            \/ (host_exists host (snd np) = Returned true
                /\ host_size_mb host (snd np) = Raised message))
  end.
Proof.
  revert listing. induction items as [|[n p] items IH]; intros listing Hnd Hf.
  - cbn. exists []. split; [now rewrite app_nil_r|constructor].
  - inversion Hnd as [|? ? Hn Hnd']; subst.
    assert (Hset : forall l, Dict.set listing n l = listing ++ [(n, l)]).
    { intros l. apply keys_set_new. apply Hf. now left. }
    assert (Hf' : forall l k, In k (Dict.keys items) ->
                    ~ In k (Dict.keys (listing ++ [(n, l)]))).
    { intros l k Hk Hin. rewrite keys_app in Hin.
      apply in_app_or in Hin. destruct Hin as [Hin|[<-|[]]].
      - apply (Hf k); [now right|exact Hin].
      - contradiction. }
    cbn [list_models_exn].
    destruct (host_exists host p) as [[|]|m] eqn:Ee.
    + destruct (host_size_mb host p) as [s|e] eqn:Es.
      * rewrite Hset.
        specialize (IH (listing ++ [(n, mkListing false p (Some (round2 s)))])
                       Hnd' (Hf' _)).
        destruct (list_models_exn host items _) as [out|message].
        -- destruct IH as (listed & -> & Hall).
           exists ((n, mkListing false p (Some (round2 s))) :: listed).
           split; [now rewrite <- app_assoc|].
           constructor; [|exact Hall]. split; [reflexivity|].
           cbn [snd]. unfold listing_exn. now rewrite Ee, Es.
        -- destruct IH as (np & Hin & H). exists np. split; [now right|exact H].
      * exists (n, p). split; [now left|]. right. auto.
    + rewrite Hset.
      specialize (IH (listing ++ [(n, mkListing false p None)])
                     Hnd' (Hf' _)).
      destruct (list_models_exn host items _) as [out|message].
      * destruct IH as (listed & -> & Hall).
        exists ((n, mkListing false p None) :: listed).
        split; [now rewrite <- app_assoc|].
        constructor; [|exact Hall]. split; [reflexivity|].
        cbn [snd]. unfold listing_exn. now rewrite Ee.
      * destruct IH as (np & Hin & H). exists np. split; [now right|exact H].
    + exists (n, p). split; [now left|]. left. exact Ee.
Qed.

Lemma listed_keys host (items : Dict.t string) (listed : Dict.t ModelListing) :
  Forall2 (fun np kv => fst kv = fst np
                        /\ listing_exn host (snd np) = Some (snd kv))
          items listed ->
  Dict.keys listed = Dict.keys items.
Proof.
  induction 1 as [|[n p] [k l] items listed [Hk _] _ IH]; [reflexivity|].
  simpl in *. now rewrite Hk, IH.
Qed.

Lemma listed_get host (items : Dict.t string) (listed : Dict.t ModelListing)
  name model_path :
  Forall2 (fun np kv => fst kv = fst np
                        /\ listing_exn host (snd np) = Some (snd kv))
          items listed ->
  Dict.get items name = Some model_path ->
  exists l, Dict.get listed name = Some l
            /\ listing_exn host model_path = Some l.
Proof.
  induction 1 as [|[n p] [k l] items listed [Hk Hl] _ IH]; [discriminate|].
  simpl in *. subst k.
  destruct (String.eqb n name); [|exact IH].
  intros [= <-]. eauto.
Qed.

Lemma main_exn_models {R F} (num : Numeric R F) host (bk : Backend F)
  (loads : string -> JsonLoads R) prog rest :
  main_exn num host bk loads (prog :: "models" :: rest)
  = match models_command_exn host with
    | Returned listing => PrintsListing listing
    | Raised message => Traceback message
    end.
Proof. reflexivity. Qed.

(** X16.  The [models] command either prints a listing or ends with an
    exception.  A listing names the eight registered models in registry
    order, each as not loaded, with its path, and with its size, rounded
    to two decimals, exactly when its file exists.  The command ends with
    an exception exactly when [exists()] raises for a registered file, or
    the file exists and [stat()] raises; nothing handles it. *)
Theorem models_command_listing {R F} (num : Numeric R F) host
  (bk : Backend F) (loads : string -> JsonLoads R) prog rest :
  match main_exn num host bk loads (prog :: "models" :: rest) with
  | PrintsListing listing =>
      Dict.keys listing = Dict.keys MODEL_PATHS
      /\ forall name model_path,
           Dict.get MODEL_PATHS name = Some model_path ->
           (host_exists host model_path = Returned false
            /\ Dict.get listing name = Some (mkListing false model_path None))
           \/ (exists s,
                  host_exists host model_path = Returned true
                  /\ host_size_mb host model_path = Returned s
                  /\ Dict.get listing name
                     = Some (mkListing false model_path (Some (round2 s))))
  | Traceback message =>
      exists name model_path,
        Dict.get MODEL_PATHS name = Some model_path
        /\ (host_exists host model_path = Raised message
            \/ (host_exists host model_path = Returned true
                /\ host_size_mb host model_path = Raised message))
  | Prints _ => False
  end.
Proof.
  rewrite main_exn_models. unfold models_command_exn, Dict.items.
  pose proof (list_models_exn_cases host MODEL_PATHS Dict.empty
                model_names_NoDup (fun k _ H => H)) as H.
  destruct (list_models_exn host MODEL_PATHS Dict.empty) as [out|message].
  - destruct H as (listed & -> & Hall). cbn [Dict.empty app]. split.
    + exact (listed_keys _ _ _ Hall).
    + intros name model_path Hget.
      destruct (listed_get _ _ _ _ _ Hall Hget) as (l & Hl & Hs).
      apply listing_exn_some in Hs.
      destruct Hs as [[He ->]|(s & He & Hsz & ->)]; [left|right]; eauto.
  - destruct H as ([n p] & Hin & H). exists n, p. split; [|exact H].
    exact (In_get_NoDup _ _ _ model_names_NoDup Hin).
Qed.

Example models_command_samples :
  main_exn exact_numeric (host_of empty_platform) sized_backend sample_loads
    ["hailo_inference.py"; "models"]
  = PrintsListing
      (map (fun np => (fst np, mkListing false (snd np) None)) MODEL_PATHS)
  /\ main_exn exact_numeric guarded_host sized_backend sample_loads
       ["hailo_inference.py"; "models"]
     = Traceback "[Errno 5] Input/output error".
Proof. split; vm_compute; reflexivity. Qed.

(** ** The [diagnose] command *)

Lemma initialize_exn_ok host :
  fst (initialize_exn host new_diagnostics) = true
  <-> host_device host = true
      /\ forall name model_path,
           Dict.get MODEL_PATHS name = Some model_path ->
           exists b, host_exists host model_path = Returned b.
Proof.
  destruct (host_device host) eqn:Hv.
  - rewrite (initialize_exn_state host Hv). cbn [fst].
    rewrite (forallb_exists_answers host MODEL_PATHS model_names_NoDup).
    split; [auto|now intros [_ H]].
  - rewrite (initialize_exn_offline host Hv). cbn [fst].
    split; [discriminate|now intros [H _]].
Qed.

Lemma main_exn_diagnose {R F} (num : Numeric R F) host (bk : Backend F)
  (loads : string -> JsonLoads R) prog payload rest :
  main_exn num host bk loads (prog :: "diagnose" :: payload :: rest)
  = match loads payload with
    | DecodeError => Prints (PrintError "Invalid JSON sensor data")
    | LoadsRaises message => Prints (PrintError message)
    | Loaded sensor_data =>
        if fst (initialize_exn host new_diagnostics) then
          match diagnose_exn num bk (snd (initialize_exn host new_diagnostics))
                  sensor_data (Some (requested_mode rest)) with
          | Returned result => Prints (PrintReport result)
          | Raised message => Prints (PrintError message)
          end
        else Prints (PrintError "Failed to initialize Hailo device")
    end.
Proof.
  unfold main_exn.
  change (String.eqb "diagnose" "status") with false.
  change (String.eqb "diagnose" "models") with false.
  change (String.eqb "diagnose" "diagnose") with true.
  cbv iota.
  destruct (loads payload); try reflexivity.
  destruct (initialize_exn host new_diagnostics) as [ok diag].
  reflexivity.
Qed.

Lemma diagnose_exn_returned {R F} (num : Numeric R F) (bk : Backend F) self
  payload mode report :
  diagnose_exn num bk self payload mode = Returned report ->
  exists sensor_data input_data,
    payload = Mapping sensor_data
    /\ prepare_sensor_data_f32 num sensor_data = Returned input_data.
Proof.
  destruct payload as [sensor_data|message]; [|discriminate].
  unfold diagnose_exn. cbn [prepare_sensor_data_exn].
  destruct (prepare_sensor_data_f32 num sensor_data) as [input_data|m] eqn:Hp;
    [|discriminate].
  intros _. exists sensor_data, input_data. split; [reflexivity|exact Hp].
Qed.

(** X13.  [main] prints a report exactly when the command is [diagnose],
    [json.loads] returns a mapping for the payload argument, the device
    can be created, [exists()] answers for the file of every registered
    model, and [diagnose] returns that report for the initialised
    registry, the mapping and the requested mode, which needs the
    readings of the mapping to convert.  Every other command line, a
    missing payload, a payload that does not parse and a payload that
    parses to something else than a mapping give something else than a
    report. *)
Theorem main_prints_report_iff {R F} (num : Numeric R F) host
  (bk : Backend F) (loads : string -> JsonLoads R) argv report :
  main_exn num host bk loads argv = Prints (PrintReport report)
  <-> exists prog payload rest sensor_data input_data,
        argv = prog :: "diagnose" :: payload :: rest
        /\ loads payload = Loaded (Mapping sensor_data)
        /\ prepare_sensor_data_f32 num sensor_data = Returned input_data
        /\ host_device host = true
        /\ (forall name model_path,
               Dict.get MODEL_PATHS name = Some model_path ->
               exists b, host_exists host model_path = Returned b)
        /\ diagnose_exn num bk (snd (initialize_exn host new_diagnostics))
             (Mapping sensor_data) (Some (requested_mode rest))
           = Returned report.
Proof.
  split.
  - intros H.
    destruct argv as [|prog [|command args]]; try discriminate.
    destruct (string_dec command "diagnose") as [->|Hne].
    + destruct args as [|payload rest]; [discriminate|].
      rewrite main_exn_diagnose in H.
      destruct (loads payload) as [|message|p] eqn:Hj; try discriminate.
      destruct (fst (initialize_exn host new_diagnostics)) eqn:Hok;
        [|discriminate].
      apply initialize_exn_ok in Hok. destruct Hok as [Hv Hall].
      destruct (diagnose_exn num bk (snd (initialize_exn host new_diagnostics))
                  p (Some (requested_mode rest))) as [result|message] eqn:Hd;
        [|discriminate].
      injection H as <-.
      destruct (diagnose_exn_returned _ _ _ _ _ _ Hd)
        as (sensor_data & input_data & -> & Hp).
      exists prog, payload, rest, sensor_data, input_data. auto 10.
    + exfalso. unfold main_exn in H.
      destruct (String.eqb command "status"); [discriminate|].
      destruct (String.eqb command "models").
      * destruct (models_command_exn host); discriminate.
      * destruct (String.eqb_spec command "diagnose"); [contradiction|].
        discriminate.
  - intros (prog & payload & rest & sensor_data & input_data & -> & Hj & _
            & Hv & Hall & Hd).
    rewrite main_exn_diagnose, Hj.
    assert (Hok : fst (initialize_exn host new_diagnostics) = true).
    { apply initialize_exn_ok. auto. }
    rewrite Hok. now rewrite Hd.
Qed.

(** A payload that parses to a list, a reading that is a text, a host
    whose file system raises and a malformed output in sequential mode
    each print an error. *)
Example main_exn_samples :
  main_exn exact_numeric (host_of sample_platform) sized_backend sample_loads
    ["hailo_inference.py"; "diagnose"; "[1, 2]"]
  = Prints (PrintError "'list' object has no attribute 'get'")
  /\ main_exn text_numeric (host_of sample_platform) sized_backend text_loads
       ["hailo_inference.py"; "diagnose"; "{fan_status: on}"]
     = Prints (PrintError "could not convert string to float: 'on'")
  /\ main_exn exact_numeric guarded_host sized_backend sample_loads
       ["hailo_inference.py"; "diagnose"; "{}"]
     = Prints (PrintError "Failed to initialize Hailo device")
  /\ main_exn exact_numeric (host_of sample_platform) malformed_backend
       sample_loads ["hailo_inference.py"; "diagnose"; "{}"; "sequential"]
     = Prints (PrintError "object of type 'numpy.float32' has no len()").
Proof. repeat split; vm_compute; reflexivity. Qed.

(** ** The entries of a printed report *)

Lemma diagnose_exn_entry {R F} (num : Numeric R F) (bk : Backend F) self
  sensor_data input_data mode report name :
  prepare_sensor_data_f32 num sensor_data = Returned input_data ->
  diagnose_exn num bk self (Mapping sensor_data) mode = Returned report ->
  In name (Dict.keys MODEL_PATHS) ->
  mode_of report = effective_mode mode
  /\ if String.eqb (effective_mode mode) "simultaneous"
     then report_entry report name
          = match entry_exn bk self input_data true name with
            | Returned r => Some (with_total_time (total_ms bk) r)
            | Raised _ => None
            end
     else exists r,
            entry_exn bk self input_data false name = Returned r
            /\ report_entry report name = Some r.
Proof.
  intros Hp Hd Hin. unfold diagnose_exn in Hd.
  fold (effective_mode mode) in Hd.
  cbn [prepare_sensor_data_exn] in Hd. rewrite Hp in Hd.
  destruct (String.eqb (effective_mode mode) "simultaneous").
  - destruct (aggregate_diagnoses _) as [fin|]; [|discriminate].
    injection Hd as <-. split; [reflexivity|].
    unfold report_entry. cbn [models_of].
    rewrite run_simultaneous_inference_exn_tabulate, get_tabulate_returned.
    destruct (in_dec string_dec name _) as [_|Hn].
    + now destruct (entry_exn bk self input_data true name).
    + exfalso. apply Hn.
      eapply Permutation_in; [|exact Hin].
      symmetry. apply write_order_perm. lia.
  - rewrite run_sequential_loop_exn_cases in Hd.
    destruct (first_raised _ _) as [message|] eqn:Hfr; [discriminate|].
    rewrite fold_write_returned in Hd;
      [|apply model_names_NoDup|intros k _ []].
    change (Dict.empty ++ ?l)%list with l in Hd.
    set (results := tabulate_returned _ _) in Hd.
    destruct (aggregate_diagnoses results) as [fin|]; [|discriminate].
    injection Hd as <-. split; [reflexivity|].
    unfold report_entry. cbn [models_of]. unfold results.
    rewrite get_tabulate_returned.
    destruct (in_dec string_dec name _) as [_|Hn]; [|contradiction].
    destruct (entry_exn bk self input_data false name)
      as [r|message] eqn:He; [eauto|].
    destruct (first_raised_In _ _ _ _ Hin He) as [m' Hm'].
    rewrite Hfr in Hm'. discriminate.
Qed.

Lemma initialize_exn_ok_entry host name model_path :
  fst (initialize_exn host new_diagnostics) = true ->
  Dict.get MODEL_PATHS name = Some model_path ->
  is_loaded (snd (initialize_exn host new_diagnostics)) name
  = loaded (load_info_exn host model_path)
  /\ Dict.mem (network_groups (snd (initialize_exn host new_diagnostics))) name
     = configured_exn host model_path.
Proof.
  intros Hok Hget.
  assert (Hv : host_device host = true).
  { now apply initialize_exn_ok in Hok. }
  assert (Hin : In (name, model_path) (visited host MODEL_PATHS)).
  { rewrite visited_all; [now apply get_In|].
    rewrite (initialize_exn_state host Hv) in Hok. exact Hok. }
  destruct (initialize_exn_entry host name model_path Hv Hin) as [Hg Hm].
  split; [|exact Hm]. unfold is_loaded. now rewrite Hg.
Qed.

(** X4.  End to end for the [diagnose] command: when [main] prints a
    report, the payload parsed to a mapping whose readings convert and
    the report carries the requested mode; the entry of a registered
    model is the error "Model not loaded" unless its file exists, its HEF
    configures and [stat()] returns its size; for such a model it is the
    error "Inference failed" when the backend call fails, a success
    record built from the number that the output converts to (0 for an
    empty output) when it converts, and there is no entry at all, and the
    mode is simultaneous, when the conversion raises. *)
Theorem main_report_entries {R F} (num : Numeric R F) host (bk : Backend F)
  (loads : string -> JsonLoads R) prog payload rest report name model_path :
  main_exn num host bk loads (prog :: "diagnose" :: payload :: rest)
  = Prints (PrintReport report) ->
  Dict.get MODEL_PATHS name = Some model_path ->
  exists sensor_data input_data,
    loads payload = Loaded (Mapping sensor_data)
    /\ prepare_sensor_data_f32 num sensor_data = Returned input_data
    /\ mode_of report = requested_mode rest
    /\ (~ (host_exists host model_path = Returned true
           /\ host_configure host model_path = None
           /\ exists s, host_size_mb host model_path = Returned s) ->
        report_entry report name = Some (error_result "Model not loaded"))
    /\ (host_exists host model_path = Returned true ->
        host_configure host model_path = None ->
        (exists s, host_size_mb host model_path = Returned s) ->
        match call bk name input_data with
        | None =>
            report_entry report name = Some (error_result "Inference failed")
        | Some (Sized O _) =>
            exists r, report_entry report name = Some r
                      /\ success_record name 0 r
        | Some (Sized (S _) (Returned fault_prob)) =>
            exists r, report_entry report name = Some r
                      /\ success_record name fault_prob r
        | Some _ =>
            report_entry report name = None
            /\ requested_mode rest = "simultaneous"
        end).
Proof.
  intros Hmain Hget.
  rewrite main_exn_diagnose in Hmain.
  destruct (loads payload) as [|message|p] eqn:Hj; try discriminate.
  destruct (fst (initialize_exn host new_diagnostics)) eqn:Hok;
    [|discriminate].
  destruct (diagnose_exn num bk (snd (initialize_exn host new_diagnostics)) p
              (Some (requested_mode rest))) as [result|message] eqn:Hd;
    [|discriminate].
  injection Hmain as ->.
  destruct (diagnose_exn_returned _ _ _ _ _ _ Hd)
    as (sensor_data & input_data & -> & Hp).
  exists sensor_data, input_data. split; [reflexivity|]. split; [exact Hp|].
  destruct (initialize_exn_ok_entry host name model_path Hok Hget) as [Hl Hg].
  set (self := snd (initialize_exn host new_diagnostics)) in *.
  destruct (diagnose_exn_entry _ _ _ _ _ _ _ name Hp Hd
              (get_In_keys _ _ _ Hget)) as [Hmode Hentry].
  cbn [effective_mode] in Hmode, Hentry.
  split; [exact Hmode|]. split.
  - intros Hnot.
    assert (Hl' : is_loaded self name = false).
    { rewrite Hl. destruct (loaded (load_info_exn host model_path)) eqn:E;
        [|reflexivity].
      exfalso. apply Hnot. now apply load_info_exn_loaded. }
    unfold entry_exn in Hentry. rewrite Hl' in Hentry.
    destruct (String.eqb (requested_mode rest) "simultaneous").
    + exact Hentry.
    + destruct Hentry as (r & [= <-] & Hr). exact Hr.
  - intros He Hc Hs.
    assert (Hl' : is_loaded self name = true).
    { rewrite Hl. now apply load_info_exn_loaded. }
    assert (Hg' : Dict.mem (network_groups self) name = true).
    { rewrite Hg. unfold configured_exn. now rewrite He, Hc. }
    unfold entry_exn, run_inference_exn in Hentry.
    rewrite Hl', Hg' in Hentry. cbn [negb] in Hentry.
    destruct (call bk name input_data) as [output|].
    + assert (Hcases :
                match fault_prob_exn output with
                | Returned fault_prob =>
                    exists r, report_entry report name = Some r
                              /\ success_record name fault_prob r
                | Raised _ =>
                    report_entry report name = None
                    /\ requested_mode rest = "simultaneous"
                end).
      { destruct (fault_prob_exn output) as [p|message].
        - destruct (String.eqb (requested_mode rest) "simultaneous").
          + eexists. split; [exact Hentry|]. repeat split.
          + destruct Hentry as (r & [= <-] & Hr).
            eexists. split; [exact Hr|]. repeat split.
        - destruct (String.eqb_spec (requested_mode rest) "simultaneous")
            as [Hsim|_].
          + split; [exact Hentry|exact Hsim].
          + destruct Hentry as (r & Hr & _). discriminate Hr. }
      destruct output as [m|[|n] [x|m]]; exact Hcases.
    + destruct (String.eqb (requested_mode rest) "simultaneous").
      * exact Hentry.
      * destruct Hentry as (r & [= <-] & Hr). exact Hr.
Qed.

Lemma main_report_entries_witness :
  match main_exn coarse_numeric stat_host malformed_backend sample_loads
          ["hailo_inference.py"; "diagnose"; "{}"] with
  | Prints (PrintReport report) =>
      map (fun kv => (fst kv, confidence (snd kv))) (models_of report)
      = [("naiad", Some (9#10)); ("vulcan", Some (9#10));
         ("zephyrus", Some (9#10)); ("colossus", Some (9#10));
         ("gaia", None); ("boreas", None)]
  | _ => False
  end
  /\ exists report,
    main_exn coarse_numeric stat_host malformed_backend sample_loads
      ["hailo_inference.py"; "diagnose"; "{}"]
    = Prints (PrintReport report)
    /\ mode_of report = "simultaneous"
    /\ report_entry report "boreas" = Some (error_result "Model not loaded")
    /\ report_entry report "gaia" = Some (error_result "Inference failed")
    /\ report_entry report "apollo" = None
    /\ exists r,
         report_entry report "naiad" = Some r
         /\ confidence r = Some (9#10)
         /\ fault_detected r = Some true.
Proof.
  split; [vm_compute; reflexivity|].
  assert (Hm : exists report,
             main_exn coarse_numeric stat_host malformed_backend sample_loads
               ["hailo_inference.py"; "diagnose"; "{}"]
             = Prints (PrintReport report)).
  { vm_compute. eexists. reflexivity. }
  destruct Hm as [report Hm]. exists report. split; [exact Hm|].
  pose proof (main_report_entries coarse_numeric stat_host malformed_backend
                sample_loads "hailo_inference.py" "{}" [] report) as H.
  split; [|split; [|split; [|split]]].
  - destruct (H "boreas"
                "/home/Automata/mydata/apollo-nexus/models/boreas_simple.hef"
                Hm eq_refl) as (sd & input & _ & _ & Hmode & _).
    exact Hmode.
  - destruct (H "boreas"
                "/home/Automata/mydata/apollo-nexus/models/boreas_simple.hef"
                Hm eq_refl) as (sd & input & _ & _ & _ & Hnot & _).
    apply Hnot. intros (_ & _ & s & Hs). discriminate Hs.
  - destruct (H "gaia"
                "/home/Automata/mydata/apollo-nexus/models/gaia_simple.hef"
                Hm eq_refl) as (sd & input & _ & _ & _ & _ & Hyes).
    exact (Hyes eq_refl eq_refl (ex_intro _ (7#2) eq_refl)).
  - destruct (H "apollo"
                "/home/Automata/mydata/apollo-nexus/models/apollo_simple.hef"
                Hm eq_refl) as (sd & input & _ & _ & _ & _ & Hyes).
    exact (proj1 (Hyes eq_refl eq_refl (ex_intro _ (7#2) eq_refl))).
  - destruct (H "naiad"
                "/home/Automata/mydata/apollo-nexus/models/naiad_simple.hef"
                Hm eq_refl) as (sd & input & _ & _ & _ & _ & Hyes).
    destruct (Hyes eq_refl eq_refl (ex_intro _ (7#2) eq_refl))
      as (r & Hr & Hf & Hc & _).
    exists r. split; [exact Hr|]. split; [exact Hc|exact Hf].
Defined.

(** * The two descriptions of [main] *)

(** On a platform, a backend and a parser that honour the contract,
    [main] with its exceptions prints what [main] prints on exact
    numbers; the [models] command apart, whose listing only the second
    description carries. *)
Lemma main_exn_agree pf rt json_loads argv :
  (forall prog rest, argv <> prog :: "models" :: rest) ->
  main_exn exact_numeric (host_of pf) (backend_of rt) (loads_of json_loads)
    argv
  = Prints (main pf rt json_loads argv).
Proof.
  intros Hm.
  destruct argv as [|prog [|command args]]; try reflexivity.
  destruct (string_dec command "diagnose") as [->|Hd].
  - destruct args as [|payload rest]; [reflexivity|].
    rewrite main_exn_diagnose, main_diagnose. unfold loads_of.
    destruct (json_loads payload) as [sensor_data|]; [|reflexivity].
    rewrite initialize_exn_host_of, initialize_ok.
    destruct (vdevice_available pf); [|reflexivity].
    rewrite diagnose_exn_backend_of.
    now destruct (diagnose rt _ sensor_data _).
  - unfold main_exn, main.
    destruct (String.eqb command "status"); [reflexivity|].
    destruct (String.eqb_spec command "models") as [->|_].
    + exfalso. exact (Hm prog args eq_refl).
    + destruct (String.eqb_spec command "diagnose"); [contradiction|].
      reflexivity.
Qed.
